(** * FAT.c: a shallow embedding of the FAT32 image navigator

    The development follows src/FAT.c function by function.  C integers are
    modelled as [Z] with the wrap-around of their C type written out, bytes as
    [Byte.byte], the heap buffer obtained from [malloc] as a list of cells that
    are either a byte or indeterminate, and the operating-system calls
    ([open], [lseek], [read], [write], [fstat], [close]) as operations of a
    small state monad over a world made of the files on disk, the table of
    open descriptors and the trace of everything the program did.

    Platform facts the C text leaves to the implementation are fixed as on
    the hosts the program is written for (POSIX, 8-bit bytes, little-endian,
    32-bit [int], 64-bit [off_t]), except those that change what the
    program does and are therefore parameters: the signedness of plain
    [char], the success of [malloc], the largest offset [lseek] accepts,
    and what an [snprintf] that prints its destination into itself leaves
    there.  Where the C text has no defined behaviour and the hosts give no
    definite result either (an access outside the buffer, the use of memory
    nobody wrote, a division by zero), a computation stops with the outcome
    [Undefined].

    The file has three parts: the program; the design of the specification
    where the program has no counterpart, and the volumes and predicates the
    statements need; the proofs. *)

From Stdlib Require Import ZArith Lia List String Ascii Bool.
From Stdlib.Strings Require Import Byte.
From stdpp Require Import base option list gmap strings pretty.

Open Scope Z_scope.

(** ** C integer types *)

Definition u32 (z : Z) : Z := z mod 2^32.
Definition u64 (z : Z) : Z := z mod 2^64.

(** conversion of a 64-bit pattern to the signed [off_t] *)
Definition to_off_t (z : Z) : Z :=
  let r := u64 z in if r <? 2^63 then r else r - 2^64.

(** conversion to the 32-bit signed [int] *)
Definition to_int (z : Z) : Z :=
  let r := u32 z in if r <? 2^31 then r else r - 2^32.

(** ** Bytes and memory cells *)

Definition byte_val (b : byte) : Z := Z.of_N (Byte.to_N b).

Definition byte_of (z : Z) : byte :=
  match Byte.of_N (Z.to_N (z mod 256)) with
  | Some b => b
  | None => x00
  end.

(** A byte of heap memory: [None] is the indeterminate content of memory
    that [malloc] returned and nothing has written yet. *)
Definition cell : Type := option byte.

(** the value of a plain [char] after integer promotion *)
Definition char_val (char_signed : bool) (b : byte) : Z :=
  let v := byte_val b in
  if char_signed then (if v <? 128 then v else v - 256) else v.

(** little-endian loads and stores, as the casts of the C text perform them *)
Definition le16 (b0 b1 : byte) : Z := byte_val b0 + 2^8 * byte_val b1.
Definition le32 (b0 b1 b2 b3 : byte) : Z :=
  byte_val b0 + 2^8 * byte_val b1 + 2^16 * byte_val b2 + 2^24 * byte_val b3.

Definition bytes_le16 (z : Z) : list byte :=
  [byte_of z; byte_of (z / 2^8)].
Definition bytes_le32 (z : Z) : list byte :=
  [byte_of z; byte_of (z / 2^8); byte_of (z / 2^16); byte_of (z / 2^24)].

(** a C string (without its terminating NUL) as the bytes of a Rocq string *)
Definition bytes_of_string (s : string) : list byte := list_byte_of_string s.
Definition string_of_bytes (l : list byte) : string := string_of_list_byte l.

(** the C string stored in a char array: the bytes before the first NUL *)
Fixpoint c_str (l : list byte) : list byte :=
  match l with
  | [] => []
  | b :: l' => if Byte.eqb b x00 then [] else b :: c_str l'
  end.

(** ** The structures of the program *)

(** [BootSectorInfo]; every field holds a value of its C type. *)
Record BootSectorInfo := {
  bytesPerSector : Z;     (* unsigned short *)
  sectorsPerCluster : Z;  (* unsigned char *)
  rootCluster : Z;        (* unsigned int *)
  totalClusters : Z;      (* unsigned int *)
  sectorsPerFAT : Z;      (* unsigned int *)
  sizeOfImage : Z         (* unsigned long long *)
}.

Definition bsi_in_range (b : BootSectorInfo) : Prop :=
  0 <= bytesPerSector b < 2^16 /\ 0 <= sectorsPerCluster b < 2^8 /\
  0 <= rootCluster b < 2^32 /\ 0 <= totalClusters b < 2^32 /\
  0 <= sectorsPerFAT b < 2^32 /\ 0 <= sizeOfImage b < 2^64.

(** [DirectoryContext]; [path] and [imageName] are the C strings held in the
    two char arrays (of 512 and 256 bytes). *)
Record DirectoryContext := {
  currentCluster : Z;     (* unsigned int *)
  path : list byte;
  imageName : list byte
}.

Definition DIR_ENTRY_SIZE : Z := 32.
Definition ATTR_DIRECTORY : Z := 16.

(** Layout of [DirEntry] as the compiler lays the declared members out:
    name[11] at 0, attr at 11, reserved[20] at 12, firstClusterHigh at 32,
    firstClusterLow at 34, fileSize at 36; the structure is 40 bytes long. *)
Definition off_name : Z := 0.
Definition off_attr : Z := 11.
Definition off_reserved : Z := 12.
Definition off_firstClusterHigh : Z := 32.
Definition off_firstClusterLow : Z := 34.
Definition off_fileSize : Z := 36.
Definition sizeof_DirEntry : Z := 40.

(** ** The world: files, descriptors, trace *)

Inductive open_mode := O_RDONLY | O_WRONLY | O_RDWR.

Record fdesc := { fd_path : string; fd_pos : Z; fd_mode : open_mode }.

Inductive event :=
| EvStdout (s : string)
| EvPerror (s : string)
| EvOpen (p : string) (m : open_mode) (ret : Z)
| EvClose (fd : Z)
| EvSeek (fd : Z) (off : Z) (ret : Z)
| EvRead (fd : Z) (n : Z) (ret : Z)
| EvWrite (fd : Z) (data : list byte) (ret : Z).

Record world := {
  w_files : gmap string (list byte);
  w_fds : gmap Z fdesc;
  w_trace : list event
}.

Definition log (e : event) (w : world) : world :=
  {| w_files := w_files w; w_fds := w_fds w; w_trace := w_trace w ++ [e] |}.

(** ** The monad of C computations

    A computation either returns a value in a new world, or reaches a point
    where the C text has no defined behaviour (an access outside the buffer,
    the use of an indeterminate value, a division by zero); the world at that
    point is kept. *)

Inductive outcome (A : Type) :=
| Ret (a : A) (w : world)
| Undefined (w : world).
Arguments Ret {A} a w.
Arguments Undefined {A} w.

Definition M (A : Type) : Type := world -> outcome A.

Definition ret {A} (a : A) : M A := fun w => Ret a w.
Definition bind {A B} (m : M A) (k : A -> M B) : M B :=
  fun w => match m w with
           | Ret a w' => k a w'
           | Undefined w' => Undefined w'
           end.
Definition undefined {A} : M A := fun w => Undefined w.
Definition emit (e : event) : M unit := fun w => Ret tt (log e w).

#[global] Instance M_ret : MRet M := @ret.
#[global] Instance M_bind : MBind M := fun A B k m => bind m k.

Definition final_world {A} (o : outcome A) : world :=
  match o with Ret _ w => w | Undefined w => w end.

Definition printf (s : string) : M unit := emit (EvStdout s).
Definition perror (s : string) : M unit := emit (EvPerror s).

(** the newline character *)
Definition nl : string := String (ascii_of_byte x0a) EmptyString.

(** ** The platform

    What the C text and POSIX leave to the host. *)

Record platform := {
  char_signed : bool;          (* is plain [char] a signed type? *)
  malloc_fails : Z -> bool;    (* does [malloc] return NULL for this size? *)
  (* the largest offset [lseek] accepts on the file system of the image *)
  max_offset : Z;
  (* what [snprintf(path, 512, "%s/%s", path, dirName)] leaves in [path],
     given the old path and the name: the call passes its destination as
     one of the strings to print, which C leaves undefined; [None] where
     the host gives it no result *)
  snprintf_self : list byte -> list byte -> option (list byte)
}.

(** ** Operating-system calls *)

(** the lowest descriptor number from 3 on that is not in use *)
Definition lowest_free (fds : gmap Z fdesc) : Z :=
  match List.find (fun n => bool_decide (fds !! n = None))
                  (seqZ 3 (Z.of_nat (size fds) + 1)) with
  | Some n => n
  | None => 3 + Z.of_nat (size fds)
  end.

Definition sys_open (p : string) (m : open_mode) : M Z := fun w =>
  match w_files w !! p with
  | None => Ret (-1) (log (EvOpen p m (-1)) w)
  | Some _ =>
      let fd := lowest_free (w_fds w) in
      Ret fd (log (EvOpen p m fd)
                {| w_files := w_files w;
                   w_fds := <[fd := {| fd_path := p; fd_pos := 0; fd_mode := m |}]> (w_fds w);
                   w_trace := w_trace w |})
  end.

Definition sys_close (fd : Z) : M unit := fun w =>
  Ret tt (log (EvClose fd)
            {| w_files := w_files w; w_fds := delete fd (w_fds w); w_trace := w_trace w |}).

(** [lseek(fd, off, SEEK_SET)]: it fails on a descriptor that is not open,
    at a negative offset, and at an offset beyond the maximum of the file
    system *)
Definition sys_lseek (pf : platform) (fd : Z) (off : Z) : M Z := fun w =>
  match w_fds w !! fd with
  | Some d =>
      if (0 <=? off) && (off <=? max_offset pf) then
        Ret off (log (EvSeek fd off off)
                   {| w_files := w_files w;
                      w_fds := <[fd := {| fd_path := fd_path d; fd_pos := off; fd_mode := fd_mode d |}]> (w_fds w);
                      w_trace := w_trace w |})
      else Ret (-1) (log (EvSeek fd off (-1)) w)
  | None => Ret (-1) (log (EvSeek fd off (-1)) w)
  end.

Definition readable (m : open_mode) : bool :=
  match m with O_WRONLY => false | _ => true end.
Definition writable (m : open_mode) : bool :=
  match m with O_RDONLY => false | _ => true end.

(** the bytes of a file from position [pos], at most [n] of them *)
Definition file_slice (data : list byte) (pos n : Z) : list byte :=
  take (Z.to_nat n) (drop (Z.to_nat pos) data).

(** [read(fd, buf, n)]: the return value and the bytes delivered *)
Definition sys_read (fd : Z) (n : Z) : M (Z * list byte) := fun w =>
  match w_fds w !! fd with
  | Some d =>
      match w_files w !! fd_path d with
      | Some data =>
          if readable (fd_mode d) then
            let got := file_slice data (fd_pos d) n in
            let k := Z.of_nat (length got) in
            Ret (k, got)
              (log (EvRead fd n k)
                 {| w_files := w_files w;
                    w_fds := <[fd := {| fd_path := fd_path d; fd_pos := fd_pos d + k; fd_mode := fd_mode d |}]> (w_fds w);
                    w_trace := w_trace w |})
          else Ret (-1, []) (log (EvRead fd n (-1)) w)
      | None => Ret (-1, []) (log (EvRead fd n (-1)) w)
      end
  | None => Ret (-1, []) (log (EvRead fd n (-1)) w)
  end.

(** the content of a file after [bytes] are written at [pos]; a gap between
    the end of the file and [pos] reads as zeros *)
Definition file_store (data : list byte) (pos : Z) (bytes : list byte) : list byte :=
  let p := Z.to_nat pos in
  take p (data ++ replicate (p - length data)%nat x00)
    ++ bytes ++ drop (p + length bytes)%nat data.

(** [write(fd, buf, n)] with the [n] bytes of the buffer given as [bytes] *)
Definition sys_write (fd : Z) (bytes : list byte) : M Z := fun w =>
  match w_fds w !! fd with
  | Some d =>
      match w_files w !! fd_path d with
      | Some data =>
          if writable (fd_mode d) then
            let k := Z.of_nat (length bytes) in
            Ret k
              (log (EvWrite fd bytes k)
                 {| w_files := <[fd_path d := file_store data (fd_pos d) bytes]> (w_files w);
                    w_fds := <[fd := {| fd_path := fd_path d; fd_pos := fd_pos d + k; fd_mode := fd_mode d |}]> (w_fds w);
                    w_trace := w_trace w |})
          else Ret (-1) (log (EvWrite fd bytes (-1)) w)
      | None => Ret (-1) (log (EvWrite fd bytes (-1)) w)
      end
  | None => Ret (-1) (log (EvWrite fd bytes (-1)) w)
  end.

(** [fstat(fd, &st)]: the return value and [st.st_size] *)
Definition sys_fstat (fd : Z) : M (Z * Z) := fun w =>
  match w_fds w !! fd with
  | Some d =>
      match w_files w !! fd_path d with
      | Some data => Ret (0, Z.of_nat (length data)) w
      | None => Ret (-1, 0) w
      end
  | None => Ret (-1, 0) w
  end.

(** ** Heap buffers *)

(** [malloc(n)]: [n] indeterminate bytes *)
Definition malloc (n : Z) : list cell := replicate (Z.to_nat n) None.

(** [got] stored at the start of the buffer *)
Definition filled (buf : list cell) (got : list byte) : list cell :=
  (Some <$> got) ++ drop (length got) buf.

(** the buffer after [read] delivered [got] at its start; [None] when [got]
    is longer than the buffer, so that the call wrote past its end *)
Definition buf_fill (buf : list cell) (got : list byte) : option (list cell) :=
  if (length got <=? length buf)%nat then Some (filled buf got) else None.

(** reading the byte at index [i]: outside the buffer, or at an indeterminate
    byte, behaviour is not defined *)
Definition load (buf : list cell) (i : Z) : M byte := fun w =>
  if (0 <=? i) then
    match buf !! Z.to_nat i with
    | Some (Some b) => Ret b w
    | _ => Undefined w
    end
  else Undefined w.

(** storing a byte at index [i] *)
Definition store (buf : list cell) (i : Z) (b : byte) : M (list cell) := fun w =>
  if (0 <=? i) && (i <? Z.of_nat (length buf)) then
    Ret (<[Z.to_nat i := Some b]> buf) w
  else Undefined w.

(** the [n] bytes at the start of the buffer, as [write] takes them *)
Fixpoint all_bytes (l : list cell) : option (list byte) :=
  match l with
  | [] => Some []
  | Some b :: l' => match all_bytes l' with Some r => Some (b :: r) | None => None end
  | None :: _ => None
  end.

(** ** C string functions *)

Definition is_nul (b : byte) : bool := Byte.eqb b x00.

(** equality of two lists of bytes, as [strcmp(a, b) == 0] on C strings *)
Fixpoint strcmp_eq (a b : list byte) : bool :=
  match a, b with
  | [], [] => true
  | x :: a', y :: b' => Byte.eqb x y && strcmp_eq a' b'
  | _, _ => false
  end.

(** [strncmp(buf + i, s2, n) == 0] where [s2] is a C string: at most [n]
    characters are compared, and comparison stops after a NUL matched *)
Fixpoint strncmp_eq (buf : list cell) (i : Z) (s2 : list byte) (n : nat) : M bool :=
  match n with
  | O => mret true
  | S n' =>
      c1 ← load buf i;
      let c2 := hd x00 s2 in
      if Byte.eqb c1 c2 then
        if is_nul c1 then mret true
        else strncmp_eq buf (i + 1) (tl s2) n'
      else mret false
  end.

(** [strncmp(a, b, n) == 0] on two C strings *)
Definition strncmp_str_eq (a b : list byte) (n : nat) : bool :=
  strcmp_eq (take n a) (take n b).

(** the characters [printf("%.11s", buf + i)] prints: at most [n], up to the
    first NUL *)
Fixpoint read_str (buf : list cell) (i : Z) (n : nat) : M (list byte) :=
  match n with
  | O => mret []
  | S n' =>
      c ← load buf i;
      if is_nul c then mret []
      else rest ← read_str buf (i + 1) n'; mret (c :: rest)
  end.

(** [strncpy(buf + i, src, n)]: the first [n] characters of [src], padded
    with NULs up to [n] *)
Definition strncpy_bytes (src : list byte) (n : nat) : list byte :=
  take n src ++ replicate (n - length src)%nat x00.

Fixpoint store_bytes (buf : list cell) (i : Z) (bs : list byte) : M (list cell) :=
  match bs with
  | [] => mret buf
  | b :: bs' => buf' ← store buf i b; store_bytes buf' (i + 1) bs'
  end.

Definition load16 (buf : list cell) (i : Z) : M Z :=
  b0 ← load buf i; b1 ← load buf (i + 1); mret (le16 b0 b1).

(** ** readCluster *)

(** [bsi->bytesPerSector * bsi->sectorsPerCluster], an [int] product *)
Definition cluster_bytes (bsi : BootSectorInfo) : Z :=
  bytesPerSector bsi * sectorsPerCluster bsi.

(** [((clusterNum - 2) * bsi->sectorsPerCluster) + bsi->rootCluster],
    evaluated in [unsigned int] *)
Definition cluster_sector (bsi : BootSectorInfo) (clusterNum : Z) : Z :=
  u32 (u32 (u32 (clusterNum - 2) * sectorsPerCluster bsi) + rootCluster bsi).

(** [sector * bsi->bytesPerSector], evaluated in [unsigned long long] and
    stored in an [off_t] *)
Definition cluster_offset (bsi : BootSectorInfo) (clusterNum : Z) : Z :=
  to_off_t (u64 (cluster_sector bsi clusterNum * bytesPerSector bsi)).

Definition readCluster (pf : platform) (fd : Z) (clusterNum : Z)
    (buffer : list cell) (bsi : BootSectorInfo) : M (bool * list cell) :=
  let offset := cluster_offset bsi clusterNum in
  r ← sys_lseek pf fd offset;
  if r <? 0 then
    perror "Error seeking cluster";; mret (false, buffer)
  else
    '(k, got) ← sys_read fd (cluster_bytes bsi);
    if k <? 0 then
      perror "Error reading cluster";; mret (false, buffer)
    else
      match buf_fill buffer got with
      | Some buffer' => mret (true, buffer')
      | None => undefined
      end.

Section Program.

Variable pf : platform.

(** [entry->name[0] == 0x00] and [entry->name[0] == 0xE5], with the [char]
    promoted to [int] *)
Definition name0_is (b : byte) (v : Z) : bool :=
  char_val (char_signed pf) b =? v.

(** ** changeDirectory

    Two steps of the matching branch are left open by the C text.
    [entry->firstClusterHigh << 16] is a shift of a promoted [int], which
    is taken to yield the 32-bit pattern also when the high half is 0x8000
    or more.  [snprintf(context->path, ..., "%s/%s", context->path,
    dirName)] writes to the array it reads from: the new path is what the
    platform says ([snprintf_self]), and where it says nothing the
    behaviour is not defined. *)

Definition dotdot_padded : list byte := bytes_of_string "..         ".

Fixpoint changeDirectory_loop (buffer : list cell) (dirName : list byte)
    (k : nat) (i : Z) (found : bool) (context : DirectoryContext)
    : M (bool * DirectoryContext) :=
  match k with
  | O => mret (found, context)
  | S k' =>
      let entry := i * sizeof_DirEntry in
      n0 ← load buffer (entry + off_name);
      if name0_is n0 0 then mret (found, context)
      else if name0_is n0 229 then
        changeDirectory_loop buffer dirName k' (i + 1) found context
      else
        c1 ← ((if strcmp_eq dirName (bytes_of_string "..")
                then strncmp_eq buffer (entry + off_name) dotdot_padded 11
                else mret false) : M bool);
        if (c1 : bool) then
          changeDirectory_loop buffer dirName k' (i + 1) true context
        else
          attr ← load buffer (entry + off_attr);
          c2 ← ((if negb (Z.land (byte_val attr) ATTR_DIRECTORY =? 0)
                  then strncmp_eq buffer (entry + off_name) dirName 11
                  else mret false) : M bool);
          if (c2 : bool) then
            hi ← load16 buffer (entry + off_firstClusterHigh);
            lo ← load16 buffer (entry + off_firstClusterLow);
            match snprintf_self pf (path context) dirName with
            | None => undefined
            | Some path' =>
                mret (true,
                      {| currentCluster := u32 (Z.lor (Z.shiftl hi 16) lo);
                         path := path';
                         imageName := imageName context |})
            end
          else changeDirectory_loop buffer dirName k' (i + 1) found context
  end.

Definition changeDirectory (fd : Z) (dirName : list byte)
    (context : DirectoryContext) (bsi : BootSectorInfo) : M DirectoryContext :=
  if strcmp_eq dirName (bytes_of_string ".") then mret context
  else if malloc_fails pf (cluster_bytes bsi) then
    printf ("Failed to allocate memory for reading cluster" ++ nl);; mret context
  else
    let buffer := malloc (cluster_bytes bsi) in
    '(ok, buffer) ← readCluster pf fd (currentCluster context) buffer bsi;
    if negb ok then mret context
    else
      let entriesCount := to_int (cluster_bytes bsi / sizeof_DirEntry) in
      '(found, context') ←
         changeDirectory_loop buffer dirName (Z.to_nat entriesCount) 0 false context;
      ((if negb found
        then printf ("Directory not found: " ++ string_of_bytes dirName ++ nl)
        else mret tt) : M unit);;
      mret context'.

(** ** listDirectory *)

Fixpoint listDirectory_loop (buffer : list cell) (k : nat) (i : Z) : M unit :=
  match k with
  | O => mret tt
  | S k' =>
      let entry := i * sizeof_DirEntry in
      n0 ← load buffer (entry + off_name);
      if name0_is n0 0 then mret tt
      else if name0_is n0 229 then listDirectory_loop buffer k' (i + 1)
      else
        name ← read_str buffer (entry + off_name) 11;
        printf (string_of_bytes name ++ nl);;
        listDirectory_loop buffer k' (i + 1)
  end.

Definition listDirectory (fd : Z) (context : DirectoryContext)
    (bsi : BootSectorInfo) : M unit :=
  if malloc_fails pf (cluster_bytes bsi) then
    printf ("Failed to allocate memory for reading cluster" ++ nl)
  else
    let buffer := malloc (cluster_bytes bsi) in
    '(ok, buffer) ← readCluster pf fd (currentCluster context) buffer bsi;
    if negb ok then mret tt
    else
      let entriesCount := cluster_bytes bsi / DIR_ENTRY_SIZE in
      printf ("." ++ nl ++ ".." ++ nl);;
      listDirectory_loop buffer (Z.to_nat entriesCount) 0.

(** ** createDirectory *)

(** the assignments made to the free entry found at byte [entry] *)
Definition fill_entry (buffer : list cell) (entry : Z) (dirName : list byte)
    (cur : Z) : M (list cell) :=
  b1 ← store_bytes buffer (entry + off_name) (strncpy_bytes dirName 11);
  b2 ← store b1 (entry + off_attr) (byte_of ATTR_DIRECTORY);
  b3 ← store_bytes b2 (entry + off_firstClusterLow)
         (bytes_le16 (Z.land cur 65535));
  b4 ← store_bytes b3 (entry + off_firstClusterHigh)
         (bytes_le16 (Z.land (Z.shiftr cur 16) 65535));
  store_bytes b4 (entry + off_fileSize) (bytes_le32 0).

(** [dirName] is [None] when the caller passes an array that holds no
    string (its content is indeterminate). *)
Fixpoint createDirectory_loop (buffer : list cell) (dirName : option (list byte))
    (cur : Z) (k : nat) (i : Z) : M (bool * list cell) :=
  match k with
  | O => mret (false, buffer)
  | S k' =>
      let entry := i * sizeof_DirEntry in
      n0 ← load buffer (entry + off_name);
      if name0_is n0 0 || name0_is n0 229 then
        match dirName with
        | None => undefined
        | Some name =>
            buffer' ← fill_entry buffer entry name cur;
            mret (true, buffer')
        end
      else createDirectory_loop buffer dirName cur k' (i + 1)
  end.

(** [context->currentCluster * bsi->bytesPerSector * bsi->sectorsPerCluster],
    evaluated in [unsigned int] *)
Definition writeback_offset (context : DirectoryContext) (bsi : BootSectorInfo) : Z :=
  u32 (u32 (currentCluster context * bytesPerSector bsi) * sectorsPerCluster bsi).

Definition createDirectory (fd : Z) (dirName : option (list byte))
    (context : DirectoryContext) (bsi : BootSectorInfo) : M unit :=
  if malloc_fails pf (cluster_bytes bsi) then
    printf ("Failed to allocate memory for directory cluster" ++ nl)
  else
    let buffer := malloc (cluster_bytes bsi) in
    '(ok, buffer) ← readCluster pf fd (currentCluster context) buffer bsi;
    if negb ok then mret tt
    else
      let numEntries := to_int (cluster_bytes bsi / sizeof_DirEntry) in
      '(foundSpace, buffer) ←
         createDirectory_loop buffer dirName (currentCluster context)
           (Z.to_nat numEntries) 0;
      if negb foundSpace then
        printf ("No space in current directory to create new directory" ++ nl)
      else
        sys_lseek pf fd (writeback_offset context bsi);;
        match all_bytes (take (Z.to_nat (cluster_bytes bsi)) buffer) with
        | None => undefined
        | Some bytes => sys_write fd bytes;; mret tt
        end.

(** ** printBootSectorInfo *)

(** The initialisation of [info] from the 512 bytes read and [st.st_size];
    [None] when the divisor [sectorsPerCluster * bytesPerSector] is zero. *)
Definition bootSectorInfo_of (bootSector : list byte) (st_size : Z)
    : option BootSectorInfo :=
  let b (i : nat) := nth i bootSector x00 in
  let bps := le16 (b 11%nat) (b 12%nat) in
  let spc := byte_val (b 13%nat) in
  let root := le32 (b 44%nat) (b 45%nat) (b 46%nat) (b 47%nat) in
  let spf := le32 (b 36%nat) (b 37%nat) (b 38%nat) (b 39%nat) in
  if spc * bps =? 0 then None
  else Some {| bytesPerSector := bps;
               sectorsPerCluster := spc;
               rootCluster := root;
               totalClusters := u32 (Z.quot st_size (spc * bps));
               sectorsPerFAT := spf;
               sizeOfImage := u64 st_size |}.

Definition print_info (info : BootSectorInfo) : M unit :=
  printf ("Bytes Per Sector: " ++ pretty (bytesPerSector info) ++ nl);;
  printf ("Sectors Per Cluster: " ++ pretty (sectorsPerCluster info) ++ nl);;
  printf ("Root Cluster: " ++ pretty (rootCluster info) ++ nl);;
  printf ("Total # of Clusters in Data Region: " ++ pretty (totalClusters info) ++ nl);;
  printf ("# of Entries in One FAT: " ++ pretty (sectorsPerFAT info) ++ nl);;
  printf ("Size of Image (in bytes): " ++ pretty (sizeOfImage info) ++ nl).

Definition printBootSectorInfo (imagePath : string) : M unit :=
  fd ← sys_open imagePath O_RDONLY;
  if fd <? 0 then perror "Failed to open image file"
  else
    '(k, bootSector) ← sys_read fd 512;
    if negb (k =? 512) then
      perror "Failed to read boot sector";; sys_close fd
    else
      '(r, st_size) ← sys_fstat fd;
      if negb (r =? 0) then
        perror "Failed to get image file size";; sys_close fd
      else
        match bootSectorInfo_of bootSector st_size with
        | None => undefined
        | Some info => print_info info;; sys_close fd
        end.

(** ** main *)

Definition is_space (b : byte) : bool :=
  let v := byte_val b in (v =? 32) || ((9 <=? v) && (v <=? 13)).

Fixpoint skip_spaces (l : list byte) : list byte :=
  match l with
  | b :: l' => if is_space b then skip_spaces l' else l
  | [] => []
  end.

Fixpoint word (l : list byte) : list byte :=
  match l with
  | b :: l' => if is_space b then [] else b :: word l'
  | [] => []
  end.

(** [sscanf(input, "%255s", dirName)]: the array afterwards, [None] when
    nothing was converted and the array was left as it was *)
Definition sscanf_s (width : nat) (input : list byte) : option (list byte) :=
  match take width (word (skip_spaces input)) with
  | [] => None
  | tok => Some tok
  end.

(** [command[strcspn(command, "\n")] = 0] *)
Fixpoint chomp (command : list byte) : list byte :=
  match command with
  | b :: l' => if Byte.eqb b x0a then [] else b :: chomp l'
  | [] => []
  end.

Definition prompt (context : DirectoryContext) : string :=
  "[" ++ string_of_bytes (imageName context) ++ string_of_bytes (path context) ++ "]/> ".

(** The command loop; [lines] are the successive results of [fgets] on the
    standard input, and the loop ends at [exit] or when they are used up. *)
Fixpoint main_loop (argv1 : string) (fd : Z) (context : DirectoryContext)
    (bsi : BootSectorInfo) (lines : list (list byte)) : M unit :=
  match lines with
  | [] => printf (prompt context)
  | line :: rest =>
      printf (prompt context);;
      let command := chomp (c_str line) in
      if strcmp_eq command (bytes_of_string "exit") then mret tt
      else
        ((if strcmp_eq command (bytes_of_string "info") then
            printBootSectorInfo argv1
          else if strncmp_str_eq command (bytes_of_string "cd ") 3 then
            (* changeDirectory is commented out *)
            mret tt
          else if strcmp_eq command (bytes_of_string "ls") then
            listDirectory fd context bsi
          else if strncmp_str_eq command (bytes_of_string "mkdir ") 6 then
            createDirectory fd (sscanf_s 255 (drop 6 command)) context bsi
          else printf ("Unknown command" ++ nl)) : M unit);;
        main_loop argv1 fd context bsi rest
  end.

(** [main]; [bsi] is the content of the automatic variable [bsi], which the
    program declares and never assigns. *)
Definition main (argv : list string) (lines : list (list byte))
    (bsi : BootSectorInfo) : M Z :=
  if negb (Z.of_nat (length argv) =? 2) then
    printf ("Usage: ./filesys [FAT32 ISO]" ++ nl);; mret 1
  else
    let argv1 := nth 1 argv ""%string in
    fd ← sys_open argv1 O_RDONLY;
    if fd =? -1 then perror "Error opening file";; mret 1
    else
      let context := {| currentCluster := 2;
                        path := bytes_of_string "/";
                        imageName := take 255 (bytes_of_string argv1) |} in
      main_loop argv1 fd context bsi lines;;
      sys_close fd;;
      mret 0.

End Program.

(** * Directory records in the layout of the structure *)

(** [l] cut or padded with zeros to [n] bytes *)
Definition pad (n : nat) (l : list byte) : list byte :=
  take n (l ++ replicate n x00).

(** the 40 bytes of a [DirEntry] with the given members *)
Definition struct_entry (name : list byte) (attr cluster size : Z) : list byte :=
  pad 11 name ++ [byte_of attr] ++ replicate 20 x00
  ++ bytes_le16 (cluster / 65536) ++ bytes_le16 cluster ++ bytes_le32 size.

(** the members of record [i] of a cluster, read as the source reads them *)
Definition entry_attr (data : list byte) (i : nat) : Z :=
  byte_val (nth (40 * i + 11) data x00).

Definition entry_firstClusterHigh (data : list byte) (i : nat) : Z :=
  le16 (nth (40 * i + 32) data x00) (nth (40 * i + 33) data x00).

Definition entry_firstClusterLow (data : list byte) (i : nat) : Z :=
  le16 (nth (40 * i + 34) data x00) (nth (40 * i + 35) data x00).

(** [(firstClusterHigh << 16) | firstClusterLow] *)
Definition entry_firstCluster (data : list byte) (i : nat) : Z :=
  Z.lor (Z.shiftl (entry_firstClusterHigh data i) 16) (entry_firstClusterLow data i).

Definition entry_fileSize (data : list byte) (i : nat) : Z :=
  le32 (nth (40 * i + 36) data x00) (nth (40 * i + 37) data x00)
       (nth (40 * i + 38) data x00) (nth (40 * i + 39) data x00).

(** [data] with [bs] stored from index [p] on *)
Definition write_at (data : list byte) (p : nat) (bs : list byte) : list byte :=
  take p data ++ bs ++ drop (p + length bs) data.

(** the cluster after the assignments of createDirectory to record [t] *)
Definition fill_record (data : list byte) (t : nat) (dirName : list byte)
    (cur : Z) : list byte :=
  let d1 := write_at data (40 * t) (strncpy_bytes dirName 11) in
  let d2 := write_at d1 (40 * t + 11) [byte_of ATTR_DIRECTORY] in
  let d3 := write_at d2 (40 * t + 34) (bytes_le16 (Z.land cur 65535)) in
  let d4 := write_at d3 (40 * t + 32)
              (bytes_le16 (Z.land (Z.shiftr cur 16) 65535)) in
  write_at d4 (40 * t + 36) (bytes_le32 0).

(** * The design the specification describes

    The parts of the specified design that src/FAT.c does not contain are
    modelled here from the specification's words, so that the claims made
    about them can be stated and compared with the code. *)

Module SpecModel.

(** Modelled from the spec: the VolumeGeometry record of section 3; the
    source has no reserved-sector or FAT-count field. *)
Record VolumeGeometry := {
  vg_bytesPerSector : Z;
  vg_sectorsPerCluster : Z;
  vg_reservedSectors : Z;
  vg_numberOfFATs : Z;
  vg_sectorsPerFAT : Z;
  vg_rootCluster : Z;
  vg_totalClusters : Z;
  vg_imageSize : Z
}.

(** Modelled from the spec: the error kinds of section 7 that the modelled
    operations can report. *)
Inductive error :=
| IoError | InvalidCluster | CyclicChain | FreeCluster | BadCluster.

Inductive result (A : Type) := Ok (a : A) | Err (e : error).
Arguments Ok {A} a.
Arguments Err {A} e.

(** Modelled from the spec: a ClusterRef is valid only in
    [2, 2 + totalClusters). *)
Definition valid (g : VolumeGeometry) (c : Z) : bool :=
  (2 <=? c) && (c <? vg_totalClusters g + 2).

(** Modelled from the spec: dataRegionStart, section 4.2. *)
Definition dataRegionStart (g : VolumeGeometry) : Z :=
  (vg_reservedSectors g + vg_numberOfFATs g * vg_sectorsPerFAT g)
  * vg_bytesPerSector g.

(** Modelled from the spec: clusterToOffset, section 4.2. *)
Definition clusterToOffset (g : VolumeGeometry) (cluster : Z) : result Z :=
  if valid g cluster then
    Ok (dataRegionStart g
        + (cluster - 2) * vg_bytesPerSector g * vg_sectorsPerCluster g)
  else Err InvalidCluster.

(** Modelled from the spec: the total-clusters computation of section 4.1,
    the clusters of the whole image minus those taken by the reserved
    sectors and the FAT copies. *)
Definition totalClusters_of (imageSize bps spc reserved nfats spf : Z) : Z :=
  imageSize / (bps * spc) - (reserved + nfats * spf) / spc.

(** Modelled from the spec: the reserved-sector count and the number of
    FATs "taken from the boot sector"; the specification names the two
    fields without their offsets, which are those of the BIOS parameter
    block (14 and 16); the source reads neither. *)
Definition reservedSectors_field (bootSector : list byte) : Z :=
  le16 (nth 14 bootSector x00) (nth 15 bootSector x00).
Definition numberOfFATs_field (bootSector : list byte) : Z :=
  byte_val (nth 16 bootSector x00).

(** Modelled from the spec: the start of the FAT region, immediately after
    the reserved sectors (section 6). *)
Definition fatRegionStart (g : VolumeGeometry) : Z :=
  vg_reservedSectors g * vg_bytesPerSector g.

(** Modelled from the spec: the read of the four bytes of a FAT entry,
    little-endian; [None] when they lie outside the image. *)
Definition read32 (image : list byte) (off : Z) : option Z :=
  match file_slice image off 4 with
  | [b0; b1; b2; b3] => Some (le32 b0 b1 b2 b3)
  | _ => None
  end.

(** Modelled from the spec: what nextCluster returns, section 4.3. *)
Inductive fat_step := Next (c : Z) | EndOfChain | Free | Bad.

(** Modelled from the spec: the classification of a FatEntry, section 3;
    a value that is none of free, bad, end-of-chain or a cluster in range
    (the reserved value 1 among them) is an invalid reference. *)
Definition classify (g : VolumeGeometry) (entry : Z) : result fat_step :=
  let v := Z.land entry 268435455 in
  if v =? 0 then Ok Free
  else if v =? 268435447 then Ok Bad
  else if 268435448 <=? v then Ok EndOfChain
  else if valid g v then Ok (Next v)
  else Err InvalidCluster.

(** Modelled from the spec: nextCluster, section 4.3; the source reads no
    FAT entry anywhere. *)
Definition nextCluster (g : VolumeGeometry) (image : list byte) (cluster : Z)
    : result fat_step :=
  if valid g cluster then
    match read32 image (fatRegionStart g + cluster * 4) with
    | Some entry => classify g entry
    | None => Err IoError
    end
  else Err InvalidCluster.

(** Modelled from the spec: the traversal of collectChain with its visited
    set.  The sequence it yields is the list, the way it ends the second
    component: [None] after EndOfChain, otherwise the failure.  The outer
    [option] is [None] only if the traversal is cut off by [fuel]. *)
Fixpoint collect (g : VolumeGeometry) (image : list byte) (fuel : nat)
    (visited : gset Z) (cluster : Z) : option (list Z * option error) :=
  match fuel with
  | O => None
  | S fuel' =>
      if bool_decide (cluster ∈ visited) then Some ([], Some CyclicChain)
      else
        match nextCluster g image cluster with
        | Err e => Some ([], Some e)
        | Ok EndOfChain => Some ([cluster], None)
        | Ok Free => Some ([cluster], Some FreeCluster)
        | Ok Bad => Some ([cluster], Some BadCluster)
        | Ok (Next c') =>
            match collect g image fuel' ({[cluster]} ∪ visited) c' with
            | Some (l, e) => Some (cluster :: l, e)
            | None => None
            end
        end
  end.

(** Modelled from the spec: collectChain, section 4.3; the visited set holds
    valid clusters only, so that [totalClusters + 1] steps are enough. *)
Definition collectChain (g : VolumeGeometry) (image : list byte)
    (startCluster : Z) : option (list Z * option error) :=
  collect g image (S (Z.to_nat (vg_totalClusters g))) ∅ startCluster.

(** Modelled from the spec: the chain of a start cluster, "of length n"
    in section 8: the clusters linked by nextCluster up to EndOfChain. *)
Inductive chain (g : VolumeGeometry) (image : list byte) : Z -> list Z -> Prop :=
| chain_end c :
    nextCluster g image c = Ok EndOfChain -> chain g image c [c]
| chain_next c c' l :
    nextCluster g image c = Ok (Next c') -> chain g image c' l ->
    chain g image c (c :: l).

(** Modelled from the spec: the cluster reached from [c] after [k] links
    of the FAT. *)
Fixpoint walk (g : VolumeGeometry) (image : list byte) (k : nat) (c : Z)
    : option Z :=
  match k with
  | O => Some c
  | S k' =>
      match nextCluster g image c with
      | Ok (Next c') => walk g image k' c'
      | _ => None
      end
  end.

(** Modelled from the spec: "a cluster repeats" on the way from [start],
    the cyclic FAT of section 8. *)
Definition repeats (g : VolumeGeometry) (image : list byte) (start : Z) : Prop :=
  exists (i j : nat) (c : Z),
    (i < j)%nat /\ walk g image i start = Some c /\ walk g image j start = Some c.

(** Modelled from the spec: decodeEntries, section 4.4, on the 32-byte
    records of a cluster; the names of the live entries, and whether the
    end marker was met. *)
Fixpoint decode_records (records : list (list byte)) : list (list byte) * bool :=
  match records with
  | [] => ([], false)
  | r :: rest =>
      match r with
      | [] => ([], true)
      | b :: _ =>
          if Byte.eqb b x00 then ([], true)
          else
            let '(names, fin) := decode_records rest in
            if Byte.eqb b xe5 then (names, fin) else (take 11 r :: names, fin)
      end
  end.

(** Modelled from the spec: a cluster as a sequence of fixed 32-byte
    records. *)
Fixpoint chunks (n : nat) (size : nat) (l : list byte) : list (list byte) :=
  match n with
  | O => []
  | S n' => take size l :: chunks n' size (drop size l)
  end.

(** Modelled from the spec: decodeEntries on the bytes of one cluster. *)
Definition decodeEntries (clusterBytes : list byte) : list (list byte) * bool :=
  decode_records (chunks (length clusterBytes / 32) 32 clusterBytes).

(** Modelled from the spec: the size of a cluster in bytes. *)
Definition clusterSize (g : VolumeGeometry) : Z :=
  vg_bytesPerSector g * vg_sectorsPerCluster g.

(** Modelled from the spec: the entries of the clusters of a chain, in
    chain order, up to the end marker (list() of section 4.5). *)
Fixpoint list_chain (g : VolumeGeometry) (image : list byte) (cs : list Z)
    : list (list byte) :=
  match cs with
  | [] => []
  | c :: cs' =>
      match clusterToOffset g c with
      | Ok off =>
          let '(names, fin) := decodeEntries (file_slice image off (clusterSize g)) in
          if fin then names else names ++ list_chain g image cs'
      | Err _ => []
      end
  end.

(** Modelled from the spec: list() of section 4.5, the names it yields *)
Definition list_names (g : VolumeGeometry) (image : list byte) (current : Z)
    : option (list (list byte)) :=
  match collectChain g image current with
  | Some (cs, None) =>
      Some (bytes_of_string "." :: bytes_of_string ".." :: list_chain g image cs)
  | _ => None
  end.

(** Modelled from the spec: the upper-casing of a lowercase letter. *)
Definition upper (b : byte) : byte :=
  let v := byte_val b in
  if (97 <=? v) && (v <=? 122) then byte_of (v - 32) else b.

(** Modelled from the spec: a character legal in an 8.3 name, neither a
    space nor a control character. *)
Definition legal (b : byte) : bool :=
  let v := byte_val b in (32 <? v) && negb (v =? 127).

(** Modelled from the spec: the base name, before the first dot. *)
Fixpoint before_dot (l : list byte) : list byte :=
  match l with
  | [] => []
  | b :: l' => if Byte.eqb b "."%byte then [] else b :: before_dot l'
  end.

(** Modelled from the spec: the extension, after the first dot. *)
Fixpoint after_dot (l : list byte) : list byte :=
  match l with
  | [] => []
  | b :: l' => if Byte.eqb b "."%byte then l' else after_dot l'
  end.

(** Modelled from the spec: padding with spaces to [n] characters. *)
Definition space_pad (n : nat) (l : list byte) : list byte :=
  l ++ replicate (n - length l) " "%byte.

(** Modelled from the spec: formatShortName, section 4.4; the source has
    no such function.  The name is split at its first dot; a base of 1 to 8
    and an extension of at most 3 characters are accepted, spaces and
    control characters rejected, lowercase letters upper-cased, both parts
    padded with spaces. *)
Definition formatShortName (rawName : list byte) : option (list byte) :=
  let base := before_dot rawName in
  let ext := after_dot rawName in
  if (1 <=? length base)%nat && (length base <=? 8)%nat
     && (length ext <=? 3)%nat && forallb legal (base ++ ext)
  then Some (space_pad 8 (map upper base) ++ space_pad 3 (map upper ext))
  else None.

End SpecModel.

(** * Concrete volumes *)

Module Examples.

(** the largest file offset of an ext4 file system with blocks of 4096
    bytes: 2^44 - 4096 *)
Definition ext4_max_offset : Z := 17592186040320.

(** the snprintf of glibc puts a NUL at the start of the destination
    before it reads its arguments: the old path, read from the destination,
    is empty by then, and the result is "/" and the name, cut to the 511
    characters the array holds *)
Definition snprintf_emptied (old name : list byte) : option (list byte) :=
  Some (take 511 (bytes_of_string "/" ++ name)).

(** a host with signed plain [char] on which [malloc] succeeds *)
Definition pf_signed : platform :=
  {| char_signed := true; malloc_fails := fun _ => false;
     max_offset := ext4_max_offset; snprintf_self := snprintf_emptied |}.

(** a host with unsigned plain [char] on which [malloc] succeeds *)
Definition pf_unsigned : platform :=
  {| char_signed := false; malloc_fails := fun _ => false;
     max_offset := ext4_max_offset; snprintf_self := snprintf_emptied |}.

(** a boot sector: bytes-per-sector at 11, sectors-per-cluster at 13,
    reserved sectors at 14, number of FATs at 16, sectors-per-FAT at 36,
    root cluster at 44 *)
Definition boot_sector (bps spc reserved nfats spf root : Z) : list byte :=
  pad 512 (replicate 11 x00 ++ bytes_le16 bps ++ [byte_of spc]
           ++ bytes_le16 reserved ++ [byte_of nfats]
           ++ replicate 19 x00 ++ bytes_le32 spf
           ++ replicate 4 x00 ++ bytes_le32 root).

(** a FAT: one little-endian 32-bit entry per cluster number *)
Definition fat_table (entries : list Z) : list byte :=
  concat (map bytes_le32 entries).

(** a directory record in the on-disk format of FAT32 (32 bytes) *)
Definition disk_entry (name : string) (attr cluster : Z) : list byte :=
  pad 11 (bytes_of_string name) ++ [byte_of attr] ++ replicate 8 x00
  ++ bytes_le16 (cluster / 65536) ++ replicate 4 x00
  ++ bytes_le16 cluster ++ bytes_le32 0.

(** ** Volume A: 512-byte sectors, two reserved sectors, one FAT

    sector 0 boot sector, sector 1 reserved, sector 2 the FAT, sectors 3
    and 4 the clusters 2 and 3; cluster 2 is the (empty) root directory. *)
Definition imageA : list byte :=
  boot_sector 512 1 2 1 1 2
  ++ pad 512 []
  ++ pad 512 (fat_table [268435448; 268435455; 268435455; 0])
  ++ pad 512 []
  ++ pad 512 [].

Definition geometryA : SpecModel.VolumeGeometry :=
  {| SpecModel.vg_bytesPerSector := 512;
     SpecModel.vg_sectorsPerCluster := 1;
     SpecModel.vg_reservedSectors := 2;
     SpecModel.vg_numberOfFATs := 1;
     SpecModel.vg_sectorsPerFAT := 1;
     SpecModel.vg_rootCluster := 2;
     SpecModel.vg_totalClusters := 2;
     SpecModel.vg_imageSize := 2560 |}.

(** the geometry record the source computes for volume A *)
Definition bsiA : BootSectorInfo :=
  {| bytesPerSector := 512; sectorsPerCluster := 1; rootCluster := 2;
     totalClusters := 5; sectorsPerFAT := 1; sizeOfImage := 2560 |}.

(** a world in which [image] is the file "fat32.img", open on descriptor 3 *)
Definition world_with (image : list byte) (m : open_mode) : world :=
  {| w_files := {[ "fat32.img"%string := image ]};
     w_fds := {[ 3 := {| fd_path := "fat32.img"; fd_pos := 0; fd_mode := m |} ]};
     w_trace := [] |}.

(** a world in which [image] is the file "fat32.img" and nothing is open *)
Definition world_closed (image : list byte) : world :=
  {| w_files := {[ "fat32.img"%string := image ]}; w_fds := ∅; w_trace := [] |}.

Definition root_context : DirectoryContext :=
  {| currentCluster := 2;
     path := bytes_of_string "/";
     imageName := bytes_of_string "fat32.img" |}.

(** ** Volume B: a directory of two clusters

    32-byte sectors and clusters, so a cluster holds one record; 16 reserved
    sectors, one FAT of three sectors, data from sector 19 on.  The root
    directory is the chain 19 -> 20: cluster 19 (sector 36) holds FIRST,
    cluster 20 (sector 37) holds SECOND.  The root cluster number equals the
    first data sector, so that the translation of the source and that of
    the specification agree on this volume. *)
Definition fatB : list Z :=
  [268435448; 268435455] ++ replicate 17 0 ++ [20; 268435455] ++ replicate 3 0.

Definition imageB : list byte :=
  boot_sector 32 1 16 1 3 19
  ++ fat_table fatB
  ++ pad (17 * 32) []
  ++ disk_entry "FIRST      " 16 21
  ++ disk_entry "SECOND     " 16 22.

Definition geometryB : SpecModel.VolumeGeometry :=
  {| SpecModel.vg_bytesPerSector := 32;
     SpecModel.vg_sectorsPerCluster := 1;
     SpecModel.vg_reservedSectors := 16;
     SpecModel.vg_numberOfFATs := 1;
     SpecModel.vg_sectorsPerFAT := 3;
     SpecModel.vg_rootCluster := 19;
     SpecModel.vg_totalClusters := 19;
     SpecModel.vg_imageSize := 1216 |}.

(** volume B with a corrupt FAT: cluster 20 links back to cluster 19 *)
Definition fatB_cyclic : list Z :=
  [268435448; 268435455] ++ replicate 17 0 ++ [20; 19] ++ replicate 3 0.

Definition imageB_cyclic : list byte :=
  boot_sector 32 1 16 1 3 19
  ++ fat_table fatB_cyclic
  ++ pad (17 * 32) []
  ++ disk_entry "FIRST      " 16 21
  ++ disk_entry "SECOND     " 16 22.

Definition bsiB : BootSectorInfo :=
  {| bytesPerSector := 32; sectorsPerCluster := 1; rootCluster := 19;
     totalClusters := 38; sectorsPerFAT := 3; sizeOfImage := 1216 |}.

Definition contextB : DirectoryContext :=
  {| currentCluster := 19;
     path := bytes_of_string "/";
     imageName := bytes_of_string "fat32.img" |}.

(** ** Volume C: a subdirectory as the structure of the source lays it out

    512-byte sectors and clusters, root cluster 2.  Sector 7 (where the
    source places cluster 7) holds the records of a subdirectory whose
    parent is cluster 5: ".", "..", one file, then the end marker. *)
Definition dirC : list byte :=
  struct_entry (bytes_of_string ".          ") 16 7 0
  ++ struct_entry (bytes_of_string "..         ") 16 5 0
  ++ struct_entry (bytes_of_string "NOTES   TXT") 32 9 120.

Definition imageC : list byte :=
  boot_sector 512 1 2 1 1 2 ++ pad (6 * 512) [] ++ pad 512 dirC ++ pad 512 [].

Definition bsiC : BootSectorInfo :=
  {| bytesPerSector := 512; sectorsPerCluster := 1; rootCluster := 2;
     totalClusters := 9; sectorsPerFAT := 1; sizeOfImage := 4608 |}.

Definition contextC : DirectoryContext :=
  {| currentCluster := 7;
     path := bytes_of_string "/SUB";
     imageName := bytes_of_string "fat32.img" |}.

(** ** Volume D: the same subdirectory in the on-disk format of FAT32

    as volume C, but the records of sector 7 are the 32-byte records of a
    FAT32 directory: ".", "..", then the end marker. *)
Definition dirD : list byte :=
  disk_entry ".          " 16 7 ++ disk_entry "..         " 16 5.

Definition imageD : list byte :=
  boot_sector 512 1 2 1 1 2 ++ pad (6 * 512) [] ++ pad 512 dirD ++ pad 512 [].

(** ** Volume E: a directory with a deleted record

    as volume C, with the records KEEP, a deleted record (first name byte
    0xE5) and LAST in sector 7. *)
Definition dirE : list byte :=
  struct_entry (bytes_of_string "KEEP       ") 32 9 10
  ++ struct_entry (xe5 :: bytes_of_string "ONE    TXT") 32 10 20
  ++ struct_entry (bytes_of_string "LAST       ") 32 11 30.

Definition imageE : list byte :=
  boot_sector 512 1 2 1 1 2 ++ pad (6 * 512) [] ++ pad 512 dirE ++ pad 512 [].

(** ** Volume F: a cluster without end marker

    as volume C, with sector 7 holding 512 bytes "A": no byte of the cluster
    is zero. *)
Definition dirF : list byte := replicate 512 "A"%byte.

Definition imageF : list byte :=
  boot_sector 512 1 2 1 1 2 ++ pad (6 * 512) [] ++ dirF ++ pad 512 [].

(** ** Volume G: a subdirectory with a child directory

    as volume C, with the records ".", "..", the directory DOCS (cluster
    9) and the file NOTES.TXT in sector 7. *)
Definition dirG : list byte :=
  struct_entry (bytes_of_string ".          ") 16 7 0
  ++ struct_entry (bytes_of_string "..         ") 16 5 0
  ++ struct_entry (bytes_of_string "DOCS       ") 16 9 0
  ++ struct_entry (bytes_of_string "NOTES   TXT") 32 10 120.

Definition imageG : list byte :=
  boot_sector 512 1 2 1 1 2 ++ pad (6 * 512) [] ++ pad 512 dirG ++ pad 512 [].

(** ** Geometry records for the cluster translation *)

(** 128 sectors of 512 bytes per cluster, 2^25 + 1 clusters *)
Definition bsi_large : BootSectorInfo :=
  {| bytesPerSector := 512; sectorsPerCluster := 128; rootCluster := 2;
     totalClusters := 33554433; sectorsPerFAT := 262145;
     sizeOfImage := 2199023321088 |}.

(** a geometry record that puts cluster 2 at byte 2^46, beyond what the
    file system of the example hosts accepts *)
Definition bsi_far : BootSectorInfo :=
  {| bytesPerSector := 32768; sectorsPerCluster := 1; rootCluster := 2147483648;
     totalClusters := 10; sectorsPerFAT := 1; sizeOfImage := 2560 |}.

(** a boot sector whose bytes-per-sector field is zero *)
Definition bsi_zero : BootSectorInfo :=
  {| bytesPerSector := 0; sectorsPerCluster := 1; rootCluster := 2;
     totalClusters := 10; sectorsPerFAT := 1; sizeOfImage := 5120 |}.

End Examples.

(** * Predicates used in the statements *)

(** the cluster numbers of the data region *)
Definition valid_cluster (bsi : BootSectorInfo) (c : Z) : Prop :=
  2 <= c < totalClusters bsi + 2.

(** a computation keeps an invariant of the world, also when it stops at
    undefined behaviour *)
Definition keeps (I : world -> Prop) {A} (m : M A) : Prop :=
  forall w, I w -> I (final_world (m w)).

(** What a system call on descriptor [fd] looks like when its arguments come
    from the geometry record [bsi] and the directory cluster [cluster]: a
    seek goes to the offset of the cluster or to the write-back offset, a
    read asks for one cluster, a write is refused. *)
Definition geometry_event (bsi : BootSectorInfo) (cluster fd : Z) (e : event) : Prop :=
  match e with
  | EvSeek f off _ =>
      f = fd ->
      off = cluster_offset bsi cluster \/
      off = u32 (u32 (cluster * bytesPerSector bsi) * sectorsPerCluster bsi)
  | EvRead f n _ => f = fd -> n = cluster_bytes bsi
  | EvWrite f _ r => f = fd -> r = -1
  | _ => True
  end.

(** the invariant of the command loop: the files are those at the start,
    the descriptor of the image is open read-only, and the trace has grown
    by events of the shape above *)
Definition session_inv (bsi : BootSectorInfo) (cluster fd : Z)
    (F : gmap string (list byte)) (T : list event) (w : world) : Prop :=
  w_files w = F /\
  (exists d, w_fds w !! fd = Some d /\ fd_mode d = O_RDONLY) /\
  exists evs, w_trace w = T ++ evs /\ Forall (geometry_event bsi cluster fd) evs.

(** the same without the descriptor, for the code before [open] and after
    [close] *)
Definition session_inv0 (bsi : BootSectorInfo) (cluster fd : Z)
    (F : gmap string (list byte)) (T : list event) (w : world) : Prop :=
  w_files w = F /\
  exists evs, w_trace w = T ++ evs /\ Forall (geometry_event bsi cluster fd) evs.

(** the offsets of the seeks made on descriptor [fd], in order *)
Definition seek_offsets (fd : Z) (t : list event) : list Z :=
  omap (fun e => match e with
                 | EvSeek f off _ => if f =? fd then Some off else None
                 | _ => None
                 end) t.

Definition returned {A} (o : outcome A) : option A :=
  match o with Ret a _ => Some a | Undefined _ => None end.

(** C1 as the specification states it, for one cluster number: the read
    seeks to the offset of the specified translation, or fails where that
    translation reports InvalidCluster. *)
Definition reads_as_specified (pf : platform) (g : SpecModel.VolumeGeometry)
    (bsi : BootSectorInfo) (fd : Z) (w : world) (c : Z) : Prop :=
  let o := readCluster pf fd c (malloc (cluster_bytes bsi)) bsi w in
  match SpecModel.clusterToOffset g c with
  | SpecModel.Ok off =>
      seek_offsets fd (w_trace (final_world o)) = seek_offsets fd (w_trace w) ++ [off]
  | SpecModel.Err _ => fst <$> returned o = Some false
  end.

(** C4 as the specification states it: the total-clusters field is the
    cluster count of the image minus the clusters of the reserved sectors
    and FAT copies that the boot sector declares. *)
Definition total_as_specified (bootSector : list byte) (st_size : Z) : Prop :=
  exists info,
    bootSectorInfo_of bootSector st_size = Some info /\
    totalClusters info =
      SpecModel.totalClusters_of st_size
        (bytesPerSector info) (sectorsPerCluster info)
        (SpecModel.reservedSectors_field bootSector)
        (SpecModel.numberOfFATs_field bootSector)
        (sectorsPerFAT info).

(** two boot sectors with the same bytes-per-sector and sectors-per-cluster
    fields *)
Definition same_cluster_size (bs bs' : list byte) : Prop :=
  nth 11 bs x00 = nth 11 bs' x00 /\ nth 12 bs x00 = nth 12 bs' x00 /\
  nth 13 bs x00 = nth 13 bs' x00.

(** the set of valid cluster numbers of a specified geometry *)
Definition valid_set (g : SpecModel.VolumeGeometry) : gset Z :=
  list_to_set (seqZ 2 (SpecModel.vg_totalClusters g)).

(** the world after more events *)
Definition add_trace (w : world) (evs : list event) : world :=
  {| w_files := w_files w; w_fds := w_fds w; w_trace := w_trace w ++ evs |}.

(** The cluster as the loops of the source see it: an array of [DirEntry]
    structures, record [i] starting at byte [40 * i]; its name is the first
    11 bytes. *)
Definition record_name (data : list byte) (i : nat) : list byte :=
  take 11 (drop (40 * i) data).

Definition records (data : list byte) (count : nat) : list (list byte) :=
  map (record_name data) (seq 0 count).

(** the test [name[0] == 0xE5] of the source on a record *)
Definition deleted (pf : platform) (r : list byte) : bool :=
  match r with
  | b :: _ => name0_is pf b 229
  | [] => false
  end.

(** the line [printf("%.11s\n", entry->name)] prints *)
Definition name_line (r : list byte) : event :=
  EvStdout (string_of_bytes (c_str r) ++ nl).

(** everything written to the standard output, in order *)
Definition stdout_of (t : list event) : string :=
  String.concat "" (omap (fun e => match e with
                                   | EvStdout s => Some s
                                   | _ => None
                                   end) t).

(** C2 as the specification states it: what listDirectory prints is the
    sequence of names that the specified list() yields. *)
Definition lists_as_specified (pf : platform) (g : SpecModel.VolumeGeometry)
    (image : list byte) (fd : Z) (context : DirectoryContext)
    (bsi : BootSectorInfo) (w : world) : Prop :=
  exists names,
    SpecModel.list_names g image (currentCluster context) = Some names /\
    stdout_of (w_trace (final_world (listDirectory pf fd context bsi w))) =
    (stdout_of (w_trace w)
     ++ String.concat "" (map (fun nm => string_of_bytes nm ++ nl) names))%string.

(** the test of createDirectory for a free record *)
Definition free_slot (pf : platform) (b : byte) : bool :=
  name0_is pf b 0 || name0_is pf b 229.

(** C3 as the specification states it, for the record [slot] of the current
    directory and the image after the call: the record names a cluster
    other than the current directory's, and that cluster holds the two
    bootstrap entries and zeros. *)
Definition creates_as_specified (pf : platform) (fd : Z) (name : list byte)
    (context : DirectoryContext) (bsi : BootSectorInfo) (w : world)
    (file : string) (slot : nat) (root : Z) : Prop :=
  exists w' image' fresh,
    createDirectory pf fd (Some name) context bsi w = Ret tt w' /\
    w_files w' !! file = Some image' /\
    fresh <> currentCluster context /\
    let n := cluster_bytes bsi in
    let dir := file_slice image' (cluster_offset bsi (currentCluster context)) n in
    SpecModel.formatShortName name = Some (record_name dir slot) /\
    Z.land (entry_attr dir slot) ATTR_DIRECTORY = ATTR_DIRECTORY /\
    entry_firstCluster dir slot = fresh /\
    entry_fileSize dir slot = 0 /\
    file_slice image' (cluster_offset bsi fresh) n =
      pad (Z.to_nat n)
        (struct_entry (bytes_of_string ".          ") ATTR_DIRECTORY fresh 0
         ++ struct_entry (bytes_of_string "..         ") ATTR_DIRECTORY
              (if currentCluster context =? root then 0 else currentCluster context) 0).

(** * The records as changeDirectory judges them *)

(** [strncmp(name, s2, n) == 0] on the bytes [a] of a name and the C string
    [s2] *)
Fixpoint strncmp_bytes (a s2 : list byte) (n : nat) : bool :=
  match n with
  | O => true
  | S n' =>
      match a with
      | [] => false
      | c1 :: a' =>
          if Byte.eqb c1 (hd x00 s2) then
            if is_nul c1 then true else strncmp_bytes a' (tl s2) n'
          else false
      end
  end.

(** [entry->attr & ATTR_DIRECTORY] of record [j] *)
Definition is_directory (data : list byte) (j : nat) : bool :=
  negb (Z.land (entry_attr data j) ATTR_DIRECTORY =? 0).

(** record [j] is one on which the first branch of the loop sets [found]:
    the name asked for is ".." and the record is the padded ".." *)
Definition marks (pf : platform) (data dirName : list byte) (j : nat) : bool :=
  negb (deleted pf (record_name data j))
  && strcmp_eq dirName (bytes_of_string "..")
  && strncmp_bytes (record_name data j) dotdot_padded 11.

(** record [j] is one the second branch of the loop enters: a directory
    whose name compares equal to the name asked for *)
Definition enters (pf : platform) (data dirName : list byte) (j : nat) : bool :=
  negb (deleted pf (record_name data j))
  && negb (marks pf data dirName j)
  && is_directory data j
  && strncmp_bytes (record_name data j) dirName 11.

(** the context after the loop entered record [t] and the platform's
    snprintf left [path'] in the path *)
Definition entered (context : DirectoryContext) (data : list byte)
    (t : nat) (path' : list byte) : DirectoryContext :=
  {| currentCluster := entry_firstCluster data t;
     path := path';
     imageName := imageName context |}.

(** a computation keeps an invariant of the world whenever it returns *)
Definition keeps_on_return (I : world -> Prop) {A} (m : M A) : Prop :=
  forall w a w', I w -> m w = Ret a w' -> I w'.

(** the descriptor table is [fds] with the descriptor of the image added *)
Definition image_open (fd : Z) (fds : gmap Z fdesc) (w : world) : Prop :=
  exists d, w_fds w = <[fd := d]> fds.
(** * Arithmetic of the cluster translation *)

Lemma cluster_sector_mod bsi c :
  cluster_sector bsi c = ((c - 2) * sectorsPerCluster bsi + rootCluster bsi) mod 2^32.
Proof.
  unfold cluster_sector, u32.
  rewrite Z.mul_mod_idemp_l by lia.
  rewrite Z.add_mod_idemp_l by lia.
  reflexivity.
Qed.

Lemma cluster_sector_range bsi c : 0 <= cluster_sector bsi c < 2^32.
Proof. rewrite cluster_sector_mod. apply Z.mod_pos_bound. lia. Qed.

Lemma cluster_offset_eq bsi c :
  0 <= bytesPerSector bsi < 2^16 ->
  cluster_offset bsi c = cluster_sector bsi c * bytesPerSector bsi.
Proof.
  intros Hb. pose proof (cluster_sector_range bsi c) as Hs.
  assert (0 <= cluster_sector bsi c * bytesPerSector bsi < 2^48) by nia.
  unfold cluster_offset, to_off_t, u64.
  rewrite Z.mod_mod by lia.
  rewrite Z.mod_small by lia.
  destruct (Z.ltb_spec (cluster_sector bsi c * bytesPerSector bsi) (2^63)); lia.
Qed.

Lemma cluster_offset_nonneg bsi c :
  0 <= bytesPerSector bsi < 2^16 -> 0 <= cluster_offset bsi c.
Proof.
  intros Hb. rewrite cluster_offset_eq by done.
  pose proof (cluster_sector_range bsi c). nia.
Qed.

Lemma cluster_offset_linear bsi c :
  bsi_in_range bsi -> 2 <= c ->
  (c - 2) * sectorsPerCluster bsi + rootCluster bsi < 2^32 ->
  cluster_offset bsi c =
    rootCluster bsi * bytesPerSector bsi
    + (c - 2) * bytesPerSector bsi * sectorsPerCluster bsi.
Proof.
  intros (Hb & Hs & Hr & _) Hc Hlt.
  rewrite cluster_offset_eq by done.
  rewrite cluster_sector_mod, Z.mod_small by nia.
  ring.
Qed.

(** * Reasoning about computations *)

Lemma bind_Ret {A B} (m : M A) (k : A -> M B) w a w' :
  m w = Ret a w' -> (m ≫= k) w = k a w'.
Proof. intros H. unfold mbind, M_bind, bind. by rewrite H. Qed.

Lemma bind_Undefined {A B} (m : M A) (k : A -> M B) w w' :
  m w = Undefined w' -> (m ≫= k) w = Undefined w'.
Proof. intros H. unfold mbind, M_bind, bind. by rewrite H. Qed.

Lemma keeps_ret I {A} (a : A) : keeps I (mret a).
Proof. intros w Hw. exact Hw. Qed.

Lemma keeps_undefined I {A} : keeps I (@undefined A).
Proof. intros w Hw. exact Hw. Qed.

Lemma keeps_bind I {A B} (m : M A) (k : A -> M B) :
  keeps I m -> (forall a, keeps I (k a)) -> keeps I (m ≫= k).
Proof.
  intros Hm Hk w Hw. specialize (Hm w Hw).
  unfold mbind, M_bind, bind. destruct (m w) as [a w'|w']; simpl in *.
  - by apply Hk.
  - done.
Qed.

Lemma keeps_load I buf i : keeps I (load buf i).
Proof.
  intros w Hw. unfold load.
  destruct (0 <=? i); [|done].
  destruct (buf !! Z.to_nat i) as [[b|]|]; done.
Qed.

Lemma keeps_store I buf i b : keeps I (store buf i b).
Proof.
  intros w Hw. unfold store.
  destruct ((0 <=? i) && (i <? Z.of_nat (length buf))); done.
Qed.

Lemma keeps_store_bytes I bs : forall buf i, keeps I (store_bytes buf i bs).
Proof.
  induction bs as [|b bs IH]; intros buf i; simpl.
  - apply keeps_ret.
  - apply keeps_bind; [apply keeps_store|]. intros buf'. apply IH.
Qed.

Lemma keeps_load16 I buf i : keeps I (load16 buf i).
Proof.
  unfold load16. apply keeps_bind; [apply keeps_load|]. intros b0.
  apply keeps_bind; [apply keeps_load|]. intros b1. apply keeps_ret.
Qed.

Lemma keeps_read_str I buf n : forall i, keeps I (read_str buf i n).
Proof.
  induction n as [|n IH]; intros i; simpl.
  - apply keeps_ret.
  - apply keeps_bind; [apply keeps_load|]. intros c.
    destruct (is_nul c); [apply keeps_ret|].
    apply keeps_bind; [apply IH|]. intros rest. apply keeps_ret.
Qed.

Lemma keeps_strncmp_eq I buf n : forall i s2, keeps I (strncmp_eq buf i s2 n).
Proof.
  induction n as [|n IH]; intros i s2; simpl.
  - apply keeps_ret.
  - apply keeps_bind; [apply keeps_load|]. intros c.
    destruct (Byte.eqb c (hd x00 s2)); [|apply keeps_ret].
    destruct (is_nul c); [apply keeps_ret|apply IH].
Qed.

(** * The invariant of a session *)

Lemma keeps_bind_post I {A B} (Q : A -> Prop) (m : M A) (k : A -> M B) :
  (forall w, I w -> match m w with
                    | Ret a w' => I w' /\ Q a
                    | Undefined w' => I w'
                    end) ->
  (forall a, Q a -> keeps I (k a)) -> keeps I (m ≫= k).
Proof.
  intros Hm Hk w Hw. specialize (Hm w Hw).
  unfold mbind, M_bind, bind. destruct (m w) as [a w'|w']; simpl in *.
  - destruct Hm as [Hw' Ha]. by apply Hk.
  - done.
Qed.

Lemma lowest_free_fresh (fds : gmap Z fdesc) : fds !! lowest_free fds = None.
Proof.
  unfold lowest_free.
  destruct (List.find _ _) as [n|] eqn:Hfind.
  - apply List.find_some in Hfind as [_ Hn]. by apply bool_decide_eq_true in Hn.
  - (* some number among size + 1 candidates is free *)
    exfalso.
    assert (Hall : forall n, n ∈ seqZ 3 (Z.of_nat (size fds) + 1) -> n ∈ dom fds).
    { intros n Hn. apply list_elem_of_In in Hn.
      pose proof (List.find_none _ _ Hfind n Hn) as Hb. simpl in Hb.
      apply bool_decide_eq_false in Hb. apply elem_of_dom.
      destruct (fds !! n); [eauto|done]. }
    assert (Hsub : list_to_set (C := gset Z) (seqZ 3 (Z.of_nat (size fds) + 1)) ⊆ dom fds).
    { intros n Hn. apply elem_of_list_to_set in Hn. by apply Hall. }
    apply subseteq_size in Hsub.
    rewrite size_list_to_set in Hsub by apply NoDup_seqZ.
    rewrite length_seqZ, size_dom in Hsub. lia.
Qed.

Section Session.

Variables (bsi : BootSectorInfo) (cluster fd : Z).
Variables (F : gmap string (list byte)) (T : list event).

Local Notation "'Inv'" := (session_inv bsi cluster fd F T) (only parsing).
Local Notation "'ok_event'" := (geometry_event bsi cluster fd) (only parsing).

Lemma inv_log e w : Inv w -> ok_event e -> Inv (log e w).
Proof.
  intros (HF & Hfd & evs & HT & Hok) He. split; [done|]. split; [done|].
  exists (evs ++ [e]). simpl. rewrite HT, app_assoc. split; [done|].
  apply Forall_app. split; [done|]. by constructor.
Qed.

Lemma inv_update_trace w fds' :
  Inv w ->
  (exists d, fds' !! fd = Some d /\ fd_mode d = O_RDONLY) ->
  Inv {| w_files := w_files w; w_fds := fds'; w_trace := w_trace w |}.
Proof. intros (HF & _ & Hev) Hfd. by split. Qed.

Lemma keeps_printf s : keeps Inv (printf s).
Proof. intros w Hw. by apply inv_log. Qed.

Lemma keeps_perror s : keeps Inv (perror s).
Proof. intros w Hw. by apply inv_log. Qed.

Lemma keeps_lseek pf f off :
  (f = fd -> off = cluster_offset bsi cluster \/
             off = u32 (u32 (cluster * bytesPerSector bsi) * sectorsPerCluster bsi)) ->
  keeps Inv (sys_lseek pf f off).
Proof.
  intros Hoff w Hw. unfold sys_lseek.
  destruct (w_fds w !! f) as [d|] eqn:Hd; [|by apply inv_log].
  destruct ((0 <=? off) && (off <=? max_offset pf)); [|by apply inv_log].
  simpl. apply inv_log; [|done]. apply inv_update_trace; [done|].
  destruct Hw as (_ & (d0 & Hd0 & Hm) & _).
  destruct (decide (f = fd)) as [->|Hne].
  - rewrite lookup_insert_eq. eexists; split; [done|]. simpl. congruence.
  - rewrite lookup_insert_ne by done. eauto.
Qed.

Lemma keeps_read f n :
  (f = fd -> n = cluster_bytes bsi) -> keeps Inv (sys_read f n).
Proof.
  intros Hn w Hw. unfold sys_read.
  destruct (w_fds w !! f) as [d|] eqn:Hd; [|by apply inv_log].
  destruct (w_files w !! fd_path d); [|by apply inv_log].
  destruct (readable (fd_mode d)); [|by apply inv_log].
  simpl. apply inv_log; [|done]. apply inv_update_trace; [done|].
  destruct Hw as (_ & (d0 & Hd0 & Hm) & _).
  destruct (decide (f = fd)) as [->|Hne].
  - rewrite lookup_insert_eq. eexists; split; [done|]. simpl. congruence.
  - rewrite lookup_insert_ne by done. eauto.
Qed.

(** a write on the descriptor of the image is refused *)
Lemma keeps_write bytes : keeps Inv (sys_write fd bytes).
Proof.
  intros w Hw. unfold sys_write.
  pose proof Hw as (_ & (d & Hd & Hm) & _). rewrite Hd.
  destruct (w_files w !! fd_path d); [|by apply inv_log].
  rewrite Hm. simpl. by apply inv_log.
Qed.

Lemma keeps_fstat f : keeps Inv (sys_fstat f).
Proof.
  intros w Hw. unfold sys_fstat.
  destruct (w_fds w !! f) as [d|]; [|done].
  destruct (w_files w !! fd_path d); done.
Qed.

Lemma keeps_close f : f <> fd -> keeps Inv (sys_close f).
Proof.
  intros Hne w Hw. unfold sys_close. apply inv_log; [|done].
  apply inv_update_trace; [done|].
  destruct Hw as (_ & (d0 & Hd0 & Hm) & _).
  rewrite lookup_delete_ne by done. eauto.
Qed.

Lemma open_post p m w :
  Inv w ->
  match sys_open p m w with
  | Ret f w' => Inv w' /\ (f < 0 \/ f <> fd)
  | Undefined w' => Inv w'
  end.
Proof.
  intros Hw. unfold sys_open.
  destruct (w_files w !! p).
  - pose proof (lowest_free_fresh (w_fds w)) as Hfree.
    pose proof Hw as (_ & (d & Hd & Hm) & _).
    assert (lowest_free (w_fds w) <> fd) by congruence.
    split; [|by right].
    apply inv_log; [|done]. apply inv_update_trace; [done|].
    rewrite lookup_insert_ne by done. eauto.
  - split; [by apply inv_log|]. left. lia.
Qed.

Lemma keeps_readCluster pf buffer :
  keeps Inv (readCluster pf fd cluster buffer bsi).
Proof.
  unfold readCluster.
  apply keeps_bind; [apply keeps_lseek; auto|]. intros r.
  destruct (r <? 0).
  - apply keeps_bind; [apply keeps_perror|]. intros _. apply keeps_ret.
  - apply keeps_bind; [apply keeps_read; auto|]. intros [k got].
    destruct (k <? 0).
    + apply keeps_bind; [apply keeps_perror|]. intros _. apply keeps_ret.
    + destruct (buf_fill buffer got); [apply keeps_ret|apply keeps_undefined].
Qed.

Lemma keeps_print_info info : keeps Inv (print_info info).
Proof.
  unfold print_info.
  repeat (apply keeps_bind; [apply keeps_printf|intros _]).
  apply keeps_printf.
Qed.

Lemma keeps_printBootSectorInfo imagePath :
  keeps Inv (printBootSectorInfo imagePath).
Proof.
  unfold printBootSectorInfo.
  apply (keeps_bind_post _ (fun f => f < 0 \/ f <> fd)); [apply open_post|].
  intros f Hf.
  destruct (Z.ltb_spec f 0) as [Hneg|Hpos]; [apply keeps_perror|].
  assert (f <> fd) by (destruct Hf; [lia|done]).
  apply keeps_bind; [apply keeps_read; done|]. intros [k bootSector].
  destruct (negb (k =? 512)).
  { apply keeps_bind; [apply keeps_perror|]. intros _. by apply keeps_close. }
  apply keeps_bind; [apply keeps_fstat|]. intros [r st_size].
  destruct (negb (r =? 0)).
  { apply keeps_bind; [apply keeps_perror|]. intros _. by apply keeps_close. }
  destruct (bootSectorInfo_of bootSector st_size) as [info|].
  - apply keeps_bind; [apply keeps_print_info|]. intros _. by apply keeps_close.
  - apply keeps_undefined.
Qed.

Lemma keeps_listDirectory_loop pf buffer k :
  forall i, keeps Inv (listDirectory_loop pf buffer k i).
Proof.
  induction k as [|k IH]; intros i; cbn [listDirectory_loop].
  - apply keeps_ret.
  - apply keeps_bind; [apply keeps_load|]. intros n0.
    destruct (name0_is pf n0 0); [apply keeps_ret|].
    destruct (name0_is pf n0 229); [apply IH|].
    apply keeps_bind; [apply keeps_read_str|]. intros name.
    apply keeps_bind; [apply keeps_printf|]. intros _. apply IH.
Qed.

Lemma keeps_listDirectory pf context :
  currentCluster context = cluster ->
  keeps Inv (listDirectory pf fd context bsi).
Proof.
  intros Hc. unfold listDirectory.
  destruct (malloc_fails pf (cluster_bytes bsi)); [apply keeps_printf|].
  rewrite Hc.
  apply keeps_bind; [apply keeps_readCluster|]. intros [ok buffer].
  destruct (negb ok); [apply keeps_ret|].
  apply keeps_bind; [apply keeps_printf|]. intros _.
  apply keeps_listDirectory_loop.
Qed.

Lemma keeps_fill_entry buffer entry name cur :
  keeps Inv (fill_entry buffer entry name cur).
Proof.
  unfold fill_entry.
  apply keeps_bind; [apply keeps_store_bytes|]. intros b1.
  apply keeps_bind; [apply keeps_store|]. intros b2.
  apply keeps_bind; [apply keeps_store_bytes|]. intros b3.
  apply keeps_bind; [apply keeps_store_bytes|]. intros b4.
  apply keeps_store_bytes.
Qed.

Lemma keeps_createDirectory_loop pf buffer dirName cur k :
  forall i, keeps Inv (createDirectory_loop pf buffer dirName cur k i).
Proof.
  induction k as [|k IH]; intros i; cbn [createDirectory_loop].
  - apply keeps_ret.
  - apply keeps_bind; [apply keeps_load|]. intros n0.
    destruct (name0_is pf n0 0 || name0_is pf n0 229); [|apply IH].
    destruct dirName as [name|]; [|apply keeps_undefined].
    apply keeps_bind; [apply keeps_fill_entry|]. intros b. apply keeps_ret.
Qed.

Lemma keeps_createDirectory pf dirName context :
  currentCluster context = cluster ->
  keeps Inv (createDirectory pf fd dirName context bsi).
Proof.
  intros Hc. unfold createDirectory.
  destruct (malloc_fails pf (cluster_bytes bsi)); [apply keeps_printf|].
  rewrite Hc.
  apply keeps_bind; [apply keeps_readCluster|]. intros [ok buffer].
  destruct (negb ok); [apply keeps_ret|].
  apply keeps_bind; [apply keeps_createDirectory_loop|]. intros [foundSpace buffer'].
  destruct (negb foundSpace); [apply keeps_printf|].
  apply keeps_bind.
  { apply keeps_lseek. intros _. right. unfold writeback_offset. by rewrite Hc. }
  intros _.
  destruct (all_bytes _) as [bytes|]; [|apply keeps_undefined].
  apply keeps_bind; [apply keeps_write|]. intros _. apply keeps_ret.
Qed.

Lemma keeps_main_loop pf argv1 context lines :
  currentCluster context = cluster ->
  keeps Inv (main_loop pf argv1 fd context bsi lines).
Proof.
  intros Hc. induction lines as [|line rest IH]; cbn [main_loop].
  - apply keeps_printf.
  - apply keeps_bind; [apply keeps_printf|]. intros _.
    destruct (strcmp_eq _ (bytes_of_string "exit")); [apply keeps_ret|].
    apply keeps_bind; [|intros _; apply IH].
    destruct (strcmp_eq _ (bytes_of_string "info")).
    { apply keeps_printBootSectorInfo. }
    destruct (strncmp_str_eq _ (bytes_of_string "cd ") 3); [apply keeps_ret|].
    destruct (strcmp_eq _ (bytes_of_string "ls")).
    { by apply keeps_listDirectory. }
    destruct (strncmp_str_eq _ (bytes_of_string "mkdir ") 6).
    { by apply keeps_createDirectory. }
    apply keeps_printf.
Qed.

End Session.

(** * The command loop of main *)

Lemma session_inv_weaken bsi cluster fd F T w :
  session_inv bsi cluster fd F T w -> session_inv0 bsi cluster fd F T w.
Proof. intros (HF & _ & Hev). by split. Qed.

Lemma inv0_log bsi cluster fd F T e w :
  session_inv0 bsi cluster fd F T w -> geometry_event bsi cluster fd e ->
  session_inv0 bsi cluster fd F T (log e w).
Proof.
  intros (HF & evs & HT & Hok) He. split; [done|].
  exists (evs ++ [e]). simpl. rewrite HT, app_assoc. split; [done|].
  apply Forall_app. split; [done|]. by constructor.
Qed.

Lemma inv0_start bsi cluster fd w :
  session_inv0 bsi cluster fd (w_files w) (w_trace w) w.
Proof. split; [done|]. exists []. by rewrite app_nil_r. Qed.

(** From the first to the last step of [main] the files stay what they
    were, and the trace grows by events whose arguments on the descriptor of
    the image come from [bsi] and cluster 2. *)
Lemma main_invariant pf argv lines bsi w :
  session_inv0 bsi 2 (lowest_free (w_fds w)) (w_files w) (w_trace w)
    (final_world (main pf argv lines bsi w)).
Proof.
  pose proof (inv0_start bsi 2 (lowest_free (w_fds w)) w) as H0.
  unfold main.
  destruct (negb (Z.of_nat (length argv) =? 2)).
  { cbn. by apply inv0_log. }
  set (argv1 := nth 1 argv ""%string).
  unfold mbind at 1, M_bind, bind. unfold sys_open at 1.
  destruct (w_files w !! argv1) as [data|] eqn:Hfile.
  2:{ cbn. apply inv0_log; [|done]. by apply inv0_log. }
  set (fd := lowest_free (w_fds w)) in *.
  set (w1 := log _ _).
  assert (Hinv : session_inv bsi 2 fd (w_files w) (w_trace w) w1).
  { split; [done|]. split.
    - exists {| fd_path := argv1; fd_pos := 0; fd_mode := O_RDONLY |}.
      split; [|done]. subst w1. simpl. by rewrite lookup_insert_eq.
    - exists [EvOpen argv1 O_RDONLY fd]. split; [done|]. by repeat constructor. }
  destruct (fd =? -1).
  { cbn. apply inv0_log; [|done]. by apply session_inv_weaken. }
  set (context := {| currentCluster := 2; path := _; imageName := _ |}).
  pose proof (keeps_main_loop bsi 2 fd (w_files w) (w_trace w) pf argv1 context
                lines eq_refl w1 Hinv) as Hloop.
  unfold mbind, M_bind, bind.
  destruct (main_loop pf argv1 fd context bsi lines w1) as [[] w2|w2]; simpl in *.
  - apply inv0_log; [|done]. apply session_inv_weaken in Hloop.
    destruct Hloop as [HF Hev]. by split.
  - by apply session_inv_weaken.
Qed.

(** C8. In every session, whatever the commands, the files on disk at the
    end of [main] (or at the point where it stops) are those at the start:
    the image is opened read-only, and the write-back of createDirectory is
    refused. *)
Theorem main_never_modifies_image pf argv lines bsi w :
  w_files (final_world (main pf argv lines bsi w)) = w_files w.
Proof. by destruct (main_invariant pf argv lines bsi w) as [HF _]. Qed.


(** * The cluster translation of readCluster *)

Lemma sys_lseek_ok pf fd off d w :
  w_fds w !! fd = Some d -> 0 <= off <= max_offset pf ->
  sys_lseek pf fd off w =
    Ret off (log (EvSeek fd off off)
               {| w_files := w_files w;
                  w_fds := <[fd := {| fd_path := fd_path d; fd_pos := off; fd_mode := fd_mode d |}]> (w_fds w);
                  w_trace := w_trace w |}).
Proof.
  intros Hd Hoff. unfold sys_lseek. rewrite Hd.
  destruct (Z.leb_spec 0 off); [|lia].
  destruct (Z.leb_spec off (max_offset pf)); [done|lia].
Qed.

Lemma sys_read_ok fd n d data w :
  w_fds w !! fd = Some d -> w_files w !! fd_path d = Some data ->
  readable (fd_mode d) = true ->
  let got := file_slice data (fd_pos d) n in
  sys_read fd n w =
    Ret (Z.of_nat (length got), got)
      (log (EvRead fd n (Z.of_nat (length got)))
         {| w_files := w_files w;
            w_fds := <[fd := {| fd_path := fd_path d;
                                fd_pos := fd_pos d + Z.of_nat (length got);
                                fd_mode := fd_mode d |}]> (w_fds w);
            w_trace := w_trace w |}).
Proof. intros Hd Hf Hr. unfold sys_read. by rewrite Hd, Hf, Hr. Qed.

Lemma length_file_slice data pos n :
  (length (file_slice data pos n) <= Z.to_nat n)%nat.
Proof. unfold file_slice. rewrite length_take. lia. Qed.

(** What readCluster does on an open, readable descriptor, for any cluster
    number whose offset the file system accepts, into a buffer that holds a
    cluster. *)
Lemma readCluster_ok pf bsi c fd d data buffer w :
  0 <= bytesPerSector bsi < 2^16 ->
  w_fds w !! fd = Some d -> w_files w !! fd_path d = Some data ->
  readable (fd_mode d) = true ->
  cluster_offset bsi c <= max_offset pf ->
  let off := cluster_offset bsi c in
  let got := file_slice data off (cluster_bytes bsi) in
  (length got <= length buffer)%nat ->
  readCluster pf fd c buffer bsi w =
    Ret (true, filled buffer got)
      {| w_files := w_files w;
         w_fds := <[fd := {| fd_path := fd_path d;
                             fd_pos := off + Z.of_nat (length got);
                             fd_mode := fd_mode d |}]> (w_fds w);
         w_trace := w_trace w ++ [EvSeek fd off off;
                                  EvRead fd (cluster_bytes bsi) (Z.of_nat (length got))] |}.
Proof.
  intros Hb Hd Hf Hr Hmax off got Hbuf.
  pose proof (cluster_offset_nonneg bsi c Hb) as Hoff.
  unfold readCluster.
  erewrite bind_Ret by (by apply sys_lseek_ok).
  destruct (Z.ltb_spec (cluster_offset bsi c) 0) as [?|_]; [lia|].
  erewrite bind_Ret.
  2:{ eapply sys_read_ok.
      - simpl. by rewrite lookup_insert_eq.
      - simpl. exact Hf.
      - simpl. exact Hr. }
  cbv beta iota. cbn [fd_pos fd_path fd_mode]. fold off. fold got.
  destruct (Z.ltb_spec (Z.of_nat (length got)) 0) as [?|_]; [lia|].
  unfold buf_fill.
  destruct (Nat.leb_spec (length got) (length buffer)) as [_|?]; [|lia].
  unfold mret, M_ret, ret, log. simpl.
  rewrite insert_insert_eq, <- app_assoc. done.
Qed.

(** the same for the buffer the callers allocate *)
Lemma readCluster_malloc_ok pf bsi c fd d data w :
  0 <= bytesPerSector bsi < 2^16 ->
  w_fds w !! fd = Some d -> w_files w !! fd_path d = Some data ->
  readable (fd_mode d) = true ->
  cluster_offset bsi c <= max_offset pf ->
  let off := cluster_offset bsi c in
  let got := file_slice data off (cluster_bytes bsi) in
  readCluster pf fd c (malloc (cluster_bytes bsi)) bsi w =
    Ret (true, filled (malloc (cluster_bytes bsi)) got)
      {| w_files := w_files w;
         w_fds := <[fd := {| fd_path := fd_path d;
                             fd_pos := off + Z.of_nat (length got);
                             fd_mode := fd_mode d |}]> (w_fds w);
         w_trace := w_trace w ++ [EvSeek fd off off;
                                  EvRead fd (cluster_bytes bsi) (Z.of_nat (length got))] |}.
Proof.
  intros Hb Hd Hf Hr Hmax. apply readCluster_ok; try done.
  unfold malloc. rewrite length_replicate. apply length_file_slice.
Qed.

Lemma cluster_sector_2 bsi :
  0 <= rootCluster bsi < 2^32 -> cluster_sector bsi 2 = rootCluster bsi.
Proof.
  intros H. rewrite cluster_sector_mod. rewrite Z.mod_small; lia.
Qed.

(** C1, as the source has it.  For every 32-bit cluster number [c] whose
    computed offset the file system accepts, readCluster seeks the image to
    that offset and reads one cluster there into a buffer that holds one:
    no cluster number is rejected, the call succeeds for [c < 2] and for
    [c >= totalClusters + 2] as for any other.  For [c >= 2], where the
    32-bit sector number does not wrap, that offset is the offset of
    cluster 2 plus [(c - 2) * bytesPerSector * sectorsPerCluster]. *)
Theorem readCluster_seeks_translated_offset pf bsi c fd d data buffer w :
  bsi_in_range bsi -> 0 <= c < 2^32 ->
  w_fds w !! fd = Some d -> w_files w !! fd_path d = Some data ->
  readable (fd_mode d) = true ->
  cluster_offset bsi c <= max_offset pf ->
  (Z.to_nat (cluster_bytes bsi) <= length buffer)%nat ->
  let off := cluster_offset bsi c in
  let got := file_slice data off (cluster_bytes bsi) in
  exists w',
    readCluster pf fd c buffer bsi w = Ret (true, filled buffer got) w' /\
    length (filled buffer got) = length buffer /\
    w_trace w' = w_trace w ++ [EvSeek fd off off;
                               EvRead fd (cluster_bytes bsi) (Z.of_nat (length got))] /\
    w_files w' = w_files w /\
    (2 <= c ->
     cluster_sector bsi 2 + (c - 2) * sectorsPerCluster bsi < 2^32 ->
     off = cluster_offset bsi 2
           + (c - 2) * bytesPerSector bsi * sectorsPerCluster bsi).
Proof.
  intros Hr Hc Hd Hf Hrd Hmax Hbuf off got.
  pose proof Hr as (Hb & Hs & Hroot & _).
  pose proof (length_file_slice data off (cluster_bytes bsi)) as Hgot.
  fold got in Hgot.
  eexists. split; [|split; [|split; [|split]]].
  - apply (readCluster_ok pf bsi c fd d data buffer w Hb Hd Hf Hrd Hmax).
    fold off got. lia.
  - unfold filled.
    rewrite length_app, length_fmap, length_drop. lia.
  - reflexivity.
  - reflexivity.
  - intros H2 Hlt. rewrite cluster_sector_2 in Hlt by done. subst off.
    rewrite (cluster_offset_linear bsi c), (cluster_offset_linear bsi 2);
      [lia|done|lia|lia|done|done|lia].
Qed.

Lemma readCluster_seeks_translated_offset_witness :
  exists w',
    readCluster Examples.pf_signed 3 3 (malloc 512) Examples.bsiA
      (Examples.world_with Examples.imageA O_RDONLY)
      = Ret (true, filled (malloc 512) (file_slice Examples.imageA 1536 512)) w' /\
    w_trace w' = [EvSeek 3 1536 1536; EvRead 3 512 512].
Proof.
  destruct (readCluster_seeks_translated_offset Examples.pf_signed Examples.bsiA 3 3
              {| fd_path := "fat32.img"; fd_pos := 0; fd_mode := O_RDONLY |}
              Examples.imageA (malloc 512)
              (Examples.world_with Examples.imageA O_RDONLY))
    as (w' & Hrun & _ & Htrace & _).
  - unfold bsi_in_range. simpl. lia.
  - lia.
  - reflexivity.
  - reflexivity.
  - reflexivity.
  - vm_compute. discriminate.
  - vm_compute. lia.
  - exists w'. split; [exact Hrun|exact Htrace].
Defined.

(** C1 as stated fails on volume A: cluster 2 is read at byte 1024, not at
    the 1536 of the specified translation, and cluster 1 is read (at byte
    512) although the specified translation rejects it. *)
Lemma readCluster_not_as_specified :
  ~ reads_as_specified Examples.pf_signed Examples.geometryA Examples.bsiA 3
      (Examples.world_with Examples.imageA O_RDONLY) 2 /\
  ~ reads_as_specified Examples.pf_signed Examples.geometryA Examples.bsiA 3
      (Examples.world_with Examples.imageA O_RDONLY) 1.
Proof.
  split; unfold reads_as_specified; vm_compute; intros H; discriminate H.
Qed.

(** C7, as the source has it.  On a geometry with non-zero sector and
    cluster sizes, in which the 32-bit sector number of the last cluster of
    the data region does not wrap, the offsets of valid clusters increase
    strictly with the cluster number, so the translation is injective
    there. *)
Theorem cluster_offset_strictly_increasing bsi c1 c2 :
  bsi_in_range bsi ->
  0 < bytesPerSector bsi -> 0 < sectorsPerCluster bsi ->
  cluster_sector bsi 2 + (totalClusters bsi - 1) * sectorsPerCluster bsi < 2^32 ->
  valid_cluster bsi c1 -> valid_cluster bsi c2 ->
  (c1 < c2 -> cluster_offset bsi c1 < cluster_offset bsi c2) /\
  (cluster_offset bsi c1 = cluster_offset bsi c2 -> c1 = c2).
Proof.
  intros Hr Hb Hs Hfit [H1 H1'] [H2 H2'].
  pose proof Hr as (Hbr & Hsr & Hroot & _).
  rewrite cluster_sector_2 in Hfit by done.
  assert (Hlin : forall c, 2 <= c < totalClusters bsi + 2 ->
            cluster_offset bsi c =
              rootCluster bsi * bytesPerSector bsi
              + (c - 2) * bytesPerSector bsi * sectorsPerCluster bsi).
  { intros c Hc. apply cluster_offset_linear; [done|lia|nia]. }
  rewrite !Hlin by lia. split; intros H; nia.
Qed.

Lemma cluster_offset_strictly_increasing_witness :
  cluster_offset Examples.bsiA 2 < cluster_offset Examples.bsiA 3.
Proof.
  refine (proj1 (cluster_offset_strictly_increasing Examples.bsiA 2 3
                   _ _ _ _ _ _) _).
  - unfold bsi_in_range. simpl. lia.
  - simpl. lia.
  - simpl. lia.
  - vm_compute. reflexivity.
  - unfold valid_cluster. simpl. lia.
  - unfold valid_cluster. simpl. lia.
  - lia.
Defined.

(** C7 as stated fails: with 128 sectors per cluster the 32-bit sector
    number wraps, and the valid clusters 2 and 2^25 + 2 get the same offset;
    with a zero bytes-per-sector field all clusters get offset 0. *)
Lemma cluster_offset_not_increasing :
  (bsi_in_range Examples.bsi_large /\
   valid_cluster Examples.bsi_large 2 /\
   valid_cluster Examples.bsi_large 33554434 /\
   ~ cluster_offset Examples.bsi_large 2 < cluster_offset Examples.bsi_large 33554434) /\
  (bsi_in_range Examples.bsi_zero /\
   valid_cluster Examples.bsi_zero 2 /\
   valid_cluster Examples.bsi_zero 3 /\
   ~ cluster_offset Examples.bsi_zero 2 < cluster_offset Examples.bsi_zero 3).
Proof.
  unfold bsi_in_range, valid_cluster. simpl.
  repeat split; try lia; vm_compute; discriminate.
Qed.

(** * The geometry record of printBootSectorInfo *)

Lemma byte_val_range b : 0 <= byte_val b < 256.
Proof.
  unfold byte_val. pose proof (Byte.to_N_bounded b) as H.
  split; [apply N2Z.is_nonneg|]. lia.
Qed.

Lemma le16_range b0 b1 : 0 <= le16 b0 b1 < 2^16.
Proof.
  unfold le16. pose proof (byte_val_range b0). pose proof (byte_val_range b1). lia.
Qed.

Lemma le32_range b0 b1 b2 b3 : 0 <= le32 b0 b1 b2 b3 < 2^32.
Proof.
  unfold le32.
  pose proof (byte_val_range b0). pose proof (byte_val_range b1).
  pose proof (byte_val_range b2). pose proof (byte_val_range b3). lia.
Qed.

(** the record decoded from a boot sector holds values of its C types *)
Lemma bootSectorInfo_of_in_range bootSector st_size info :
  bootSectorInfo_of bootSector st_size = Some info -> bsi_in_range info.
Proof.
  unfold bootSectorInfo_of. destruct (_ =? 0); [done|].
  intros [= <-]. unfold bsi_in_range, u32, u64. simpl.
  pose proof (le16_range (nth 11 bootSector x00) (nth 12 bootSector x00)).
  pose proof (byte_val_range (nth 13 bootSector x00)).
  pose proof (le32_range (nth 44 bootSector x00) (nth 45 bootSector x00)
                (nth 46 bootSector x00) (nth 47 bootSector x00)).
  pose proof (le32_range (nth 36 bootSector x00) (nth 37 bootSector x00)
                (nth 38 bootSector x00) (nth 39 bootSector x00)).
  repeat split; try lia; apply Z.mod_pos_bound; lia.
Qed.

(** C4, as the source has it.  The total-clusters field of the record is
    the size of the image divided by [bytesPerSector * sectorsPerCluster]
    (as an unsigned 32-bit value), these two being the boot-sector fields at
    offsets 11 and 13; nothing is subtracted for reserved sectors or FAT
    copies: any boot sector with the same two fields gives the same total. *)
Theorem bootSectorInfo_totalClusters bootSector st_size info :
  0 <= st_size ->
  bootSectorInfo_of bootSector st_size = Some info ->
  bytesPerSector info = le16 (nth 11 bootSector x00) (nth 12 bootSector x00) /\
  sectorsPerCluster info = byte_val (nth 13 bootSector x00) /\
  totalClusters info =
    (st_size / (bytesPerSector info * sectorsPerCluster info)) mod 2^32 /\
  forall bootSector',
    same_cluster_size bootSector bootSector' ->
    exists info', bootSectorInfo_of bootSector' st_size = Some info' /\
                  totalClusters info' = totalClusters info.
Proof.
  intros Hsize. unfold bootSectorInfo_of.
  pose proof (le16_range (nth 11 bootSector x00) (nth 12 bootSector x00)) as Hb.
  pose proof (byte_val_range (nth 13 bootSector x00)) as Hs.
  destruct (Z.eqb_spec (byte_val (nth 13 bootSector x00)
                        * le16 (nth 11 bootSector x00) (nth 12 bootSector x00)) 0)
    as [|Hne]; [done|].
  intros [= <-]. simpl. split; [done|]. split; [done|]. split.
  - unfold u32. rewrite Z.quot_div_nonneg by nia. f_equal. f_equal. ring.
  - intros bs' (H11 & H12 & H13). rewrite <- H11, <- H12, <- H13.
    destruct (Z.eqb_spec (byte_val (nth 13 bootSector x00)
                          * le16 (nth 11 bootSector x00) (nth 12 bootSector x00)) 0);
      [done|].
    eexists. split; [reflexivity|]. done.
Qed.

Lemma bootSectorInfo_totalClusters_witness :
  exists info,
    bootSectorInfo_of (take 512 Examples.imageA) 2560 = Some info /\
    totalClusters info = (2560 / (bytesPerSector info * sectorsPerCluster info)) mod 2^32.
Proof.
  exists Examples.bsiA.
  assert (H : bootSectorInfo_of (take 512 Examples.imageA) 2560 = Some Examples.bsiA)
    by (vm_compute; reflexivity).
  split; [exact H|].
  refine (proj1 (proj2 (proj2 (bootSectorInfo_totalClusters
                                 (take 512 Examples.imageA) 2560 Examples.bsiA _ H)))).
  lia.
Defined.

(** C4 as stated fails on volume A: its boot sector declares two reserved
    sectors and one FAT of one sector, the image has five clusters, and the
    record says 5 where the specification says 2. *)
Lemma totalClusters_not_as_specified :
  ~ total_as_specified (take 512 Examples.imageA) (Z.of_nat (length Examples.imageA)).
Proof.
  intros (info & Hinfo & Htotal).
  assert (H : bootSectorInfo_of (take 512 Examples.imageA)
                (Z.of_nat (length Examples.imageA)) = Some Examples.bsiA)
    by (vm_compute; reflexivity).
  rewrite H in Hinfo. injection Hinfo as <-.
  vm_compute in Htotal. discriminate Htotal.
Qed.

(** what the [info] command prints for volume A *)
Example printBootSectorInfo_imageA :
  w_trace (final_world (printBootSectorInfo "fat32.img"
                          (Examples.world_closed Examples.imageA))) =
  [EvOpen "fat32.img" O_RDONLY 3; EvRead 3 512 512;
   EvStdout ("Bytes Per Sector: 512" ++ nl);
   EvStdout ("Sectors Per Cluster: 1" ++ nl);
   EvStdout ("Root Cluster: 2" ++ nl);
   EvStdout ("Total # of Clusters in Data Region: 5" ++ nl);
   EvStdout ("# of Entries in One FAT: 1" ++ nl);
   EvStdout ("Size of Image (in bytes): 2560" ++ nl);
   EvClose 3].
Proof. vm_compute. reflexivity. Qed.

(** the geometry records used for the example volumes are those the source
    computes from their boot sectors *)
Example example_geometry_records :
  bootSectorInfo_of (take 512 Examples.imageA) (Z.of_nat (length Examples.imageA))
    = Some Examples.bsiA /\
  bootSectorInfo_of (take 512 Examples.imageB) (Z.of_nat (length Examples.imageB))
    = Some Examples.bsiB /\
  bootSectorInfo_of (take 512 Examples.imageC) (Z.of_nat (length Examples.imageC))
    = Some Examples.bsiC.
Proof. repeat split; vm_compute; reflexivity. Qed.

(** * The chain walker of the specified design *)

Section Chain.

Import SpecModel.

Variables (g : VolumeGeometry) (image : list byte).

Lemma valid_spec c : valid g c = true <-> 2 <= c < vg_totalClusters g + 2.
Proof. unfold valid. rewrite andb_true_iff, Z.leb_le, Z.ltb_lt. done. Qed.

Lemma elem_of_valid_set c : c ∈ valid_set g <-> valid g c = true.
Proof.
  unfold valid_set. rewrite elem_of_list_to_set, elem_of_seqZ, valid_spec. lia.
Qed.

Lemma size_valid_set : size (valid_set g) = Z.to_nat (vg_totalClusters g).
Proof.
  unfold valid_set. rewrite size_list_to_set by apply NoDup_seqZ.
  apply length_seqZ.
Qed.

Lemma nextCluster_valid c s : nextCluster g image c = Ok s -> valid g c = true.
Proof. unfold nextCluster. by destruct (valid g c). Qed.

Lemma nextCluster_next_valid c c' :
  nextCluster g image c = Ok (Next c') -> valid g c' = true.
Proof.
  unfold nextCluster. destruct (valid g c); [|done].
  destruct (read32 _ _) as [entry|]; [|done].
  unfold classify.
  repeat match goal with |- context [if ?b then _ else _] => destruct b eqn:? end;
    intros [=]; by subst.
Qed.

(** ** The traversal never runs out of steps *)

Lemma collect_total fuel : forall visited c,
  visited ⊆ valid_set g ->
  (Z.to_nat (vg_totalClusters g) < size visited + fuel)%nat ->
  is_Some (collect g image fuel visited c).
Proof.
  induction fuel as [|fuel IH]; intros visited c Hsub Hsize.
  - pose proof (subseteq_size _ _ Hsub) as Hle.
    rewrite size_valid_set in Hle. lia.
  - cbn [collect]. case_bool_decide as Hin; [by eexists|].
    destruct (nextCluster g image c) as [[c'| | |]|e] eqn:Hnext; try by eexists.
    destruct (IH ({[c]} ∪ visited) c') as [[l e] Hr].
    + apply union_least; [|done].
      apply singleton_subseteq_l, elem_of_valid_set.
      by eapply nextCluster_valid.
    + rewrite size_union by (by apply disjoint_singleton_l).
      rewrite size_singleton. lia.
    + rewrite Hr. by eexists.
Qed.

(** ** Finite chains *)

Lemma chain_deterministic c l1 :
  chain g image c l1 -> forall l2, chain g image c l2 -> l1 = l2.
Proof.
  induction 1 as [c Hend|c c' l Hnext Hch IH]; intros l2 H2.
  - inversion H2; subst; [done|congruence].
  - inversion H2 as [|? c2 l' Hnext2 Hch2]; subst; [congruence|].
    rewrite Hnext in Hnext2. injection Hnext2 as <-. f_equal. by apply IH.
Qed.

Lemma chain_suffix c l :
  chain g image c l -> forall x, x ∈ l ->
  exists l', chain g image x l' /\ (length l' <= length l)%nat.
Proof.
  induction 1 as [c Hend|c c' l Hnext Hch IH]; intros x Hx.
  - apply list_elem_of_singleton in Hx as ->. exists [c]. split; [by constructor|done].
  - apply elem_of_cons in Hx as [->|Hx].
    + exists (c :: l). split; [by econstructor|done].
    + destruct (IH x Hx) as (l' & Hl' & Hlen). exists l'. split; [done|]. simpl. lia.
Qed.

Lemma chain_NoDup c l : chain g image c l -> NoDup l.
Proof.
  induction 1 as [c Hend|c c' l Hnext Hch IH].
  - apply NoDup_singleton.
  - apply NoDup_cons. split; [|done]. intros Hin.
    destruct (chain_suffix _ _ Hch c Hin) as (l' & Hl' & Hlen).
    assert (l' = c :: l) as ->.
    { eapply chain_deterministic; [exact Hl'|]. by econstructor. }
    simpl in Hlen. lia.
Qed.

Lemma chain_valid c l : chain g image c l -> forall x, x ∈ l -> valid g x = true.
Proof.
  induction 1 as [c Hend|c c' l Hnext Hch IH]; intros x Hx.
  - apply list_elem_of_singleton in Hx as ->. by eapply nextCluster_valid.
  - apply elem_of_cons in Hx as [->|Hx]; [by eapply nextCluster_valid|by apply IH].
Qed.

Lemma chain_head c l : chain g image c l -> head l = Some c.
Proof. by destruct 1. Qed.

Lemma chain_length c l :
  chain g image c l -> (length l <= Z.to_nat (vg_totalClusters g))%nat.
Proof.
  intros Hch.
  rewrite <- (length_seqZ 2 (vg_totalClusters g)).
  apply submseteq_length, NoDup_submseteq; [by eapply chain_NoDup|].
  intros x Hx. apply (chain_valid _ _ Hch), valid_spec in Hx.
  apply elem_of_seqZ. lia.
Qed.

Lemma collect_chain c l :
  chain g image c l -> forall fuel visited,
  NoDup l -> (forall x, x ∈ l -> x ∉ visited) -> (length l <= fuel)%nat ->
  collect g image fuel visited c = Some (l, None).
Proof.
  induction 1 as [c Hend|c c' l Hnext Hch IH]; intros fuel visited Hnd Hvis Hlen.
  - destruct fuel as [|fuel]; [simpl in Hlen; lia|]. cbn [collect].
    rewrite bool_decide_eq_false_2 by (apply Hvis; set_solver).
    by rewrite Hend.
  - destruct fuel as [|fuel]; [simpl in Hlen; lia|]. cbn [collect].
    rewrite bool_decide_eq_false_2 by (apply Hvis; set_solver).
    rewrite Hnext. apply NoDup_cons in Hnd as [Hc Hnd].
    assert (Hvis' : forall x, x ∈ l -> x ∉ {[c]} ∪ visited).
    { intros x Hx. apply not_elem_of_union. split.
      - apply not_elem_of_singleton. intros ->. done.
      - apply Hvis. set_solver. }
    assert (Hlen' : (length l <= fuel)%nat) by (simpl in Hlen; lia).
    by rewrite (IH fuel ({[c]} ∪ visited) Hnd Hvis' Hlen').
Qed.

(** ** Corrupt FATs in which a cluster repeats *)

Lemma walk_add a : forall b c,
  walk g image (a + b) c = walk g image a c ≫= walk g image b.
Proof.
  induction a as [|a IH]; intros b c; [done|]. cbn [walk Nat.add].
  destruct (nextCluster g image c) as [[c'| | |]|e]; [apply IH|done..].
Qed.

Lemma walk_forever start :
  repeats g image start -> forall k, is_Some (walk g image k start).
Proof.
  intros (i & j & x & Hij & Hi & Hj) k.
  (* the walk comes back to [x] after [p] links, hence after any multiple *)
  set (p := (j - i)%nat).
  assert (Hp : walk g image p x = Some x).
  { replace j with (i + p)%nat in Hj by lia. by rewrite walk_add, Hi in Hj. }
  assert (Hm : forall m, walk g image (m * p) x = Some x).
  { induction m as [|m IHm]; [done|]. cbn [Nat.mul]. rewrite walk_add, Hp. exact IHm. }
  assert (Hlong : walk g image (k + (i + k * p - k)) start = Some x).
  { replace (k + (i + k * p - k))%nat with (i + k * p)%nat by nia.
    rewrite walk_add, Hi. apply Hm. }
  rewrite walk_add in Hlong.
  destruct (walk g image k start); [by eexists|done].
Qed.

Lemma collect_forever fuel : forall visited c r,
  (forall k, is_Some (walk g image k c)) ->
  collect g image fuel visited c = Some r -> r.2 = Some CyclicChain.
Proof.
  induction fuel as [|fuel IH]; intros visited c r Hwalk; [done|].
  cbn [collect]. case_bool_decide; [by intros [= <-]|].
  destruct (Hwalk 1%nat) as [c1 H1]. cbn [walk] in H1.
  destruct (nextCluster g image c) as [[c'| | |]|e] eqn:Hnext; try done.
  destruct (collect g image fuel ({[c]} ∪ visited) c') as [[l e]|] eqn:Hrec; [|done].
  intros [= <-]. simpl.
  assert (Hwalk' : forall k, is_Some (walk g image k c')).
  { intros k. specialize (Hwalk (S k)). cbn [walk] in Hwalk.
    by rewrite Hnext in Hwalk. }
  exact (IH _ _ _ Hwalk' Hrec).
Qed.

End Chain.

(** C6.  collectChain of the specified design always terminates within its
    [totalClusters + 1] steps.  From a start cluster whose FAT chain is the
    finite list [l] (of length n) it yields exactly [l]: n clusters, the
    first of them the start cluster, each the nextCluster of the one before,
    up to EndOfChain, and n is at most totalClusters.  When a cluster
    repeats on the way from the start cluster it fails with CyclicChain. *)
Theorem collectChain_finite_or_cyclic g image start :
  is_Some (SpecModel.collectChain g image start) /\
  (forall l, SpecModel.chain g image start l ->
     SpecModel.collectChain g image start = Some (l, None) /\
     head l = Some start /\
     (length l <= Z.to_nat (SpecModel.vg_totalClusters g))%nat) /\
  (SpecModel.repeats g image start ->
     exists l, SpecModel.collectChain g image start
               = Some (l, Some SpecModel.CyclicChain)).
Proof.
  assert (Htotal : is_Some (SpecModel.collectChain g image start)).
  { apply collect_total; [apply empty_subseteq|]. rewrite size_empty. lia. }
  split; [exact Htotal|]. split.
  - intros l Hch.
    pose proof (chain_length g image start l Hch) as Hlen.
    split; [|split; [by eapply chain_head|done]].
    apply collect_chain; [done|by eapply chain_NoDup| |lia].
    intros x _. apply not_elem_of_empty.
  - intros Hrep. destruct Htotal as [[l e] Hr]. exists l. rewrite Hr.
    pose proof (collect_forever g image _ _ _ _ (walk_forever g image start Hrep) Hr)
      as He.
    simpl in He. by rewrite He.
Qed.

Lemma collectChain_finite_or_cyclic_witness :
  SpecModel.collectChain Examples.geometryB Examples.imageB 19
    = Some ([19; 20], None) /\
  exists l, SpecModel.collectChain Examples.geometryB Examples.imageB_cyclic 19
            = Some (l, Some SpecModel.CyclicChain).
Proof.
  split.
  - refine (proj1 (proj1 (proj2 (collectChain_finite_or_cyclic
                                   Examples.geometryB Examples.imageB 19))
                     [19; 20] _)).
    apply SpecModel.chain_next with (c' := 20); [vm_compute; reflexivity|].
    apply SpecModel.chain_end. vm_compute. reflexivity.
  - refine (proj2 (proj2 (collectChain_finite_or_cyclic
                            Examples.geometryB Examples.imageB_cyclic 19)) _).
    exists 0%nat, 2%nat, 19. split; [lia|]. split; vm_compute; reflexivity.
Defined.

(** * listDirectory *)

Lemma name0_is_nul pf b : name0_is pf b 0 = Byte.eqb b x00.
Proof.
  unfold name0_is, char_val. destruct (char_signed pf); destruct b; reflexivity.
Qed.

(** with a signed plain [char] no byte compares equal to 0xE5 *)
Lemma name0_is_e5_signed pf b :
  char_signed pf = true -> name0_is pf b 229 = false.
Proof.
  intros Hs. unfold name0_is, char_val. rewrite Hs. destruct b; reflexivity.
Qed.

Lemma name0_is_e5_unsigned pf b :
  char_signed pf = false -> name0_is pf b 229 = Byte.eqb b xe5.
Proof.
  intros Hs. unfold name0_is, char_val. rewrite Hs. destruct b; reflexivity.
Qed.

Lemma add_trace_nil w : add_trace w [] = w.
Proof. destruct w. unfold add_trace. simpl. by rewrite app_nil_r. Qed.

Lemma add_trace_app w a b : add_trace (add_trace w a) b = add_trace w (a ++ b).
Proof. unfold add_trace. simpl. by rewrite app_assoc. Qed.

Lemma log_add_trace e w : log e w = add_trace w [e].
Proof. done. Qed.

Lemma load_filled data rest (i : nat) b w :
  data !! i = Some b -> load ((Some <$> data) ++ rest) (Z.of_nat i) w = Ret b w.
Proof.
  intros Hb. unfold load.
  destruct (Z.leb_spec 0 (Z.of_nat i)); [|lia].
  rewrite Nat2Z.id, lookup_app_l by (rewrite length_fmap; by eapply lookup_lt_Some).
  by rewrite list_lookup_fmap, Hb.
Qed.

Lemma read_str_filled data rest n : forall (i : nat) w,
  (i + n <= length data)%nat ->
  read_str ((Some <$> data) ++ rest) (Z.of_nat i) n w
    = Ret (c_str (take n (drop i data))) w.
Proof.
  induction n as [|n IH]; intros i w Hlen; [done|].
  cbn [read_str].
  destruct (lookup_lt_is_Some_2 data i) as [b Hb]; [lia|].
  erewrite bind_Ret by (by apply load_filled).
  rewrite (drop_S _ _ _ Hb). cbn [take c_str]. unfold is_nul.
  destruct (Byte.eqb b x00); [done|].
  replace (Z.of_nat i + 1) with (Z.of_nat (S i)) by lia.
  erewrite bind_Ret by (apply IH; lia).
  done.
Qed.

Lemma entry_offset (i : nat) :
  Z.of_nat i * sizeof_DirEntry + off_name = Z.of_nat (40 * i).
Proof. unfold sizeof_DirEntry, off_name. lia. Qed.

Lemma record_name_head data i b :
  data !! (40 * i)%nat = Some b ->
  exists tl, record_name data i = b :: tl.
Proof.
  intros Hb. unfold record_name. rewrite (drop_S _ _ _ Hb). by eexists.
Qed.

(** The loop of listDirectory on a buffer that holds [data]: from record
    [i] it prints the names of the [m] records before record [t] that the
    0xE5 test lets through, and stops at [t], which is either the record
    with the end marker or the end of the count. *)
Lemma listDirectory_loop_filled pf data rest (t : nat) :
  (forall j, (j < t)%nat ->
     (40 * j + 11 <= length data)%nat /\
     exists b, data !! (40 * j)%nat = Some b /\ b <> x00) ->
  forall (m k i : nat) w,
    (i + m = t)%nat -> (m <= k)%nat ->
    (k = m \/ data !! (40 * t)%nat = Some x00) ->
    listDirectory_loop pf ((Some <$> data) ++ rest) k (Z.of_nat i) w
    = Ret tt (add_trace w
                (map name_line
                   (List.filter (fun r => negb (deleted pf r))
                      (map (record_name data) (seq i m))))).
Proof.
  intros Hrec. induction m as [|m IH]; intros k i w Hi Hk Hend.
  - cbn [seq map List.filter]. rewrite add_trace_nil.
    destruct k as [|k]; [done|]. destruct Hend as [?|Hend]; [lia|].
    cbn [listDirectory_loop]. rewrite entry_offset.
    replace i with t by lia.
    erewrite bind_Ret by (by apply load_filled).
    by rewrite name0_is_nul.
  - destruct k as [|k]; [lia|].
    destruct (Hrec i) as (Hlen & b & Hb & Hnz); [lia|].
    cbn [listDirectory_loop]. rewrite entry_offset.
    erewrite bind_Ret by (by apply load_filled).
    rewrite name0_is_nul.
    destruct (Byte.eqb b x00) eqn:Heq; [by apply Byte.byte_dec_bl in Heq|].
    destruct (record_name_head data i b Hb) as [tl Htl].
    cbn [seq map List.filter]. rewrite Htl. cbn [deleted]. rewrite <- Htl.
    replace (Z.of_nat i + 1) with (Z.of_nat (S i)) by lia.
    destruct (name0_is pf b 229); cbn [negb].
    + apply IH; [lia|lia|]. destruct Hend; [left; lia|by right].
    + erewrite bind_Ret by (apply read_str_filled; lia).
      unfold printf, emit. erewrite bind_Ret by reflexivity.
      rewrite IH; [|lia|lia|destruct Hend; [left; lia|by right]].
      rewrite log_add_trace, add_trace_app. done.
Qed.

(** listDirectory makes no call that changes a file *)
Lemma listDirectory_keeps_files pf fd context bsi F :
  keeps (fun w => w_files w = F) (listDirectory pf fd context bsi).
Proof.
  assert (Hlog : forall e, keeps (fun w => w_files w = F) (emit e))
    by (by intros e w Hw).
  assert (Hseek : forall off, keeps (fun w => w_files w = F) (sys_lseek pf fd off)).
  { intros off w Hw. unfold sys_lseek.
    destruct (w_fds w !! fd); [destruct ((0 <=? off) && (off <=? max_offset pf))|];
      done. }
  assert (Hread : forall n, keeps (fun w => w_files w = F) (sys_read fd n)).
  { intros n w Hw. unfold sys_read.
    destruct (w_fds w !! fd) as [d|]; [|done].
    destruct (w_files w !! fd_path d); [|done].
    destruct (readable (fd_mode d)); done. }
  assert (Hloop : forall buffer k i,
            keeps (fun w => w_files w = F) (listDirectory_loop pf buffer k i)).
  { intros buffer k. induction k as [|k IH]; intros i; cbn [listDirectory_loop].
    - apply keeps_ret.
    - apply keeps_bind; [apply keeps_load|]. intros n0.
      destruct (name0_is pf n0 0); [apply keeps_ret|].
      destruct (name0_is pf n0 229); [apply IH|].
      apply keeps_bind; [apply keeps_read_str|]. intros name.
      apply keeps_bind; [apply Hlog|]. intros _. apply IH. }
  unfold listDirectory.
  destruct (malloc_fails pf (cluster_bytes bsi)); [apply Hlog|].
  apply keeps_bind.
  { unfold readCluster. apply keeps_bind; [apply Hseek|]. intros r.
    destruct (r <? 0).
    - apply keeps_bind; [apply Hlog|]. intros _. apply keeps_ret.
    - apply keeps_bind; [apply Hread|]. intros [k got].
      destruct (k <? 0).
      + apply keeps_bind; [apply Hlog|]. intros _. apply keeps_ret.
      + destruct (buf_fill _ got); [apply keeps_ret|apply keeps_undefined]. }
  intros [ok buffer]. destruct (negb ok); [apply keeps_ret|].
  apply keeps_bind; [apply Hlog|]. intros _. apply Hloop.
Qed.

(** C2, as the source has it.  listDirectory never changes a file.  It
    reads one cluster, the one the cluster translation gives for the
    current directory, and follows no FAT chain.  It prints "." and ".."
    first; then, going through that cluster as an array of [DirEntry]
    records, the name of every record before the first one whose first name
    byte is 0x00 (or before the end of its count when there is none),
    except those its 0xE5 test matches.  The offset of the cluster is one
    the file system accepts. *)
Theorem listDirectory_lists_one_cluster pf fd context bsi w :
  w_files (final_world (listDirectory pf fd context bsi w)) = w_files w /\
  forall d image (t : nat),
  bsi_in_range bsi ->
  malloc_fails pf (cluster_bytes bsi) = false ->
  w_fds w !! fd = Some d -> w_files w !! fd_path d = Some image ->
  readable (fd_mode d) = true ->
  let off := cluster_offset bsi (currentCluster context) in
  let data := file_slice image off (cluster_bytes bsi) in
  let count := Z.to_nat (cluster_bytes bsi / DIR_ENTRY_SIZE) in
  off <= max_offset pf ->
  (t <= count)%nat ->
  (t = count \/ data !! (40 * t)%nat = Some x00) ->
  (forall j, (j < t)%nat ->
     (40 * j + 11 <= length data)%nat /\
     exists b, data !! (40 * j)%nat = Some b /\ b <> x00) ->
  exists w',
    listDirectory pf fd context bsi w = Ret tt w' /\
    w_trace w' =
      w_trace w
      ++ [EvSeek fd off off;
          EvRead fd (cluster_bytes bsi) (Z.of_nat (length data));
          EvStdout ("." ++ nl ++ ".." ++ nl)]
      ++ map name_line
           (List.filter (fun r => negb (deleted pf r)) (take t (records data count))).
Proof.
  split; [by apply listDirectory_keeps_files|].
  intros d image t Hr Hmalloc Hd Hf Hrd off data count Hmax Ht Hend Hrec.
  pose proof Hr as (Hb & _).
  unfold listDirectory. rewrite Hmalloc.
  erewrite bind_Ret by (by eapply readCluster_malloc_ok).
  cbv beta iota. cbn [negb]. fold off. fold data.
  unfold printf, emit. erewrite bind_Ret by reflexivity.
  unfold filled. fold count.
  rewrite (listDirectory_loop_filled pf data _ t Hrec t count 0%nat);
    [|lia|lia|destruct Hend; [left; lia|by right]].
  eexists. split; [reflexivity|].
  cbn [add_trace log w_trace].
  unfold records. rewrite firstn_map, take_seq, Nat.min_l by lia.
  rewrite <- !app_assoc. done.
Qed.

Lemma listDirectory_lists_one_cluster_witness :
  exists w',
    listDirectory Examples.pf_unsigned 3 Examples.contextC Examples.bsiC
      (Examples.world_with Examples.imageC O_RDONLY) = Ret tt w' /\
    w_trace w' =
      [EvSeek 3 3584 3584; EvRead 3 512 512;
       EvStdout ("." ++ nl ++ ".." ++ nl);
       EvStdout (".          " ++ nl);
       EvStdout ("..         " ++ nl);
       EvStdout ("NOTES   TXT" ++ nl)].
Proof.
  destruct (proj2 (listDirectory_lists_one_cluster Examples.pf_unsigned 3
                     Examples.contextC Examples.bsiC
                     (Examples.world_with Examples.imageC O_RDONLY))
              {| fd_path := "fat32.img"; fd_pos := 0; fd_mode := O_RDONLY |}
              Examples.imageC 3%nat)
    as (w' & Hrun & Htrace).
  - unfold bsi_in_range. simpl. lia.
  - reflexivity.
  - reflexivity.
  - reflexivity.
  - reflexivity.
  - vm_compute. discriminate.
  - vm_compute. lia.
  - right. vm_compute. reflexivity.
  - intros j Hj.
    destruct j as [|[|[|j]]]; [| | |lia];
      (split; [vm_compute; lia|]); eexists; (split; [vm_compute; reflexivity|discriminate]).
  - exists w'. split; [exact Hrun|]. rewrite Htrace. vm_compute. reflexivity.
Defined.

(** C2 as stated fails on volume B, whose root directory is the chain
    19 -> 20 with one record per cluster: the specified list() yields
    ".", "..", FIRST and SECOND; listDirectory prints ".", ".." and FIRST,
    the entry of the second cluster is never read. *)
Lemma listDirectory_not_as_specified :
  ~ lists_as_specified Examples.pf_unsigned Examples.geometryB Examples.imageB 3
      Examples.contextB Examples.bsiB
      (Examples.world_with Examples.imageB O_RDONLY).
Proof.
  intros (names & Hnames & Hout).
  vm_compute in Hnames. injection Hnames as <-.
  vm_compute in Hout. discriminate Hout.
Qed.

(** what listDirectory does on volume B *)
Example listDirectory_imageB :
  w_trace (final_world (listDirectory Examples.pf_unsigned 3 Examples.contextB
                          Examples.bsiB
                          (Examples.world_with Examples.imageB O_RDONLY))) =
  [EvSeek 3 1152 1152; EvRead 3 32 32;
   EvStdout ("." ++ nl ++ ".." ++ nl); EvStdout ("FIRST      " ++ nl)].
Proof. vm_compute. reflexivity. Qed.

(** where plain [char] is signed the 0xE5 test matches no record *)
Lemma deleted_signed pf r : char_signed pf = true -> deleted pf r = false.
Proof. intros Hs. destruct r as [|b r]; [done|]. by apply name0_is_e5_signed. Qed.

(** the deleted record of volume E is skipped where plain [char] is
    unsigned, and listed where it is signed *)
Example listDirectory_imageE :
  stdout_of (w_trace (final_world
     (listDirectory Examples.pf_unsigned 3 Examples.contextC Examples.bsiC
        (Examples.world_with Examples.imageE O_RDONLY)))) =
  ("." ++ nl ++ ".." ++ nl ++ "KEEP       " ++ nl ++ "LAST       " ++ nl)%string /\
  stdout_of (w_trace (final_world
     (listDirectory Examples.pf_signed 3 Examples.contextC Examples.bsiC
        (Examples.world_with Examples.imageE O_RDONLY)))) =
  ("." ++ nl ++ ".." ++ nl ++ "KEEP       " ++ nl
   ++ string_of_bytes (xe5 :: bytes_of_string "ONE    TXT") ++ nl
   ++ "LAST       " ++ nl)%string.
Proof. split; vm_compute; reflexivity. Qed.

(** a directory in the 32-byte on-disk format (volume D) is not listed by
    its entries: the second record of the source starts at byte 40, inside
    the ".." entry *)
Example listDirectory_imageD :
  stdout_of (w_trace (final_world
     (listDirectory Examples.pf_unsigned 3 Examples.contextC Examples.bsiC
        (Examples.world_with Examples.imageD O_RDONLY)))) =
  ("." ++ nl ++ ".." ++ nl ++ ".          " ++ nl
   ++ string_of_bytes (bytes_of_string "   " ++ [x10]) ++ nl)%string.
Proof. vm_compute. reflexivity. Qed.

(** * createDirectory *)

Lemma byte_val_byte_of z : byte_val (byte_of z) = z mod 256.
Proof.
  unfold byte_val, byte_of.
  pose proof (Z.mod_pos_bound z 256 ltac:(lia)) as Hm.
  destruct (Byte.of_N (Z.to_N (z mod 256))) as [b|] eqn:Hb.
  - apply Byte.to_of_N in Hb. rewrite Hb. lia.
  - apply Byte.of_N_None_iff in Hb. lia.
Qed.

Lemma le16_bytes_le16 z b0 b1 :
  0 <= z < 2^16 -> bytes_le16 z = [b0; b1] -> le16 b0 b1 = z.
Proof.
  intros Hz [= <- <-]. unfold le16. rewrite !byte_val_byte_of.
  change (2^8) with 256.
  rewrite (Z.mod_small (z / 256)) by (split; [apply Z.div_pos; lia|
                                             apply Z.div_lt_upper_bound; lia]).
  pose proof (Z.div_mod z 256 ltac:(lia)). lia.
Qed.

(** the two halves stored by createDirectory make up the cluster number *)
Lemma halves_combine cur :
  0 <= cur < 2^32 ->
  Z.lor (Z.shiftl (Z.land (Z.shiftr cur 16) 65535) 16) (Z.land cur 65535) = cur.
Proof.
  intros Hc.
  change 65535 with (Z.ones 16).
  rewrite !Z.land_ones, Z.shiftr_div_pow2, Z.shiftl_mul_pow2 by lia.
  assert (Hhi : 0 <= cur / 2^16 < 2^16).
  { split; [apply Z.div_pos; lia|apply Z.div_lt_upper_bound; lia]. }
  rewrite (Z.mod_small (cur / 2^16)) by done.
  rewrite <- Z.shiftl_mul_pow2 by lia.
  rewrite <- Z.lxor_lor.
  - rewrite <- Z.add_nocarry_lxor.
    + rewrite Z.shiftl_mul_pow2 by lia.
      pose proof (Z.div_mod cur (2^16) ltac:(lia)). lia.
    + apply Z.bits_inj'. intros n Hn. rewrite Z.land_spec, Z.bits_0.
      destruct (Z.lt_ge_cases n 16).
      * rewrite Z.shiftl_spec_low by done. done.
      * rewrite (Z.mod_pow2_bits_high cur 16 n) by lia. apply andb_false_r.
  - apply Z.bits_inj'. intros n Hn. rewrite Z.land_spec, Z.bits_0.
    destruct (Z.lt_ge_cases n 16).
    + rewrite Z.shiftl_spec_low by done. done.
    + rewrite (Z.mod_pow2_bits_high cur 16 n) by lia. apply andb_false_r.
Qed.

Lemma length_write_at data p bs :
  (p + length bs <= length data)%nat -> length (write_at data p bs) = length data.
Proof.
  intros H. unfold write_at. rewrite !length_app, length_take, length_drop. lia.
Qed.

Lemma lookup_write_at_in data p bs q :
  (p + length bs <= length data)%nat -> (p <= q < p + length bs)%nat ->
  write_at data p bs !! q = bs !! (q - p)%nat.
Proof.
  intros H Hq. unfold write_at.
  rewrite lookup_app_r by (rewrite length_take; lia).
  rewrite length_take, Nat.min_l by lia.
  apply lookup_app_l. lia.
Qed.

Lemma lookup_write_at_out data p bs q :
  (p + length bs <= length data)%nat -> (q < p \/ p + length bs <= q)%nat ->
  write_at data p bs !! q = data !! q.
Proof.
  intros H Hq. unfold write_at. destruct Hq as [Hq|Hq].
  - rewrite lookup_app_l by (rewrite length_take; lia).
    by apply lookup_take_lt.
  - rewrite lookup_app_r by (rewrite length_take; lia).
    rewrite length_take, Nat.min_l by lia.
    rewrite lookup_app_r by lia.
    rewrite lookup_drop. f_equal. lia.
Qed.

Lemma store_filled data (p : nat) b w :
  (p < length data)%nat ->
  store (Some <$> data) (Z.of_nat p) b w = Ret (Some <$> write_at data p [b]) w.
Proof.
  intros Hp. unfold store. rewrite length_fmap.
  destruct (Z.leb_spec 0 (Z.of_nat p)); [|lia].
  destruct (Z.ltb_spec (Z.of_nat p) (Z.of_nat (length data))); [|lia].
  cbn [andb]. rewrite Nat2Z.id, <- list_fmap_insert.
  rewrite insert_take_drop by done. unfold write_at. simpl.
  by rewrite Nat.add_1_r.
Qed.

Lemma write_at_cons data p b bs :
  (p + S (length bs) <= length data)%nat ->
  write_at (write_at data p [b]) (S p) bs = write_at data p (b :: bs).
Proof.
  intros H.
  assert (Hlen : length (write_at data p [b]) = length data)
    by (apply length_write_at; simpl; lia).
  apply list_eq. intros q.
  destruct (decide (q < p)%nat) as [Hq|Hq].
  { rewrite !lookup_write_at_out by (simpl; lia). done. }
  destruct (decide (q = p)) as [->|Hne].
  { rewrite lookup_write_at_out by lia.
    rewrite !lookup_write_at_in by (simpl; lia).
    by rewrite Nat.sub_diag. }
  destruct (decide (q < S p + length bs)%nat) as [Hin|Hout].
  - rewrite !lookup_write_at_in by (simpl; lia).
    replace (q - p)%nat with (S (q - S p)) by lia. done.
  - rewrite !lookup_write_at_out by (simpl; lia). done.
Qed.

Lemma write_at_nil data p : write_at data p [] = data.
Proof. unfold write_at. simpl. rewrite Nat.add_0_r. apply take_drop. Qed.

Lemma store_bytes_filled bs : forall data (p : nat) w,
  (p + length bs <= length data)%nat ->
  store_bytes (Some <$> data) (Z.of_nat p) bs w
    = Ret (Some <$> write_at data p bs) w.
Proof.
  induction bs as [|b bs IH]; intros data p w Hlen.
  - cbn [store_bytes]. by rewrite write_at_nil.
  - cbn [store_bytes]. simpl in Hlen.
    erewrite bind_Ret by (apply store_filled; lia).
    replace (Z.of_nat p + 1) with (Z.of_nat (S p)) by lia.
    rewrite IH by (rewrite length_write_at by (simpl; lia); lia).
    by rewrite write_at_cons by lia.
Qed.

Lemma length_bytes_le16 z : length (bytes_le16 z) = 2%nat.
Proof. done. Qed.

Lemma length_bytes_le32 z : length (bytes_le32 z) = 4%nat.
Proof. done. Qed.

Lemma length_strncpy_bytes src n : length (strncpy_bytes src n) = n.
Proof.
  unfold strncpy_bytes. rewrite length_app, length_take, length_replicate. lia.
Qed.

Lemma load_all data (i : nat) b w :
  data !! i = Some b -> load (Some <$> data) (Z.of_nat i) w = Ret b w.
Proof.
  intros Hb. rewrite <- (app_nil_r (Some <$> data)). by apply load_filled.
Qed.

Lemma all_bytes_fmap data : all_bytes (Some <$> data) = Some data.
Proof.
  induction data as [|b data IH]; [done|].
  rewrite fmap_cons. cbn [all_bytes]. by rewrite IH.
Qed.

(** the intermediate buffers of [fill_record] all have the length of the
    cluster *)
Lemma fill_record_lengths data t name cur :
  (40 * t + 40 <= length data)%nat ->
  let d1 := write_at data (40 * t) (strncpy_bytes name 11) in
  let d2 := write_at d1 (40 * t + 11) [byte_of ATTR_DIRECTORY] in
  let d3 := write_at d2 (40 * t + 34) (bytes_le16 (Z.land cur 65535)) in
  let d4 := write_at d3 (40 * t + 32)
              (bytes_le16 (Z.land (Z.shiftr cur 16) 65535)) in
  length d1 = length data /\ length d2 = length data /\
  length d3 = length data /\ length d4 = length data /\
  length (fill_record data t name cur) = length data.
Proof.
  intros H d1 d2 d3 d4.
  assert (H1 : length d1 = length data)
    by (apply length_write_at; rewrite length_strncpy_bytes; lia).
  assert (H2 : length d2 = length data)
    by (unfold d2; rewrite length_write_at; [done|cbn [length]; lia]).
  assert (H3 : length d3 = length data)
    by (unfold d3; rewrite length_write_at;
        [done|rewrite length_bytes_le16; lia]).
  assert (H4 : length d4 = length data)
    by (unfold d4; rewrite length_write_at;
        [done|rewrite length_bytes_le16; lia]).
  repeat split; try done.
  unfold fill_record. fold d1 d2 d3 d4.
  rewrite length_write_at; [done|rewrite length_bytes_le32; lia].
Qed.

Lemma fill_entry_filled data (t : nat) name cur w :
  (40 * t + 40 <= length data)%nat ->
  fill_entry (Some <$> data) (Z.of_nat t * sizeof_DirEntry) name cur w
    = Ret (Some <$> fill_record data t name cur) w.
Proof.
  intros H.
  destruct (fill_record_lengths data t name cur H) as (H1 & H2 & H3 & H4 & _).
  unfold fill_entry, fill_record, sizeof_DirEntry, off_name, off_attr,
    off_firstClusterLow, off_firstClusterHigh, off_fileSize.
  replace (Z.of_nat t * 40 + 0) with (Z.of_nat (40 * t)) by lia.
  replace (Z.of_nat t * 40 + 11) with (Z.of_nat (40 * t + 11)) by lia.
  replace (Z.of_nat t * 40 + 34) with (Z.of_nat (40 * t + 34)) by lia.
  replace (Z.of_nat t * 40 + 32) with (Z.of_nat (40 * t + 32)) by lia.
  replace (Z.of_nat t * 40 + 36) with (Z.of_nat (40 * t + 36)) by lia.
  erewrite bind_Ret
    by (apply store_bytes_filled; rewrite length_strncpy_bytes; lia).
  erewrite bind_Ret by (apply store_filled; lia).
  erewrite bind_Ret
    by (apply store_bytes_filled; rewrite length_bytes_le16; lia).
  erewrite bind_Ret
    by (apply store_bytes_filled; rewrite length_bytes_le16; lia).
  apply store_bytes_filled. rewrite length_bytes_le32. lia.
Qed.

(** The loop of createDirectory on a buffer that holds [data]: it passes
    the records before [t], none of which its test takes for free, and
    fills record [t], which it does. *)
Lemma createDirectory_loop_filled pf data name cur (t : nat) :
  (40 * t + 40 <= length data)%nat ->
  (exists b, data !! (40 * t)%nat = Some b /\ free_slot pf b = true) ->
  (forall j, (j < t)%nat ->
     exists b, data !! (40 * j)%nat = Some b /\ free_slot pf b = false) ->
  forall (m k i : nat) w,
    (i + m = t)%nat -> (m < k)%nat ->
    createDirectory_loop pf (Some <$> data) (Some name) cur k (Z.of_nat i) w
    = Ret (true, Some <$> fill_record data t name cur) w.
Proof.
  intros Hlen (bt & Hbt & Hfree) Hbefore.
  induction m as [|m IH]; intros k i w Hi Hk.
  - destruct k as [|k]; [lia|]. replace i with t by lia.
    cbn [createDirectory_loop]. rewrite entry_offset.
    erewrite bind_Ret by (by apply load_all).
    unfold free_slot in Hfree. rewrite Hfree.
    erewrite bind_Ret by (by apply fill_entry_filled). done.
  - destruct k as [|k]; [lia|].
    destruct (Hbefore i) as (b & Hb & Hnot); [lia|].
    cbn [createDirectory_loop]. rewrite entry_offset.
    erewrite bind_Ret by (by apply load_all).
    unfold free_slot in Hnot. rewrite Hnot.
    replace (Z.of_nat i + 1) with (Z.of_nat (S i)) by lia.
    apply IH; lia.
Qed.

Lemma land_16_range x : 0 <= Z.land x 65535 < 2^16.
Proof.
  change 65535 with (Z.ones 16). rewrite Z.land_ones by lia.
  apply Z.mod_pos_bound. lia.
Qed.

Ltac look_through :=
  repeat first
    [ rewrite lookup_write_at_out
        by (rewrite ?length_bytes_le16, ?length_bytes_le32, ?length_strncpy_bytes;
            cbn [length]; lia)
    | rewrite lookup_write_at_in
        by (rewrite ?length_bytes_le16, ?length_bytes_le32, ?length_strncpy_bytes;
            cbn [length]; lia) ].

Ltac field_byte k :=
  apply nth_lookup_Some; unfold fill_record; look_through;
  match goal with |- _ !! ?i = _ => replace i with k by lia end;
  reflexivity.

(** What createDirectory leaves in the record it fills, and outside it. *)
Lemma fill_record_fields data t name cur :
  (40 * t + 40 <= length data)%nat -> 0 <= cur < 2^32 ->
  let data' := fill_record data t name cur in
  length data' = length data /\
  entry_attr data' t = ATTR_DIRECTORY /\
  entry_firstCluster data' t = cur /\
  entry_fileSize data' t = 0 /\
  forall q, (q < 40 * t \/ 40 * t + 40 <= q)%nat -> data' !! q = data !! q.
Proof.
  intros H Hcur data'.
  destruct (fill_record_lengths data t name cur H) as (H1 & H2 & H3 & H4 & H5).
  split; [exact H5|]. subst data'.
  split; [|split; [|split]].
  - unfold entry_attr.
    rewrite (nth_lookup_Some _ _ _ (byte_of ATTR_DIRECTORY)); [reflexivity|].
    unfold fill_record. look_through.
    by rewrite Nat.sub_diag.
  - unfold entry_firstCluster, entry_firstClusterHigh, entry_firstClusterLow.
    rewrite (le16_bytes_le16 (Z.land (Z.shiftr cur 16) 65535)
               (nth (40 * t + 32) (fill_record data t name cur) x00)
               (nth (40 * t + 33) (fill_record data t name cur) x00)).
    + rewrite (le16_bytes_le16 (Z.land cur 65535)
                 (nth (40 * t + 34) (fill_record data t name cur) x00)
                 (nth (40 * t + 35) (fill_record data t name cur) x00)).
      * by apply halves_combine.
      * apply land_16_range.
      * unfold bytes_le16. f_equal; [|f_equal]; symmetry.
        -- field_byte 0%nat.
        -- field_byte 1%nat.
    + apply land_16_range.
    + unfold bytes_le16. f_equal; [|f_equal]; symmetry.
      * field_byte 0%nat.
      * field_byte 1%nat.
  - unfold entry_fileSize.
    replace (nth (40 * t + 36) (fill_record data t name cur) x00) with x00
      by (symmetry; field_byte 0%nat).
    replace (nth (40 * t + 37) (fill_record data t name cur) x00) with x00
      by (symmetry; field_byte 1%nat).
    replace (nth (40 * t + 38) (fill_record data t name cur) x00) with x00
      by (symmetry; field_byte 2%nat).
    replace (nth (40 * t + 39) (fill_record data t name cur) x00) with x00
      by (symmetry; field_byte 3%nat).
    reflexivity.
  - intros q Hq. unfold fill_record. look_through. done.
Qed.

Lemma to_int_small x : 0 <= x < 2^31 -> to_int x = x.
Proof.
  intros H. unfold to_int, u32. rewrite Z.mod_small by lia.
  destruct (Z.ltb_spec x (2^31)); lia.
Qed.

Lemma sys_write_ok fd bytes d data w :
  w_fds w !! fd = Some d -> w_files w !! fd_path d = Some data ->
  writable (fd_mode d) = true ->
  sys_write fd bytes w =
    Ret (Z.of_nat (length bytes))
      (log (EvWrite fd bytes (Z.of_nat (length bytes)))
         {| w_files := <[fd_path d := file_store data (fd_pos d) bytes]> (w_files w);
            w_fds := <[fd := {| fd_path := fd_path d;
                                fd_pos := fd_pos d + Z.of_nat (length bytes);
                                fd_mode := fd_mode d |}]> (w_fds w);
            w_trace := w_trace w |}).
Proof. intros Hd Hf Hw. unfold sys_write. by rewrite Hd, Hf, Hw. Qed.

Lemma writeback_offset_nonneg context bsi : 0 <= writeback_offset context bsi.
Proof. unfold writeback_offset, u32. apply Z.mod_pos_bound. lia. Qed.

Lemma cluster_bytes_range bsi : bsi_in_range bsi -> 0 <= cluster_bytes bsi < 2^24.
Proof. intros (Hb & Hs & _). unfold cluster_bytes. nia. Qed.

(** C3, as the source has it.  When createDirectory finds a record of the
    cluster of the current directory that its test takes for free (first
    name byte 0x00, or equal to 0xE5 under the comparison of the source),
    the first such record gets the directory attribute 0x10, first-cluster
    high and low halves that make up the cluster number of the current
    directory itself, and file size 0; nothing outside that record changes
    in the cluster, which is written back by one [write] at the write-back
    offset.  No cluster is allocated, zero-filled or given bootstrap
    entries: the file differs by that one write only.  Both offsets are
    ones the file system accepts. *)
Theorem createDirectory_writes_entry pf fd d image name context bsi w (t : nat) :
  bsi_in_range bsi -> 0 <= currentCluster context < 2^32 ->
  malloc_fails pf (cluster_bytes bsi) = false ->
  w_fds w !! fd = Some d -> w_files w !! fd_path d = Some image ->
  fd_mode d = O_RDWR ->
  let off := cluster_offset bsi (currentCluster context) in
  let wb := writeback_offset context bsi in
  let n := cluster_bytes bsi in
  let data := file_slice image off n in
  off <= max_offset pf -> wb <= max_offset pf ->
  length data = Z.to_nat n ->
  (t < Z.to_nat (n / sizeof_DirEntry))%nat ->
  (exists b, data !! (40 * t)%nat = Some b /\ free_slot pf b = true) ->
  (forall j, (j < t)%nat ->
     exists b, data !! (40 * j)%nat = Some b /\ free_slot pf b = false) ->
  exists data' w',
    createDirectory pf fd (Some name) context bsi w = Ret tt w' /\
    w_trace w' = w_trace w ++ [EvSeek fd off off; EvRead fd n n;
                               EvSeek fd wb wb; EvWrite fd data' n] /\
    w_files w' = <[fd_path d := file_store image wb data']> (w_files w) /\
    length data' = length data /\
    entry_attr data' t = ATTR_DIRECTORY /\
    entry_firstCluster data' t = currentCluster context /\
    entry_fileSize data' t = 0 /\
    (forall q, (q < 40 * t \/ 40 * t + 40 <= q)%nat -> data' !! q = data !! q).
Proof.
  intros Hr Hcur Hmalloc Hd Hf Hmode off wb n data Hmax Hwbmax Hlen Ht Hfree Hbefore.
  pose proof Hr as (Hb & _).
  pose proof (cluster_bytes_range bsi Hr) as Hn. fold n in Hn.
  assert (Hfit : (40 * t + 40 <= length data)%nat).
  { rewrite Hlen. unfold sizeof_DirEntry in Ht.
    pose proof (Z.mul_div_le n 40 ltac:(lia)). lia. }
  destruct (fill_record_fields data t name (currentCluster context) Hfit Hcur)
    as (Hl' & Hattr & Hfirst & Hsize & Hout).
  exists (fill_record data t name (currentCluster context)).
  unfold createDirectory. rewrite Hmalloc.
  erewrite bind_Ret
    by (eapply readCluster_malloc_ok; [done|done|done|by rewrite Hmode|done]).
  cbv beta iota. cbn [negb]. fold off n data.
  unfold filled, malloc. fold n.
  rewrite drop_ge, app_nil_r by (rewrite length_replicate; lia).
  rewrite to_int_small.
  2:{ unfold sizeof_DirEntry. split; [apply Z.div_pos; lia|].
      apply Z.div_lt_upper_bound; lia. }
  change 0 with (Z.of_nat 0) at 1.
  erewrite bind_Ret
    by (eapply (createDirectory_loop_filled pf data name _ t Hfit Hfree Hbefore t);
        lia).
  cbv beta iota. cbn [negb]. fold wb.
  erewrite bind_Ret.
  2:{ eapply sys_lseek_ok;
        [|split; [apply writeback_offset_nonneg|exact Hwbmax]].
      cbn [w_fds]. by rewrite lookup_insert_eq. }
  rewrite take_ge by (rewrite length_fmap; lia).
  rewrite all_bytes_fmap.
  erewrite bind_Ret.
  2:{ eapply sys_write_ok.
      - cbn [log w_fds]. by rewrite lookup_insert_eq.
      - cbn [log w_files fd_path]. exact Hf.
      - cbn [fd_mode]. by rewrite Hmode. }
  eexists. split; [reflexivity|].
  cbn [log w_trace w_files fd_path fd_pos].
  assert (Hn' : Z.of_nat (length data) = n) by lia.
  rewrite Hl', Hn'. rewrite <- !app_assoc.
  repeat split; try done.
Qed.

Lemma createDirectory_writes_entry_witness :
  exists data' w',
    createDirectory Examples.pf_unsigned 3 (Some (bytes_of_string "NEWDIR"))
      Examples.contextC Examples.bsiC
      (Examples.world_with Examples.imageC O_RDWR) = Ret tt w' /\
    w_trace w' = [EvSeek 3 3584 3584; EvRead 3 512 512;
                  EvSeek 3 3584 3584; EvWrite 3 data' 512] /\
    entry_attr data' 3 = 16 /\
    entry_firstCluster data' 3 = 7 /\
    entry_fileSize data' 3 = 0.
Proof.
  destruct (createDirectory_writes_entry Examples.pf_unsigned 3
              {| fd_path := "fat32.img"; fd_pos := 0; fd_mode := O_RDWR |}
              Examples.imageC (bytes_of_string "NEWDIR")
              Examples.contextC Examples.bsiC
              (Examples.world_with Examples.imageC O_RDWR) 3%nat)
    as (data' & w' & Hrun & Htrace & _ & _ & Hattr & Hfirst & Hsize & _).
  - unfold bsi_in_range. simpl. lia.
  - simpl. lia.
  - reflexivity.
  - reflexivity.
  - reflexivity.
  - reflexivity.
  - vm_compute. discriminate.
  - vm_compute. discriminate.
  - vm_compute. reflexivity.
  - vm_compute. lia.
  - exists x00. split; vm_compute; reflexivity.
  - intros j Hj.
    destruct j as [|[|[|j]]]; [| | |lia];
      eexists; (split; [vm_compute; reflexivity|vm_compute; reflexivity]).
  - exists data', w'. repeat split; assumption.
Defined.

(** C3 as stated fails on volume C.  In the subdirectory at cluster 7,
    createDirectory("newdir") fills record 3 with the first-cluster fields
    of cluster 7, the current directory itself, not of a fresh cluster; the
    name stored is the argument padded with NULs, not the validated
    "NEWDIR     "; and the image changes nowhere outside the cluster of the
    current directory, so no other cluster was zero-filled or given
    bootstrap entries. *)
Lemma createDirectory_not_as_specified :
  ~ creates_as_specified Examples.pf_unsigned 3 (bytes_of_string "newdir")
      Examples.contextC Examples.bsiC
      (Examples.world_with Examples.imageC O_RDWR) "fat32.img" 3 2 /\
  exists w' image',
    createDirectory Examples.pf_unsigned 3 (Some (bytes_of_string "newdir"))
      Examples.contextC Examples.bsiC
      (Examples.world_with Examples.imageC O_RDWR) = Ret tt w' /\
    w_files w' !! "fat32.img"%string = Some image' /\
    entry_firstCluster (file_slice image' 3584 512) 3
      = currentCluster Examples.contextC /\
    record_name (file_slice image' 3584 512) 3
      = bytes_of_string "newdir" ++ replicate 5 x00 /\
    SpecModel.formatShortName (bytes_of_string "newdir")
      = Some (bytes_of_string "NEWDIR     ") /\
    take 3584 image' = take 3584 Examples.imageC /\
    drop 4096 image' = drop 4096 Examples.imageC.
Proof.
  split.
  - unfold creates_as_specified.
    intros (w' & image' & fresh & Hrun & Hfile & Hfresh & H).
    vm_compute in Hrun. injection Hrun as <-.
    vm_compute in Hfile. injection Hfile as <-.
    cbv zeta in H. destruct H as (_ & _ & Hfirst & _).
    vm_compute in Hfirst. apply Hfresh. by rewrite <- Hfirst.
  - eexists. eexists. split; [vm_compute; reflexivity|].
    split; [vm_compute; reflexivity|].
    repeat split; vm_compute; reflexivity.
Qed.

(** * changeDirectory *)

(** C5.  changeDirectory(".") returns at once and leaves the context and
    the world as they were.  changeDirectory("..") does not move to the
    parent.  On volume C, in the subdirectory at cluster 7 whose ".." record
    names cluster 5, the source finds that record, reports nothing, and
    leaves the current cluster at 7 and the path as it was.  On volume D,
    the same subdirectory in the 32-byte on-disk format, it does not even
    find the record and prints "Directory not found: ..". *)
Theorem changeDirectory_dot_and_dotdot :
  (forall pf fd context bsi w,
     changeDirectory pf fd (bytes_of_string ".") context bsi w = Ret context w) /\
  (entry_firstCluster Examples.dirC 1 = 5 /\
   exists w',
     changeDirectory Examples.pf_unsigned 3 (bytes_of_string "..")
       Examples.contextC Examples.bsiC
       (Examples.world_with Examples.imageC O_RDONLY) = Ret Examples.contextC w' /\
     w_trace w' = [EvSeek 3 3584 3584; EvRead 3 512 512]) /\
  (exists w',
     changeDirectory Examples.pf_unsigned 3 (bytes_of_string "..")
       Examples.contextC Examples.bsiC
       (Examples.world_with Examples.imageD O_RDONLY) = Ret Examples.contextC w' /\
     w_trace w' = [EvSeek 3 3584 3584; EvRead 3 512 512;
                   EvStdout ("Directory not found: .." ++ nl)]).
Proof.
  split; [|split].
  - intros pf fd context bsi w. reflexivity.
  - split; [vm_compute; reflexivity|].
    eexists. split; vm_compute; reflexivity.
  - eexists. split; vm_compute; reflexivity.
Qed.

(** a child directory is entered through the entry that names it; on the
    hosts of the examples the path comes out as "/" and the name, the old
    path "/SUB" is lost *)
Example changeDirectory_child :
  returned (changeDirectory Examples.pf_unsigned 3 (bytes_of_string ".          ")
              Examples.contextC Examples.bsiC
              (Examples.world_with Examples.imageC O_RDONLY)) =
  Some {| currentCluster := 7;
          path := bytes_of_string "/.          ";
          imageName := bytes_of_string "fat32.img" |}.
Proof. vm_compute. reflexivity. Qed.

(** * A session *)

(** a session on volume C: [ls], [mkdir], [cd], an unknown command, [exit];
    the geometry record holds what volume C would give, had it been read *)
Example main_session :
  let o := main Examples.pf_unsigned ["./filesys"; "fat32.img"]%string
             (map bytes_of_string
                [("ls" ++ nl)%string; ("mkdir NEWDIR" ++ nl)%string;
                 ("cd SUB" ++ nl)%string; ("dir" ++ nl)%string;
                 ("exit" ++ nl)%string])
             Examples.bsiC (Examples.world_closed Examples.imageC) in
  returned o = Some 0 /\
  w_files (final_world o) = w_files (Examples.world_closed Examples.imageC) /\
  exists data,
    w_trace (final_world o) =
    [EvOpen "fat32.img" O_RDONLY 3;
     EvStdout "[fat32.img/]/> ";
     EvSeek 3 1024 1024; EvRead 3 512 512;
     EvStdout ("." ++ nl ++ ".." ++ nl);
     EvStdout "[fat32.img/]/> ";
     EvSeek 3 1024 1024; EvRead 3 512 512;
     EvSeek 3 1024 1024; EvWrite 3 data (-1);
     EvStdout "[fat32.img/]/> ";
     EvStdout "[fat32.img/]/> ";
     EvStdout ("Unknown command" ++ nl);
     EvStdout "[fat32.img/]/> ";
     EvClose 3].
Proof.
  split; [vm_compute; reflexivity|].
  split; [vm_compute; reflexivity|].
  eexists. vm_compute. reflexivity.
Qed.

(** * Error paths of the cluster read *)

Lemma sys_lseek_closed pf fd off w :
  w_fds w !! fd = None ->
  sys_lseek pf fd off w = Ret (-1) (add_trace w [EvSeek fd off (-1)]).
Proof. intros H. unfold sys_lseek. by rewrite H. Qed.

Lemma readCluster_closed pf bsi c fd buffer w :
  w_fds w !! fd = None ->
  readCluster pf fd c buffer bsi w
  = Ret (false, buffer)
      (add_trace w [EvSeek fd (cluster_offset bsi c) (-1);
                    EvPerror "Error seeking cluster"]).
Proof.
  intros H. unfold readCluster.
  erewrite bind_Ret by (by apply sys_lseek_closed).
  cbn [Z.ltb Z.compare]. unfold perror, emit.
  erewrite bind_Ret by reflexivity.
  by rewrite log_add_trace, add_trace_app.
Qed.

(** When the descriptor is not open, readCluster fails at the seek: it
    reports "Error seeking cluster", returns false, attempts no read and
    leaves the buffer as it was. *)
Theorem readCluster_fails_on_closed_descriptor pf bsi c fd buffer w :
  w_fds w !! fd = None ->
  readCluster pf fd c buffer bsi w
  = Ret (false, buffer)
      (add_trace w [EvSeek fd (cluster_offset bsi c) (-1);
                    EvPerror "Error seeking cluster"]).
Proof. apply readCluster_closed. Qed.

Lemma readCluster_fails_on_closed_descriptor_witness :
  returned (readCluster Examples.pf_signed 3 2 [] Examples.bsiA
              (Examples.world_closed Examples.imageA))
  = Some (false, []).
Proof.
  rewrite (readCluster_fails_on_closed_descriptor Examples.pf_signed
             Examples.bsiA 2 3 []
             (Examples.world_closed Examples.imageA)); reflexivity.
Defined.

(** On a descriptor that cannot be read (opened write-only) the seek, to
    an offset the file system accepts, succeeds and the read fails:
    readCluster reports "Error reading cluster", returns false and leaves
    the buffer as it was. *)
Theorem readCluster_fails_on_unreadable_descriptor pf bsi c fd d data buffer w :
  0 <= bytesPerSector bsi < 2^16 ->
  w_fds w !! fd = Some d -> w_files w !! fd_path d = Some data ->
  fd_mode d = O_WRONLY ->
  let off := cluster_offset bsi c in
  off <= max_offset pf ->
  exists w',
    readCluster pf fd c buffer bsi w = Ret (false, buffer) w' /\
    w_trace w' = w_trace w ++ [EvSeek fd off off;
                               EvRead fd (cluster_bytes bsi) (-1);
                               EvPerror "Error reading cluster"] /\
    w_files w' = w_files w.
Proof.
  intros Hb Hd Hf Hm off Hmax.
  pose proof (cluster_offset_nonneg bsi c Hb) as Hoff.
  unfold readCluster.
  erewrite bind_Ret by (by apply sys_lseek_ok).
  destruct (Z.ltb_spec (cluster_offset bsi c) 0) as [?|_]; [lia|].
  unfold sys_read at 1. unfold mbind at 1, M_bind, bind.
  cbn [log w_fds w_files]. rewrite lookup_insert_eq. cbn [fd_path fd_mode].
  rewrite Hf, Hm. cbn [readable]. cbn [Z.ltb Z.compare].
  unfold perror, emit. erewrite bind_Ret by reflexivity.
  eexists. split; [reflexivity|]. split; [|reflexivity].
  cbn [log w_trace]. by rewrite <- !app_assoc.
Qed.

Lemma readCluster_fails_on_unreadable_descriptor_witness :
  exists w',
    readCluster Examples.pf_signed 3 2 [] Examples.bsiA
      (Examples.world_with Examples.imageA O_WRONLY)
    = Ret (false, []) w'.
Proof.
  destruct (readCluster_fails_on_unreadable_descriptor Examples.pf_signed
              Examples.bsiA 2 3
              {| fd_path := "fat32.img"; fd_pos := 0; fd_mode := O_WRONLY |}
              Examples.imageA [] (Examples.world_with Examples.imageA O_WRONLY))
    as (w' & Hrun & _).
  - simpl. lia.
  - reflexivity.
  - reflexivity.
  - reflexivity.
  - vm_compute. discriminate.
  - by exists w'.
Defined.

Lemma file_slice_past_end data off n :
  Z.of_nat (length data) <= off -> file_slice data off n = [].
Proof.
  intros H. unfold file_slice. rewrite drop_ge by lia. apply take_nil.
Qed.

(** A cluster that starts at or after the end of the image, at an offset
    the file system accepts, is "read" without error: read delivers no
    byte, readCluster returns true and the buffer is left as it was. *)
Theorem readCluster_past_end_succeeds pf bsi c fd d data buffer w :
  0 <= bytesPerSector bsi < 2^16 ->
  w_fds w !! fd = Some d -> w_files w !! fd_path d = Some data ->
  readable (fd_mode d) = true ->
  Z.of_nat (length data) <= cluster_offset bsi c <= max_offset pf ->
  let off := cluster_offset bsi c in
  exists w',
    readCluster pf fd c buffer bsi w = Ret (true, buffer) w' /\
    w_trace w' = w_trace w ++ [EvSeek fd off off; EvRead fd (cluster_bytes bsi) 0].
Proof.
  intros Hb Hd Hf Hr [Hend Hmax] off.
  pose proof (file_slice_past_end data (cluster_offset bsi c) (cluster_bytes bsi) Hend)
    as Hgot.
  rewrite (readCluster_ok pf bsi c fd d data buffer w Hb Hd Hf Hr Hmax)
    by (rewrite Hgot; cbn [length]; lia).
  rewrite Hgot.
  eexists. split; [reflexivity|]. reflexivity.
Qed.

Lemma readCluster_past_end_succeeds_witness :
  exists w',
    readCluster Examples.pf_signed 3 9 [None; None] Examples.bsiA
      (Examples.world_with Examples.imageA O_RDONLY) = Ret (true, [None; None]) w'.
Proof.
  destruct (readCluster_past_end_succeeds Examples.pf_signed Examples.bsiA 9 3
              {| fd_path := "fat32.img"; fd_pos := 0; fd_mode := O_RDONLY |}
              Examples.imageA [None; None]
              (Examples.world_with Examples.imageA O_RDONLY))
    as (w' & Hrun & _).
  - simpl. lia.
  - reflexivity.
  - reflexivity.
  - reflexivity.
  - split; vm_compute; discriminate.
  - by exists w'.
Defined.

(** Beyond the largest offset the file system accepts the seek fails, also
    on an open descriptor: readCluster reports "Error seeking cluster",
    returns false, makes no read and leaves the buffer as it was. *)
Theorem readCluster_fails_beyond_max_offset pf bsi c fd d buffer w :
  w_fds w !! fd = Some d ->
  max_offset pf < cluster_offset bsi c ->
  readCluster pf fd c buffer bsi w
  = Ret (false, buffer)
      (add_trace w [EvSeek fd (cluster_offset bsi c) (-1);
                    EvPerror "Error seeking cluster"]).
Proof.
  intros Hd Hmax. unfold readCluster.
  erewrite bind_Ret.
  2:{ unfold sys_lseek. rewrite Hd.
      destruct (Z.leb_spec (cluster_offset bsi c) (max_offset pf)) as [?|_]; [lia|].
      rewrite andb_false_r. reflexivity. }
  cbn [Z.ltb Z.compare]. unfold perror, emit.
  erewrite bind_Ret by reflexivity.
  by rewrite !log_add_trace, add_trace_app.
Qed.

Lemma readCluster_fails_beyond_max_offset_witness :
  returned (readCluster Examples.pf_signed 3 2 (malloc 32768) Examples.bsi_far
              (Examples.world_with Examples.imageA O_RDONLY))
  = Some (false, malloc 32768).
Proof.
  rewrite (readCluster_fails_beyond_max_offset Examples.pf_signed Examples.bsi_far
             2 3 {| fd_path := "fat32.img"; fd_pos := 0; fd_mode := O_RDONLY |}).
  - reflexivity.
  - reflexivity.
  - vm_compute. reflexivity.
Defined.

(** * Callers of readCluster when the read fails *)

(** When the descriptor is not open, listDirectory lists nothing (not even
    "." and ".."), changeDirectory leaves the context as it was and reports
    no "Directory not found", createDirectory writes nothing: each only
    passes on the seek error of readCluster. *)
Theorem callers_give_up_on_closed_descriptor pf fd dirName context bsi w :
  w_fds w !! fd = None ->
  malloc_fails pf (cluster_bytes bsi) = false ->
  strcmp_eq dirName (bytes_of_string ".") = false ->
  let w' := add_trace w [EvSeek fd (cluster_offset bsi (currentCluster context)) (-1);
                         EvPerror "Error seeking cluster"] in
  listDirectory pf fd context bsi w = Ret tt w' /\
  changeDirectory pf fd dirName context bsi w = Ret context w' /\
  createDirectory pf fd (Some dirName) context bsi w = Ret tt w'.
Proof.
  intros Hfd Hm Hdot w'.
  unfold listDirectory, changeDirectory, createDirectory. rewrite Hm, Hdot.
  repeat split; erewrite bind_Ret by (by apply readCluster_closed); reflexivity.
Qed.

Lemma callers_give_up_on_closed_descriptor_witness :
  returned (changeDirectory Examples.pf_signed 3 (bytes_of_string "SUB")
              Examples.root_context Examples.bsiA
              (Examples.world_closed Examples.imageA))
  = Some Examples.root_context.
Proof.
  destruct (callers_give_up_on_closed_descriptor Examples.pf_signed 3
              (bytes_of_string "SUB") Examples.root_context Examples.bsiA
              (Examples.world_closed Examples.imageA))
    as (_ & Hcd & _); [reflexivity|reflexivity|reflexivity|].
  rewrite Hcd. reflexivity.
Defined.

(** * Reads of memory that nothing has written *)

Lemma load_unwritten data (r : nat) (i : nat) w :
  (length data <= i)%nat ->
  load ((Some <$> data) ++ replicate r None) (Z.of_nat i) w = Undefined w.
Proof.
  intros Hi. unfold load.
  destruct (Z.leb_spec 0 (Z.of_nat i)); [|lia].
  rewrite Nat2Z.id, lookup_app_r by (rewrite length_fmap; lia).
  rewrite length_fmap.
  destruct (replicate r None !! (i - length data)%nat) as [c|] eqn:Hc; [|done].
  apply lookup_replicate in Hc as [-> _]. done.
Qed.

(** The loop of listDirectory prints the records before [t] and then looks
    at record [t], which starts at or after the end of what was read. *)
Lemma listDirectory_loop_unwritten pf data r (t : nat) :
  (length data <= 40 * t)%nat ->
  (forall j, (j < t)%nat ->
     (40 * j + 11 <= length data)%nat /\
     exists b, data !! (40 * j)%nat = Some b /\ b <> x00) ->
  forall (m k i : nat) w,
    (i + m = t)%nat -> (m < k)%nat ->
    listDirectory_loop pf ((Some <$> data) ++ replicate r None) k (Z.of_nat i) w
    = Undefined (add_trace w
                   (map name_line
                      (List.filter (fun r => negb (deleted pf r))
                         (map (record_name data) (seq i m))))).
Proof.
  intros Hout Hrec. induction m as [|m IH]; intros k i w Hi Hk.
  - cbn [seq map List.filter]. rewrite add_trace_nil.
    destruct k as [|k]; [lia|].
    cbn [listDirectory_loop]. rewrite entry_offset.
    erewrite bind_Undefined; [done|]. apply load_unwritten. lia.
  - destruct k as [|k]; [lia|].
    destruct (Hrec i) as (Hlen & b & Hb & Hnz); [lia|].
    cbn [listDirectory_loop]. rewrite entry_offset.
    erewrite bind_Ret by (by apply load_filled).
    rewrite name0_is_nul.
    destruct (Byte.eqb b x00) eqn:Heq; [by apply Byte.byte_dec_bl in Heq|].
    destruct (record_name_head data i b Hb) as [tl Htl].
    cbn [seq map List.filter]. rewrite Htl. cbn [deleted]. rewrite <- Htl.
    replace (Z.of_nat i + 1) with (Z.of_nat (S i)) by lia.
    destruct (name0_is pf b 229); cbn [negb].
    + apply IH; lia.
    + erewrite bind_Ret by (apply read_str_filled; lia).
      unfold printf, emit. erewrite bind_Ret by reflexivity.
      rewrite IH by lia.
      rewrite log_add_trace, add_trace_app. done.
Qed.

(** listDirectory has no bound on the bytes actually read and counts its
    records in units of 32 bytes while stepping through them in units of
    the 40-byte structure.  Whenever the records before record [t] are live
    and record [t], still within the count, starts at or after the end of
    the bytes read (a cluster past the end of the image, a short read, or a
    cluster of 160 bytes or more without end marker), at an offset the file
    system accepts, it prints the names
    before [t] and then tests a byte that nothing has written: its
    behaviour is not defined from there. *)
Theorem listDirectory_uses_unwritten_memory pf fd d image context bsi w (t : nat) :
  bsi_in_range bsi ->
  malloc_fails pf (cluster_bytes bsi) = false ->
  w_fds w !! fd = Some d -> w_files w !! fd_path d = Some image ->
  readable (fd_mode d) = true ->
  let off := cluster_offset bsi (currentCluster context) in
  let data := file_slice image off (cluster_bytes bsi) in
  let count := Z.to_nat (cluster_bytes bsi / DIR_ENTRY_SIZE) in
  off <= max_offset pf ->
  (t < count)%nat ->
  (length data <= 40 * t)%nat ->
  (forall j, (j < t)%nat ->
     (40 * j + 11 <= length data)%nat /\
     exists b, data !! (40 * j)%nat = Some b /\ b <> x00) ->
  exists w',
    listDirectory pf fd context bsi w = Undefined w' /\
    w_trace w' =
      w_trace w
      ++ [EvSeek fd off off;
          EvRead fd (cluster_bytes bsi) (Z.of_nat (length data));
          EvStdout ("." ++ nl ++ ".." ++ nl)]
      ++ map name_line
           (List.filter (fun r => negb (deleted pf r)) (records data t)).
Proof.
  intros Hr Hmalloc Hd Hf Hrd off data count Hmax Ht Hout Hrec.
  pose proof Hr as (Hb & _).
  unfold listDirectory. rewrite Hmalloc.
  erewrite bind_Ret by (by eapply readCluster_malloc_ok).
  cbv beta iota. cbn [negb]. fold off. fold data.
  unfold printf, emit. erewrite bind_Ret by reflexivity.
  unfold filled, malloc. rewrite drop_replicate. fold count.
  rewrite (listDirectory_loop_unwritten pf data _ t Hout Hrec t count 0%nat)
    by lia.
  eexists. split; [reflexivity|].
  cbn [add_trace log w_trace]. unfold records.
  rewrite <- !app_assoc. done.
Qed.

(** a cluster of 512 bytes without a zero byte: the thirteen records that
    start inside it are printed, the fourteenth is outside the buffer *)
Lemma listDirectory_uses_unwritten_memory_witness :
  exists w',
    listDirectory Examples.pf_signed 3 Examples.contextC Examples.bsiC
      (Examples.world_with Examples.imageF O_RDONLY) = Undefined w'.
Proof.
  destruct (listDirectory_uses_unwritten_memory Examples.pf_signed 3
              {| fd_path := "fat32.img"; fd_pos := 0; fd_mode := O_RDONLY |}
              Examples.imageF Examples.contextC Examples.bsiC
              (Examples.world_with Examples.imageF O_RDONLY) 13%nat)
    as (w' & Hrun & _).
  - unfold bsi_in_range. simpl. lia.
  - reflexivity.
  - reflexivity.
  - reflexivity.
  - reflexivity.
  - vm_compute. discriminate.
  - vm_compute. lia.
  - vm_compute. lia.
  - intros j Hj.
    do 13 (destruct j as [|j];
           [split; [vm_compute; lia|];
            eexists; (split; [vm_compute; reflexivity|discriminate])|]).
    lia.
  - by exists w'.
Defined.

(** * The tests on the first name byte *)

(** The comparisons of [name[0]] promote a plain [char].  The test for the
    end marker 0x00 is the same on every host; the test for 0xE5 matches
    that byte where plain [char] is unsigned and no byte at all where it is
    signed, so that there createDirectory takes only the end marker for a
    free record. *)
Theorem name_tests_by_char_signedness pf b :
  name0_is pf b 0 = Byte.eqb b x00 /\
  name0_is pf b 229 = negb (char_signed pf) && Byte.eqb b xe5 /\
  free_slot pf b = Byte.eqb b x00 || (negb (char_signed pf) && Byte.eqb b xe5).
Proof.
  unfold free_slot. rewrite name0_is_nul.
  destruct (char_signed pf) eqn:Hs.
  - rewrite name0_is_e5_signed by done. done.
  - rewrite name0_is_e5_unsigned by done. done.
Qed.

(** * The write-back offset of createDirectory *)

Lemma writeback_offset_eq context bsi :
  0 <= currentCluster context * bytesPerSector bsi * sectorsPerCluster bsi < 2^32 ->
  writeback_offset context bsi
  = currentCluster context * bytesPerSector bsi * sectorsPerCluster bsi.
Proof.
  intros H. unfold writeback_offset, u32.
  rewrite Z.mul_mod_idemp_l by lia. by apply Z.mod_small.
Qed.

(** createDirectory reads the cluster of the current directory through the
    cluster translation and writes it back at
    [currentCluster * bytesPerSector * sectorsPerCluster].  Where neither
    computation wraps, the two offsets are the same exactly when
    [rootCluster = 2 * sectorsPerCluster]; on any other geometry the changed
    cluster is written somewhere else than it was read. *)
Theorem writeback_offset_is_read_offset_iff context bsi :
  bsi_in_range bsi -> 0 < bytesPerSector bsi ->
  2 <= currentCluster context ->
  (currentCluster context - 2) * sectorsPerCluster bsi + rootCluster bsi < 2^32 ->
  currentCluster context * bytesPerSector bsi * sectorsPerCluster bsi < 2^32 ->
  writeback_offset context bsi = cluster_offset bsi (currentCluster context)
  <-> rootCluster bsi = 2 * sectorsPerCluster bsi.
Proof.
  intros Hr Hb Hc Hrd Hwr. pose proof Hr as (Hbr & Hsr & Hroot & _).
  rewrite writeback_offset_eq by nia.
  rewrite cluster_offset_linear by done.
  split; intros H; nia.
Qed.

Lemma writeback_offset_is_read_offset_iff_witness :
  writeback_offset Examples.contextC Examples.bsiC
  = cluster_offset Examples.bsiC (currentCluster Examples.contextC).
Proof.
  apply (writeback_offset_is_read_offset_iff Examples.contextC Examples.bsiC).
  - unfold bsi_in_range. simpl. lia.
  - simpl. lia.
  - simpl. lia.
  - simpl. lia.
  - simpl. lia.
  - reflexivity.
Defined.

(** * printBootSectorInfo *)

Lemma lowest_free_ge_3 (fds : gmap Z fdesc) : 3 <= lowest_free fds.
Proof.
  unfold lowest_free.
  destruct (List.find _ _) as [n|] eqn:Hfind; [|lia].
  apply List.find_some in Hfind as [Hn _].
  apply list_elem_of_In, elem_of_seqZ in Hn. lia.
Qed.

(** the world after printBootSectorInfo opened the image and read its
    first 512 bytes *)
Lemma printBootSectorInfo_opened imagePath data w :
  w_files w !! imagePath = Some data ->
  let fd := lowest_free (w_fds w) in
  let bootSector := take 512 data in
  let k := Z.of_nat (length bootSector) in
  let w2 := {| w_files := w_files w;
               w_fds := <[fd := {| fd_path := imagePath; fd_pos := k;
                                   fd_mode := O_RDONLY |}]> (w_fds w);
               w_trace := w_trace w ++ [EvOpen imagePath O_RDONLY fd;
                                        EvRead fd 512 k] |} in
  printBootSectorInfo imagePath w =
  (if negb (k =? 512) then
     perror "Failed to read boot sector";; sys_close fd
   else
     match bootSectorInfo_of bootSector (Z.of_nat (length data)) with
     | None => undefined
     | Some info => print_info info;; sys_close fd
     end) w2.
Proof.
  intros Hf fd bootSector k w2.
  pose proof (lowest_free_ge_3 (w_fds w)) as Hge. fold fd in Hge.
  unfold printBootSectorInfo.
  unfold sys_open at 1. unfold mbind at 1, M_bind, bind. rewrite Hf. fold fd.
  destruct (Z.ltb_spec fd 0) as [?|_]; [lia|].
  erewrite bind_Ret.
  2:{ eapply sys_read_ok.
      - cbn [log w_fds]. by rewrite lookup_insert_eq.
      - cbn [log w_files fd_path]. exact Hf.
      - reflexivity. }
  cbv beta iota. unfold log. cbn [fd_pos fd_path fd_mode w_files w_fds w_trace].
  unfold file_slice. rewrite drop_0. change (Z.to_nat 512) with 512%nat.
  fold bootSector. fold k.
  rewrite Z.add_0_l, insert_insert_eq, <- app_assoc. cbn [app]. fold w2.
  destruct (negb (k =? 512)); [done|].
  unfold sys_fstat at 1. unfold mbind at 1, M_bind, bind.
  subst w2. cbn [w_fds w_files]. rewrite lookup_insert_eq. cbn [fd_path].
  rewrite Hf. reflexivity.
Qed.

Lemma close_restores (fd : Z) d (fds : gmap Z fdesc) files t :
  fds !! fd = None ->
  sys_close fd {| w_files := files; w_fds := <[fd := d]> fds; w_trace := t |}
  = Ret tt {| w_files := files; w_fds := fds; w_trace := t ++ [EvClose fd] |}.
Proof.
  intros H. unfold sys_close, log. cbn [w_files w_fds w_trace].
  by rewrite delete_insert_id.
Qed.

Lemma print_info_trace info w :
  print_info info w
  = Ret tt (add_trace w
      [EvStdout ("Bytes Per Sector: " ++ pretty (bytesPerSector info) ++ nl);
       EvStdout ("Sectors Per Cluster: " ++ pretty (sectorsPerCluster info) ++ nl);
       EvStdout ("Root Cluster: " ++ pretty (rootCluster info) ++ nl);
       EvStdout ("Total # of Clusters in Data Region: "
                 ++ pretty (totalClusters info) ++ nl);
       EvStdout ("# of Entries in One FAT: " ++ pretty (sectorsPerFAT info) ++ nl);
       EvStdout ("Size of Image (in bytes): " ++ pretty (sizeOfImage info) ++ nl)]).
Proof.
  unfold print_info, printf, emit, mbind, M_bind, bind, log, add_trace.
  cbn [w_files w_fds w_trace]. by rewrite <- !app_assoc.
Qed.

Lemma length_take_512 (data : list byte) :
  (512 <= length data)%nat -> Z.of_nat (length (take 512 data)) = 512.
Proof. intros H. rewrite length_take. lia. Qed.

(** On an image of at least 512 bytes whose bytes-per-sector and
    sectors-per-cluster fields are not zero, printBootSectorInfo prints the
    six fields of the record decoded from the first 512 bytes and the size
    of the file, in its fixed order, through a descriptor of its own that it
    closes again: files and descriptor table are afterwards what they
    were. *)
Theorem printBootSectorInfo_prints_decoded_record imagePath data info w :
  w_files w !! imagePath = Some data ->
  (512 <= length data)%nat ->
  bootSectorInfo_of (take 512 data) (Z.of_nat (length data)) = Some info ->
  let fd := lowest_free (w_fds w) in
  exists w',
    printBootSectorInfo imagePath w = Ret tt w' /\
    w_files w' = w_files w /\ w_fds w' = w_fds w /\
    w_trace w' =
      w_trace w
      ++ [EvOpen imagePath O_RDONLY fd; EvRead fd 512 512;
          EvStdout ("Bytes Per Sector: " ++ pretty (bytesPerSector info) ++ nl);
          EvStdout ("Sectors Per Cluster: " ++ pretty (sectorsPerCluster info) ++ nl);
          EvStdout ("Root Cluster: " ++ pretty (rootCluster info) ++ nl);
          EvStdout ("Total # of Clusters in Data Region: "
                    ++ pretty (totalClusters info) ++ nl);
          EvStdout ("# of Entries in One FAT: " ++ pretty (sectorsPerFAT info) ++ nl);
          EvStdout ("Size of Image (in bytes): " ++ pretty (sizeOfImage info) ++ nl);
          EvClose fd].
Proof.
  intros Hf Hlen Hinfo fd.
  rewrite (printBootSectorInfo_opened imagePath data w Hf).
  rewrite length_take_512 by done. cbn [Z.eqb Pos.eqb negb].
  rewrite Hinfo.
  erewrite bind_Ret by apply print_info_trace.
  unfold add_trace. cbn [w_files w_fds w_trace].
  rewrite close_restores by apply lowest_free_fresh.
  eexists. split; [reflexivity|]. cbn [w_files w_fds w_trace].
  repeat split. by rewrite <- !app_assoc.
Qed.

Lemma printBootSectorInfo_prints_decoded_record_witness :
  exists w',
    printBootSectorInfo "fat32.img" (Examples.world_closed Examples.imageA)
    = Ret tt w' /\
    w_fds w' = w_fds (Examples.world_closed Examples.imageA).
Proof.
  destruct (printBootSectorInfo_prints_decoded_record "fat32.img"
              Examples.imageA Examples.bsiA
              (Examples.world_closed Examples.imageA))
    as (w' & Hrun & _ & Hfds & _).
  - reflexivity.
  - vm_compute. lia.
  - vm_compute. reflexivity.
  - by exists w'.
Defined.

(** The error paths of printBootSectorInfo.  A file that does not exist
    gives "Failed to open image file" and nothing else.  A file of fewer
    than 512 bytes gives "Failed to read boot sector"; the descriptor
    opened for it is closed, and nothing is printed. *)
Theorem printBootSectorInfo_reports_unreadable_image imagePath w :
  (w_files w !! imagePath = None ->
   printBootSectorInfo imagePath w
   = Ret tt (add_trace w [EvOpen imagePath O_RDONLY (-1);
                          EvPerror "Failed to open image file"])) /\
  (forall data,
     w_files w !! imagePath = Some data -> (length data < 512)%nat ->
     let fd := lowest_free (w_fds w) in
     printBootSectorInfo imagePath w
     = Ret tt (add_trace w [EvOpen imagePath O_RDONLY fd;
                            EvRead fd 512 (Z.of_nat (length data));
                            EvPerror "Failed to read boot sector";
                            EvClose fd])).
Proof.
  split.
  - intros Hf. unfold printBootSectorInfo.
    unfold sys_open at 1. unfold mbind at 1, M_bind, bind. rewrite Hf.
    cbn [Z.ltb Z.compare]. unfold perror, emit.
    by rewrite !log_add_trace, add_trace_app.
  - intros data Hf Hlen fd.
    rewrite (printBootSectorInfo_opened imagePath data w Hf).
    rewrite take_ge by lia.
    destruct (Z.eqb_spec (Z.of_nat (length data)) 512) as [?|_]; [lia|].
    cbn [negb]. unfold perror, emit.
    erewrite bind_Ret by reflexivity.
    unfold log. cbn [w_files w_fds w_trace].
    rewrite close_restores by apply lowest_free_fresh.
    unfold add_trace. by rewrite <- !app_assoc.
Qed.

Lemma printBootSectorInfo_reports_unreadable_image_witness :
  returned (printBootSectorInfo "none.img" (Examples.world_closed Examples.imageA))
  = Some tt /\
  w_trace (final_world (printBootSectorInfo "fat32.img"
                          (Examples.world_closed (take 100 Examples.imageA))))
  = [EvOpen "fat32.img" O_RDONLY 3; EvRead 3 512 100;
     EvPerror "Failed to read boot sector"; EvClose 3].
Proof.
  split.
  - rewrite (proj1 (printBootSectorInfo_reports_unreadable_image "none.img"
                      (Examples.world_closed Examples.imageA))); reflexivity.
  - rewrite (proj2 (printBootSectorInfo_reports_unreadable_image "fat32.img"
                      (Examples.world_closed (take 100 Examples.imageA)))
               (take 100 Examples.imageA)).
    + vm_compute. reflexivity.
    + reflexivity.
    + vm_compute. lia.
Defined.

(** A boot sector whose bytes-per-sector or sectors-per-cluster field is
    zero is not rejected: printBootSectorInfo divides the size of the file
    by their product, zero.  It has printed nothing by then, and its
    descriptor is still open. *)
Theorem printBootSectorInfo_divides_by_zero imagePath data w :
  w_files w !! imagePath = Some data ->
  (512 <= length data)%nat ->
  le16 (nth 11 data x00) (nth 12 data x00) = 0 \/ byte_val (nth 13 data x00) = 0 ->
  let fd := lowest_free (w_fds w) in
  exists w',
    printBootSectorInfo imagePath w = Undefined w' /\
    w_trace w' = w_trace w ++ [EvOpen imagePath O_RDONLY fd; EvRead fd 512 512] /\
    is_Some (w_fds w' !! fd).
Proof.
  intros Hf Hlen Hzero fd.
  rewrite (printBootSectorInfo_opened imagePath data w Hf).
  rewrite length_take_512 by done. cbn [Z.eqb Pos.eqb negb].
  assert (Hnone : bootSectorInfo_of (take 512 data) (Z.of_nat (length data)) = None).
  { unfold bootSectorInfo_of.
    rewrite !(nth_lookup (take 512 data)), !lookup_take_lt by lia.
    rewrite <- !nth_lookup.
    destruct (Z.eqb_spec (byte_val (nth 13 data x00)
                          * le16 (nth 11 data x00) (nth 12 data x00)) 0) as [|Hne];
      [done|]. destruct Hzero as [Hz|Hz]; rewrite Hz in Hne; lia. }
  rewrite Hnone. eexists. split; [reflexivity|].
  cbn [w_trace w_fds]. split; [done|]. rewrite lookup_insert_eq. by eexists.
Qed.

Lemma printBootSectorInfo_divides_by_zero_witness :
  exists w',
    printBootSectorInfo "fat32.img"
      (Examples.world_closed (replicate 512 x00)) = Undefined w'.
Proof.
  destruct (printBootSectorInfo_divides_by_zero "fat32.img" (replicate 512 x00)
              (Examples.world_closed (replicate 512 x00)))
    as (w' & Hrun & _).
  - reflexivity.
  - vm_compute. lia.
  - left. reflexivity.
  - by exists w'.
Defined.

(** * The scan of changeDirectory *)

Lemma strncmp_eq_filled data rest s2 n : forall (p : nat) s w,
  s = s2 -> (p + n <= length data)%nat ->
  strncmp_eq ((Some <$> data) ++ rest) (Z.of_nat p) s n w
  = Ret (strncmp_bytes (take n (drop p data)) s n) w.
Proof.
  intros p s w _. revert p s w.
  induction n as [|n IH]; intros p s w Hlen; [done|].
  cbn [strncmp_eq].
  destruct (lookup_lt_is_Some_2 data p) as [b Hb]; [lia|].
  erewrite bind_Ret by (by apply load_filled).
  rewrite (drop_S _ _ _ Hb). cbn [take strncmp_bytes].
  destruct (Byte.eqb b (hd x00 s)); [|done].
  destruct (is_nul b); [done|].
  replace (Z.of_nat p + 1) with (Z.of_nat (S p)) by lia.
  apply IH. lia.
Qed.


Lemma lor_shiftl_16 hi lo :
  0 <= lo < 2^16 -> Z.lor (Z.shiftl hi 16) lo = hi * 2^16 + lo.
Proof.
  intros Hlo.
  assert (Hland : Z.land (Z.shiftl hi 16) lo = 0).
  { apply Z.bits_inj'. intros n Hn. rewrite Z.land_spec, Z.bits_0.
    destruct (Z.lt_ge_cases n 16).
    - rewrite Z.shiftl_spec_low by done. done.
    - rewrite <- (Z.mod_small lo (2^16)) by done.
      rewrite (Z.mod_pow2_bits_high lo 16 n) by lia. apply andb_false_r. }
  rewrite <- Z.lxor_lor, <- Z.add_nocarry_lxor by done.
  by rewrite Z.shiftl_mul_pow2 by lia.
Qed.

Lemma entry_firstCluster_range data t : 0 <= entry_firstCluster data t < 2^32.
Proof.
  unfold entry_firstCluster, entry_firstClusterHigh, entry_firstClusterLow.
  pose proof (le16_range (nth (40 * t + 32) data x00) (nth (40 * t + 33) data x00)).
  pose proof (le16_range (nth (40 * t + 34) data x00) (nth (40 * t + 35) data x00)).
  rewrite lor_shiftl_16 by done. lia.
Qed.

Lemma load_nth data rest (p : nat) w :
  (p < length data)%nat ->
  load ((Some <$> data) ++ rest) (Z.of_nat p) w = Ret (nth p data x00) w.
Proof.
  intros Hp. destruct (lookup_lt_is_Some_2 data p Hp) as [b Hb].
  rewrite (nth_lookup_Some _ _ _ _ Hb). by apply load_filled.
Qed.

Lemma load16_filled data rest (p : nat) w :
  (p + 2 <= length data)%nat ->
  load16 ((Some <$> data) ++ rest) (Z.of_nat p) w
  = Ret (le16 (nth p data x00) (nth (p + 1) data x00)) w.
Proof.
  intros Hp. unfold load16.
  erewrite bind_Ret by (apply load_nth; lia).
  replace (Z.of_nat p + 1) with (Z.of_nat (p + 1)) by lia.
  erewrite bind_Ret by (apply load_nth; lia). done.
Qed.

Lemma entry_field_offsets (i : nat) :
  Z.of_nat i * sizeof_DirEntry + off_attr = Z.of_nat (40 * i + 11) /\
  Z.of_nat i * sizeof_DirEntry + off_firstClusterHigh = Z.of_nat (40 * i + 32) /\
  Z.of_nat i * sizeof_DirEntry + off_firstClusterLow = Z.of_nat (40 * i + 34).
Proof.
  unfold sizeof_DirEntry, off_attr, off_firstClusterHigh, off_firstClusterLow. lia.
Qed.

(** one turn of the loop of changeDirectory on a live record that is inside
    the bytes read *)
Lemma changeDirectory_loop_step pf data rest dirName k (i : nat) found context w :
  (40 * i + 12 <= length data)%nat ->
  nth (40 * i) data x00 <> x00 ->
  let buffer := (Some <$> data) ++ rest in
  changeDirectory_loop pf buffer dirName (S k) (Z.of_nat i) found context w =
  if enters pf data dirName i then
    (hi ← load16 buffer (Z.of_nat (40 * i + 32));
     lo ← load16 buffer (Z.of_nat (40 * i + 34));
     match snprintf_self pf (path context) dirName with
     | None => undefined
     | Some path' =>
         mret (true,
               {| currentCluster := u32 (Z.lor (Z.shiftl hi 16) lo);
                  path := path';
                  imageName := imageName context |})
     end) w
  else
    changeDirectory_loop pf buffer dirName k (Z.of_nat (S i))
      (found || marks pf data dirName i) context w.
Proof.
  intros Hlen Hnz buffer.
  destruct (entry_field_offsets i) as (Hattr & Hhi & Hlo).
  assert (Hb : data !! (40 * i)%nat = Some (nth (40 * i) data x00)).
  { destruct (lookup_lt_is_Some_2 data (40 * i)) as [b Hb]; [lia|].
    by rewrite (nth_lookup_Some _ _ _ _ Hb). }
  destruct (record_name_head data i _ Hb) as [tl Htl].
  cbn [changeDirectory_loop]. rewrite entry_offset, Hattr, Hhi, Hlo.
  replace (Z.of_nat i + 1) with (Z.of_nat (S i)) by lia.
  erewrite bind_Ret by (by apply load_filled).
  rewrite name0_is_nul.
  destruct (Byte.eqb (nth (40 * i) data x00) x00) eqn:Heq;
    [by apply Byte.byte_dec_bl in Heq|].
  unfold enters, marks. rewrite Htl. cbn [deleted]. rewrite <- Htl.
  destruct (name0_is pf (nth (40 * i) data x00) 229); cbn [negb andb].
  { by rewrite orb_false_r. }
  assert (Hcmp : forall s w0,
            strncmp_eq buffer (Z.of_nat (40 * i)) s 11 w0
            = Ret (strncmp_bytes (record_name data i) s 11) w0).
  { intros s w0. apply (strncmp_eq_filled data rest s); [done|lia]. }
  destruct (strcmp_eq dirName (bytes_of_string "..")); cbn [andb].
  - erewrite bind_Ret by apply Hcmp.
    destruct (strncmp_bytes (record_name data i) dotdot_padded 11); cbn [negb andb].
    { by rewrite orb_true_r. }
    rewrite orb_false_r.
    erewrite bind_Ret by (apply load_nth; lia).
    fold (entry_attr data i). fold (is_directory data i).
    destruct (is_directory data i); cbn [andb].
    + erewrite bind_Ret by apply Hcmp.
      by destruct (strncmp_bytes (record_name data i) dirName 11).
    + erewrite bind_Ret by reflexivity. done.
  - erewrite bind_Ret by reflexivity. cbn [negb andb]. rewrite orb_false_r.
    erewrite bind_Ret by (apply load_nth; lia).
    fold (entry_attr data i). fold (is_directory data i).
    destruct (is_directory data i); cbn [andb].
    + erewrite bind_Ret by apply Hcmp.
      by destruct (strncmp_bytes (record_name data i) dirName 11).
    + erewrite bind_Ret by reflexivity. done.
Qed.

(** The loop of changeDirectory over records it does not enter: it goes on
    to record [t], the end marker or the end of the count, and [found]
    tells whether one of the records set it. *)
Lemma changeDirectory_loop_scan pf data rest dirName context (t : nat) :
  (forall j, (j < t)%nat ->
     (40 * j + 12 <= length data)%nat /\ nth (40 * j) data x00 <> x00 /\
     enters pf data dirName j = false) ->
  forall (m k i : nat) found w,
    (i + m = t)%nat -> (m <= k)%nat ->
    (k = m \/ data !! (40 * t)%nat = Some x00) ->
    changeDirectory_loop pf ((Some <$> data) ++ rest) dirName k (Z.of_nat i)
      found context w
    = Ret (found || existsb (marks pf data dirName) (seq i m), context) w.
Proof.
  intros Hrec. induction m as [|m IH]; intros k i found w Hi Hk Hend.
  - cbn [seq existsb]. rewrite orb_false_r.
    destruct k as [|k]; [done|]. destruct Hend as [?|Hend]; [lia|].
    cbn [changeDirectory_loop]. rewrite entry_offset.
    replace i with t by lia.
    erewrite bind_Ret by (by apply load_filled).
    by rewrite name0_is_nul.
  - destruct k as [|k]; [lia|].
    destruct (Hrec i) as (Hlen & Hnz & Hno); [lia|].
    rewrite changeDirectory_loop_step by done. rewrite Hno.
    rewrite IH; [|lia|lia|destruct Hend; [left; lia|by right]].
    cbn [seq existsb]. by rewrite orb_assoc.
Qed.

(** The loop of changeDirectory when record [t] is the first it enters and
    the platform's snprintf leaves [p] in the path. *)
Lemma changeDirectory_loop_enter pf data rest dirName context (t : nat) p :
  snprintf_self pf (path context) dirName = Some p ->
  (forall j, (j < t)%nat ->
     (40 * j + 12 <= length data)%nat /\ nth (40 * j) data x00 <> x00 /\
     enters pf data dirName j = false) ->
  (40 * t + 36 <= length data)%nat -> nth (40 * t) data x00 <> x00 ->
  enters pf data dirName t = true ->
  forall (m k i : nat) found w,
    (i + m = t)%nat -> (m < k)%nat ->
    changeDirectory_loop pf ((Some <$> data) ++ rest) dirName k (Z.of_nat i)
      found context w
    = Ret (true, entered context data t p) w.
Proof.
  intros Hp Hrec Hlen Hnz Hyes. induction m as [|m IH]; intros k i found w Hi Hk.
  - destruct k as [|k]; [lia|]. replace i with t by lia.
    rewrite changeDirectory_loop_step by (done || lia). rewrite Hyes.
    erewrite bind_Ret by (apply load16_filled; lia).
    replace (Z.of_nat (40 * t + 34)) with (Z.of_nat (40 * t + 34)) by done.
    erewrite bind_Ret by (apply load16_filled; lia).
    rewrite Hp.
    unfold mret, M_ret, ret, entered. do 3 f_equal.
    replace (40 * t + 32 + 1)%nat with (40 * t + 33)%nat by lia.
    replace (40 * t + 34 + 1)%nat with (40 * t + 35)%nat by lia.
    fold (entry_firstClusterHigh data t) (entry_firstClusterLow data t).
    fold (entry_firstCluster data t). unfold u32.
    apply Z.mod_small, entry_firstCluster_range.
  - destruct k as [|k]; [lia|].
    destruct (Hrec i) as (Hl & Hn & Hno); [lia|].
    rewrite changeDirectory_loop_step by done. rewrite Hno.
    apply IH; lia.
Qed.

(** changeDirectory up to its loop, on a readable descriptor *)
Lemma changeDirectory_read pf fd d image dirName context bsi w :
  0 <= bytesPerSector bsi < 2^16 ->
  malloc_fails pf (cluster_bytes bsi) = false ->
  strcmp_eq dirName (bytes_of_string ".") = false ->
  w_fds w !! fd = Some d -> w_files w !! fd_path d = Some image ->
  readable (fd_mode d) = true ->
  cluster_offset bsi (currentCluster context) <= max_offset pf ->
  let off := cluster_offset bsi (currentCluster context) in
  let data := file_slice image off (cluster_bytes bsi) in
  let rest := replicate (Z.to_nat (cluster_bytes bsi) - length data) None in
  let w2 := {| w_files := w_files w;
               w_fds := <[fd := {| fd_path := fd_path d;
                                   fd_pos := off + Z.of_nat (length data);
                                   fd_mode := fd_mode d |}]> (w_fds w);
               w_trace := w_trace w
                          ++ [EvSeek fd off off;
                              EvRead fd (cluster_bytes bsi) (Z.of_nat (length data))] |} in
  changeDirectory pf fd dirName context bsi w =
  ('(found, context') ←
     changeDirectory_loop pf ((Some <$> data) ++ rest) dirName
       (Z.to_nat (to_int (cluster_bytes bsi / sizeof_DirEntry))) 0 false context;
   ((if negb found
     then printf ("Directory not found: " ++ string_of_bytes dirName ++ nl)
     else mret tt) : M unit);;
   mret context') w2.
Proof.
  intros Hb Hmalloc Hdot Hd Hf Hrd Hmax off data rest w2.
  unfold changeDirectory. rewrite Hdot, Hmalloc.
  erewrite bind_Ret by (by eapply readCluster_malloc_ok).
  cbv beta iota. cbn [negb]. fold off data.
  unfold filled, malloc. rewrite drop_replicate. reflexivity.
Qed.

(** changeDirectory moves into the first record that is a live directory
    whose name compares equal to the name given: the current cluster
    becomes the number made of the two first-cluster halves of that record,
    and nothing is printed.  The path is rewritten by an snprintf that
    prints the path into itself, which C leaves undefined: it becomes what
    the platform leaves there (on the hosts of the examples "/" and the
    name, the old path being lost), not the old path with "/" and the name
    appended.  The offset of the cluster is one the file system accepts. *)
Theorem changeDirectory_enters_first_match
    pf fd d image dirName context bsi w (t : nat) p :
  bsi_in_range bsi ->
  malloc_fails pf (cluster_bytes bsi) = false ->
  strcmp_eq dirName (bytes_of_string ".") = false ->
  w_fds w !! fd = Some d -> w_files w !! fd_path d = Some image ->
  readable (fd_mode d) = true ->
  snprintf_self pf (path context) dirName = Some p ->
  let off := cluster_offset bsi (currentCluster context) in
  let data := file_slice image off (cluster_bytes bsi) in
  off <= max_offset pf ->
  (t < Z.to_nat (cluster_bytes bsi / sizeof_DirEntry))%nat ->
  (forall j, (j < t)%nat ->
     (40 * j + 12 <= length data)%nat /\ nth (40 * j) data x00 <> x00 /\
     enters pf data dirName j = false) ->
  (40 * t + 36 <= length data)%nat -> nth (40 * t) data x00 <> x00 ->
  enters pf data dirName t = true ->
  exists w',
    changeDirectory pf fd dirName context bsi w
    = Ret {| currentCluster := entry_firstCluster data t;
             path := p;
             imageName := imageName context |} w' /\
    w_files w' = w_files w /\
    w_trace w' = w_trace w
                 ++ [EvSeek fd off off;
                     EvRead fd (cluster_bytes bsi) (Z.of_nat (length data))].
Proof.
  intros Hr Hmalloc Hdot Hd Hf Hrd Hp off data Hmax Ht Hrec Hlen Hnz Hyes.
  pose proof Hr as (Hb & _). pose proof (cluster_bytes_range bsi Hr) as Hn.
  rewrite (changeDirectory_read pf fd d image dirName context bsi w) by done.
  rewrite to_int_small.
  2:{ unfold sizeof_DirEntry. split; [apply Z.div_pos; lia|].
      apply Z.div_lt_upper_bound; lia. }
  change 0 with (Z.of_nat 0) at 1.
  erewrite bind_Ret
    by (eapply (changeDirectory_loop_enter pf _ _ dirName context t p
                  Hp Hrec Hlen Hnz Hyes t); lia).
  cbv beta iota. cbn [negb].
  eexists. split; [reflexivity|]. done.
Qed.

(** When the scan enters no record (it ends at the end marker, or at the
    end of its count), changeDirectory leaves the context as it was.  It
    prints "Directory not found", except when the name is ".." and the
    padded ".." record was among those scanned: then it prints nothing, and
    still does not move.  The offset of the cluster is one the file system
    accepts. *)
Theorem changeDirectory_stays_without_match
    pf fd d image dirName context bsi w (t : nat) :
  bsi_in_range bsi ->
  malloc_fails pf (cluster_bytes bsi) = false ->
  strcmp_eq dirName (bytes_of_string ".") = false ->
  w_fds w !! fd = Some d -> w_files w !! fd_path d = Some image ->
  readable (fd_mode d) = true ->
  let off := cluster_offset bsi (currentCluster context) in
  let data := file_slice image off (cluster_bytes bsi) in
  let count := Z.to_nat (cluster_bytes bsi / sizeof_DirEntry) in
  off <= max_offset pf ->
  (t <= count)%nat ->
  (t = count \/ data !! (40 * t)%nat = Some x00) ->
  (forall j, (j < t)%nat ->
     (40 * j + 12 <= length data)%nat /\ nth (40 * j) data x00 <> x00 /\
     enters pf data dirName j = false) ->
  exists w',
    changeDirectory pf fd dirName context bsi w = Ret context w' /\
    w_files w' = w_files w /\
    w_trace w' =
      w_trace w
      ++ [EvSeek fd off off;
          EvRead fd (cluster_bytes bsi) (Z.of_nat (length data))]
      ++ (if existsb (marks pf data dirName) (seq 0 t) then []
          else [EvStdout ("Directory not found: " ++ string_of_bytes dirName ++ nl)]).
Proof.
  intros Hr Hmalloc Hdot Hd Hf Hrd off data count Hmax Ht Hend Hrec.
  pose proof Hr as (Hb & _). pose proof (cluster_bytes_range bsi Hr) as Hn.
  rewrite (changeDirectory_read pf fd d image dirName context bsi w) by done.
  rewrite to_int_small.
  2:{ unfold sizeof_DirEntry. split; [apply Z.div_pos; lia|].
      apply Z.div_lt_upper_bound; lia. }
  fold count. change 0 with (Z.of_nat 0) at 1.
  erewrite bind_Ret.
  2:{ eapply (changeDirectory_loop_scan pf _ _ dirName context t Hrec t count);
        [lia|lia|]. destruct Hend; [left; lia|by right]. }
  cbv beta iota. cbn [orb].
  destruct (existsb (marks pf data dirName) (seq 0 t)); cbn [negb].
  - eexists. split; [reflexivity|]. cbn [w_files w_trace].
    by rewrite app_nil_r.
  - unfold printf, emit. erewrite bind_Ret by reflexivity.
    eexists. split; [reflexivity|]. cbn [log w_files w_trace].
    by rewrite <- !app_assoc.
Qed.

Lemma changeDirectory_enters_first_match_witness :
  returned (changeDirectory Examples.pf_signed 3 (bytes_of_string "DOCS       ")
              Examples.contextC Examples.bsiC
              (Examples.world_with Examples.imageG O_RDONLY))
  = Some {| currentCluster := 9;
            path := bytes_of_string "/DOCS       ";
            imageName := bytes_of_string "fat32.img" |}.
Proof.
  destruct (changeDirectory_enters_first_match Examples.pf_signed 3
              {| fd_path := "fat32.img"; fd_pos := 0; fd_mode := O_RDONLY |}
              Examples.imageG (bytes_of_string "DOCS       ")
              Examples.contextC Examples.bsiC
              (Examples.world_with Examples.imageG O_RDONLY) 2%nat
              (bytes_of_string "/DOCS       "))
    as (w' & Hrun & _).
  - unfold bsi_in_range. simpl. lia.
  - reflexivity.
  - reflexivity.
  - reflexivity.
  - reflexivity.
  - reflexivity.
  - reflexivity.
  - vm_compute. discriminate.
  - vm_compute. lia.
  - intros j Hj. destruct j as [|[|j]]; [| |lia];
      (split; [vm_compute; lia|]); (split; [vm_compute; discriminate|]);
      vm_compute; reflexivity.
  - vm_compute. lia.
  - vm_compute. discriminate.
  - vm_compute. reflexivity.
  - rewrite Hrun. vm_compute. reflexivity.
Defined.

Lemma changeDirectory_stays_without_match_witness :
  exists w',
    changeDirectory Examples.pf_signed 3 (bytes_of_string "MISSING    ")
      Examples.contextC Examples.bsiC
      (Examples.world_with Examples.imageG O_RDONLY) = Ret Examples.contextC w' /\
    w_trace w' = [EvSeek 3 3584 3584; EvRead 3 512 512;
                  EvStdout ("Directory not found: MISSING    " ++ nl)].
Proof.
  destruct (changeDirectory_stays_without_match Examples.pf_signed 3
              {| fd_path := "fat32.img"; fd_pos := 0; fd_mode := O_RDONLY |}
              Examples.imageG (bytes_of_string "MISSING    ")
              Examples.contextC Examples.bsiC
              (Examples.world_with Examples.imageG O_RDONLY) 4%nat)
    as (w' & Hrun & _ & Htrace).
  - unfold bsi_in_range. simpl. lia.
  - reflexivity.
  - reflexivity.
  - reflexivity.
  - reflexivity.
  - reflexivity.
  - vm_compute. discriminate.
  - vm_compute. lia.
  - right. vm_compute. reflexivity.
  - intros j Hj. destruct j as [|[|[|[|j]]]]; [| | | |lia];
      (split; [vm_compute; lia|]); (split; [vm_compute; discriminate|]);
      vm_compute; reflexivity.
  - exists w'. split; [exact Hrun|]. rewrite Htrace. vm_compute. reflexivity.
Defined.

(** * Names that can match *)

Lemma strncmp_bytes_short n : forall a s,
  (length s < n)%nat -> (length s < length a)%nat ->
  (forall b, b ∈ take (S (length s)) a -> b <> x00) ->
  strncmp_bytes a s n = false.
Proof.
  induction n as [|n IH]; intros a s Hn Ha Hnz; [lia|].
  destruct a as [|c a]; [done|]. cbn [strncmp_bytes].
  assert (Hc : c <> x00) by (apply Hnz; cbn [take]; left).
  destruct s as [|x s]; cbn [hd tl].
  - destruct (Byte.eqb c x00) eqn:Heq; [by apply Byte.byte_dec_bl in Heq|done].
  - destruct (Byte.eqb c x); [|done].
    unfold is_nul.
    destruct (Byte.eqb c x00) eqn:Heq; [by apply Byte.byte_dec_bl in Heq|].
    apply IH; [simpl in Hn; lia|simpl in Ha; lia|].
    intros b Hb. apply Hnz. cbn [length take]. by right.
Qed.

(** changeDirectory compares the name it is given with the 11 bytes of the
    name field by [strncmp]: a name of fewer than 11 characters matches no
    record whose name field is filled up (with spaces, as FAT32 does) and so
    holds no NUL; such a record is entered only under its padded name. *)
Theorem short_name_matches_no_padded_record pf data dirName j :
  (length dirName < 11)%nat ->
  length (record_name data j) = 11%nat ->
  (forall b, b ∈ record_name data j -> b <> x00) ->
  enters pf data dirName j = false.
Proof.
  intros Hshort Hlen Hnz. unfold enters.
  rewrite (strncmp_bytes_short 11 (record_name data j) dirName); [|done|lia|].
  - apply andb_false_r.
  - intros b Hb. apply Hnz. by eapply subseteq_take.
Qed.

Lemma short_name_matches_no_padded_record_witness :
  enters Examples.pf_signed Examples.dirG (bytes_of_string "DOCS") 2 = false.
Proof.
  apply short_name_matches_no_padded_record.
  - vm_compute. lia.
  - reflexivity.
  - intros b Hb. vm_compute in Hb.
    repeat (apply elem_of_cons in Hb as [->|Hb]; [discriminate|]).
    by apply not_elem_of_nil in Hb.
Defined.

(** * More on createDirectory *)

(** createDirectory up to its loop, on a readable descriptor *)
Lemma createDirectory_read pf fd d image dirName context bsi w :
  0 <= bytesPerSector bsi < 2^16 ->
  malloc_fails pf (cluster_bytes bsi) = false ->
  w_fds w !! fd = Some d -> w_files w !! fd_path d = Some image ->
  readable (fd_mode d) = true ->
  cluster_offset bsi (currentCluster context) <= max_offset pf ->
  let off := cluster_offset bsi (currentCluster context) in
  let data := file_slice image off (cluster_bytes bsi) in
  let rest := replicate (Z.to_nat (cluster_bytes bsi) - length data) None in
  let w2 := {| w_files := w_files w;
               w_fds := <[fd := {| fd_path := fd_path d;
                                   fd_pos := off + Z.of_nat (length data);
                                   fd_mode := fd_mode d |}]> (w_fds w);
               w_trace := w_trace w
                          ++ [EvSeek fd off off;
                              EvRead fd (cluster_bytes bsi) (Z.of_nat (length data))] |} in
  createDirectory pf fd dirName context bsi w =
  ('(foundSpace, buffer) ←
     createDirectory_loop pf ((Some <$> data) ++ rest) dirName
       (currentCluster context)
       (Z.to_nat (to_int (cluster_bytes bsi / sizeof_DirEntry))) 0;
   if negb foundSpace then
     printf ("No space in current directory to create new directory" ++ nl)
   else
     sys_lseek pf fd (writeback_offset context bsi);;
     match all_bytes (take (Z.to_nat (cluster_bytes bsi)) buffer) with
     | None => undefined
     | Some bytes => sys_write fd bytes;; mret tt
     end) w2.
Proof.
  intros Hb Hmalloc Hd Hf Hrd Hmax off data rest w2.
  unfold createDirectory. rewrite Hmalloc.
  erewrite bind_Ret by (by eapply readCluster_malloc_ok).
  cbv beta iota. cbn [negb]. fold off data.
  unfold filled, malloc. rewrite drop_replicate. reflexivity.
Qed.

Lemma entries_count bsi :
  bsi_in_range bsi ->
  to_int (cluster_bytes bsi / sizeof_DirEntry) = cluster_bytes bsi / sizeof_DirEntry.
Proof.
  intros Hr. pose proof (cluster_bytes_range bsi Hr) as Hn.
  apply to_int_small. unfold sizeof_DirEntry.
  split; [apply Z.div_pos; lia|]. apply Z.div_lt_upper_bound; lia.
Qed.

(** the loop of createDirectory over records none of which it takes for
    free *)
Lemma createDirectory_loop_full pf data rest dirName cur (t : nat) :
  (forall j, (j < t)%nat ->
     exists b, data !! (40 * j)%nat = Some b /\ free_slot pf b = false) ->
  forall (m i : nat) w,
    (i + m = t)%nat ->
    createDirectory_loop pf ((Some <$> data) ++ rest) dirName cur m (Z.of_nat i) w
    = Ret (false, (Some <$> data) ++ rest) w.
Proof.
  intros Hrec. induction m as [|m IH]; intros i w Hi; [done|].
  destruct (Hrec i) as (b & Hb & Hnot); [lia|].
  cbn [createDirectory_loop]. rewrite entry_offset.
  erewrite bind_Ret by (by apply load_filled).
  unfold free_slot in Hnot. rewrite Hnot.
  replace (Z.of_nat i + 1) with (Z.of_nat (S i)) by lia.
  apply IH. lia.
Qed.

(** When none of the records of the cluster (as many as fit in units of 40
    bytes) passes the test for a free record, createDirectory prints "No
    space in current directory to create new directory" and makes no seek
    for writing and no write: a directory is never extended by a cluster.
    The offset of the cluster is one the file system accepts. *)
Theorem createDirectory_reports_full_directory
    pf fd d image dirName context bsi w :
  bsi_in_range bsi ->
  malloc_fails pf (cluster_bytes bsi) = false ->
  w_fds w !! fd = Some d -> w_files w !! fd_path d = Some image ->
  readable (fd_mode d) = true ->
  let off := cluster_offset bsi (currentCluster context) in
  let data := file_slice image off (cluster_bytes bsi) in
  let count := Z.to_nat (cluster_bytes bsi / sizeof_DirEntry) in
  off <= max_offset pf ->
  (forall j, (j < count)%nat ->
     exists b, data !! (40 * j)%nat = Some b /\ free_slot pf b = false) ->
  exists w',
    createDirectory pf fd dirName context bsi w = Ret tt w' /\
    w_files w' = w_files w /\
    w_trace w' =
      w_trace w
      ++ [EvSeek fd off off;
          EvRead fd (cluster_bytes bsi) (Z.of_nat (length data));
          EvStdout ("No space in current directory to create new directory" ++ nl)].
Proof.
  intros Hr Hmalloc Hd Hf Hrd off data count Hmax Hrec.
  pose proof Hr as (Hb & _).
  rewrite (createDirectory_read pf fd d image dirName context bsi w) by done.
  rewrite entries_count by done. fold count.
  change 0 with (Z.of_nat 0) at 1.
  erewrite bind_Ret
    by (by eapply (createDirectory_loop_full pf _ _ dirName _ count Hrec count 0%nat)).
  cbv beta iota. cbn [negb]. unfold printf, emit.
  eexists. split; [reflexivity|]. cbn [log w_files w_trace].
  split; [done|]. by rewrite <- !app_assoc.
Qed.

Lemma createDirectory_reports_full_directory_witness :
  exists w',
    createDirectory Examples.pf_signed 3 (Some (bytes_of_string "NEWDIR"))
      Examples.contextC Examples.bsiC
      (Examples.world_with Examples.imageF O_RDWR) = Ret tt w' /\
    w_files w' = w_files (Examples.world_with Examples.imageF O_RDWR).
Proof.
  destruct (createDirectory_reports_full_directory Examples.pf_signed 3
              {| fd_path := "fat32.img"; fd_pos := 0; fd_mode := O_RDWR |}
              Examples.imageF (Some (bytes_of_string "NEWDIR"))
              Examples.contextC Examples.bsiC
              (Examples.world_with Examples.imageF O_RDWR))
    as (w' & Hrun & Hfiles & _).
  - unfold bsi_in_range. simpl. lia.
  - reflexivity.
  - reflexivity.
  - reflexivity.
  - reflexivity.
  - vm_compute. discriminate.
  - intros j Hj. change (j < 12)%nat in Hj.
    do 12 (destruct j as [|j];
           [eexists; (split; [vm_compute; reflexivity|vm_compute; reflexivity])|]).
    lia.
  - by exists w'.
Defined.

(** createDirectory from its entry to the call of [write]: the record
    found is filled, the descriptor is at the write-back offset *)
Lemma createDirectory_at_write pf fd d image name context bsi w (t : nat) :
  bsi_in_range bsi ->
  malloc_fails pf (cluster_bytes bsi) = false ->
  w_fds w !! fd = Some d -> w_files w !! fd_path d = Some image ->
  readable (fd_mode d) = true ->
  let off := cluster_offset bsi (currentCluster context) in
  let wb := writeback_offset context bsi in
  let n := cluster_bytes bsi in
  let data := file_slice image off n in
  off <= max_offset pf -> wb <= max_offset pf ->
  length data = Z.to_nat n ->
  (t < Z.to_nat (n / sizeof_DirEntry))%nat ->
  (exists b, data !! (40 * t)%nat = Some b /\ free_slot pf b = true) ->
  (forall j, (j < t)%nat ->
     exists b, data !! (40 * j)%nat = Some b /\ free_slot pf b = false) ->
  createDirectory pf fd (Some name) context bsi w =
  (sys_write fd (fill_record data t name (currentCluster context));; mret tt)
    {| w_files := w_files w;
       w_fds := <[fd := {| fd_path := fd_path d; fd_pos := wb;
                           fd_mode := fd_mode d |}]> (w_fds w);
       w_trace := w_trace w ++ [EvSeek fd off off; EvRead fd n n; EvSeek fd wb wb] |}.
Proof.
  intros Hr Hmalloc Hd Hf Hrd off wb n data Hmax Hwbmax Hlen Ht Hfree Hbefore.
  pose proof Hr as (Hb & _).
  pose proof (cluster_bytes_range bsi Hr) as Hn. fold n in Hn.
  assert (Hfit : (40 * t + 40 <= length data)%nat).
  { rewrite Hlen. unfold sizeof_DirEntry in Ht.
    pose proof (Z.mul_div_le n 40 ltac:(lia)). lia. }
  destruct (fill_record_lengths data t name (currentCluster context) Hfit)
    as (_ & _ & _ & _ & Hl').
  rewrite (createDirectory_read pf fd d image (Some name) context bsi w) by done.
  rewrite entries_count by done. fold off n data.
  replace (Z.to_nat n - length data)%nat with 0%nat by lia.
  cbn [replicate]. rewrite app_nil_r.
  change 0 with (Z.of_nat 0) at 1.
  erewrite bind_Ret
    by (eapply (createDirectory_loop_filled pf data name _ t Hfit Hfree Hbefore t);
        lia).
  cbv beta iota. cbn [negb]. fold wb.
  erewrite bind_Ret.
  2:{ eapply sys_lseek_ok;
        [|split; [apply writeback_offset_nonneg|exact Hwbmax]].
      cbn [w_fds]. by rewrite lookup_insert_eq. }
  rewrite take_ge by (rewrite length_fmap; lia).
  rewrite all_bytes_fmap.
  unfold log. cbn [w_files w_fds w_trace fd_path fd_mode].
  rewrite insert_insert_eq, <- app_assoc.
  assert (Hn' : Z.of_nat (length data) = n) by lia. rewrite Hn'.
  reflexivity.
Qed.

(** createDirectory does not look at what [write] returns.  On a
    descriptor opened read-only, as [main] opens the image, it finds the
    free record, fills it in its buffer, and the write is refused: the file
    is unchanged and nothing is reported, neither on the standard output nor
    by perror.  Both offsets are ones the file system accepts. *)
Theorem createDirectory_fails_silently_when_read_only
    pf fd d image name context bsi w (t : nat) :
  bsi_in_range bsi ->
  malloc_fails pf (cluster_bytes bsi) = false ->
  w_fds w !! fd = Some d -> w_files w !! fd_path d = Some image ->
  fd_mode d = O_RDONLY ->
  let off := cluster_offset bsi (currentCluster context) in
  let wb := writeback_offset context bsi in
  let n := cluster_bytes bsi in
  let data := file_slice image off n in
  off <= max_offset pf -> wb <= max_offset pf ->
  length data = Z.to_nat n ->
  (t < Z.to_nat (n / sizeof_DirEntry))%nat ->
  (exists b, data !! (40 * t)%nat = Some b /\ free_slot pf b = true) ->
  (forall j, (j < t)%nat ->
     exists b, data !! (40 * j)%nat = Some b /\ free_slot pf b = false) ->
  exists data' w',
    createDirectory pf fd (Some name) context bsi w = Ret tt w' /\
    w_files w' = w_files w /\
    w_trace w' = w_trace w ++ [EvSeek fd off off; EvRead fd n n;
                               EvSeek fd wb wb; EvWrite fd data' (-1)].
Proof.
  intros Hr Hmalloc Hd Hf Hmode off wb n data Hmax Hwbmax Hlen Ht Hfree Hbefore.
  rewrite (createDirectory_at_write pf fd d image name context bsi w t)
    by (done || by rewrite Hmode).
  unfold sys_write at 1. unfold mbind at 1, M_bind, bind.
  cbn [w_fds w_files]. rewrite lookup_insert_eq. cbn [fd_path fd_mode].
  rewrite Hf, Hmode. cbn [writable].
  eexists. eexists. split; [reflexivity|].
  unfold log. cbn [w_files w_trace]. split; [done|].
  by rewrite <- !app_assoc.
Qed.

Lemma createDirectory_fails_silently_when_read_only_witness :
  exists data' w',
    createDirectory Examples.pf_signed 3 (Some (bytes_of_string "NEWDIR"))
      Examples.contextC Examples.bsiC
      (Examples.world_with Examples.imageC O_RDONLY) = Ret tt w' /\
    w_files w' = w_files (Examples.world_with Examples.imageC O_RDONLY) /\
    w_trace w' = [EvSeek 3 3584 3584; EvRead 3 512 512;
                  EvSeek 3 3584 3584; EvWrite 3 data' (-1)].
Proof.
  destruct (createDirectory_fails_silently_when_read_only Examples.pf_signed 3
              {| fd_path := "fat32.img"; fd_pos := 0; fd_mode := O_RDONLY |}
              Examples.imageC (bytes_of_string "NEWDIR")
              Examples.contextC Examples.bsiC
              (Examples.world_with Examples.imageC O_RDONLY) 3%nat)
    as (data' & w' & Hrun & Hfiles & Htrace).
  - unfold bsi_in_range. simpl. lia.
  - reflexivity.
  - reflexivity.
  - reflexivity.
  - reflexivity.
  - vm_compute. discriminate.
  - vm_compute. discriminate.
  - vm_compute. reflexivity.
  - vm_compute. lia.
  - exists x00. split; vm_compute; reflexivity.
  - intros j Hj.
    destruct j as [|[|[|j]]]; [| | |lia];
      eexists; (split; [vm_compute; reflexivity|vm_compute; reflexivity]).
  - exists data', w'. repeat split; assumption.
Defined.

(** * mkdir without a name *)

Lemma createDirectory_loop_unnamed pf data rest cur (t : nat) :
  (exists b, data !! (40 * t)%nat = Some b /\ free_slot pf b = true) ->
  (forall j, (j < t)%nat ->
     exists b, data !! (40 * j)%nat = Some b /\ free_slot pf b = false) ->
  forall (m k i : nat) w,
    (i + m = t)%nat -> (m < k)%nat ->
    createDirectory_loop pf ((Some <$> data) ++ rest) None cur k (Z.of_nat i) w
    = Undefined w.
Proof.
  intros (bt & Hbt & Hfree) Hbefore.
  induction m as [|m IH]; intros k i w Hi Hk.
  - destruct k as [|k]; [lia|]. replace i with t by lia.
    cbn [createDirectory_loop]. rewrite entry_offset.
    erewrite bind_Ret by (by apply load_filled).
    unfold free_slot in Hfree. by rewrite Hfree.
  - destruct k as [|k]; [lia|].
    destruct (Hbefore i) as (b & Hb & Hnot); [lia|].
    cbn [createDirectory_loop]. rewrite entry_offset.
    erewrite bind_Ret by (by apply load_filled).
    unfold free_slot in Hnot. rewrite Hnot.
    replace (Z.of_nat i + 1) with (Z.of_nat (S i)) by lia.
    apply IH; lia.
Qed.

Lemma skip_spaces_blanks (s : nat) : skip_spaces (replicate s x20) = [].
Proof. induction s as [|s IH]; [done|]. cbn [replicate skip_spaces]. exact IH. Qed.

Lemma chomp_blank_line (s : nat) :
  chomp (c_str (replicate s x20 ++ [x0a])) = replicate s x20.
Proof.
  induction s as [|s IH]; [done|].
  cbn [replicate app c_str chomp]. cbn. by rewrite IH.
Qed.

(** A command line that is "mkdir " followed only by blanks: sscanf
    converts nothing and leaves the array [dirName] as it was, never
    written; createDirectory is called all the same, and as soon as it finds
    a free record it copies the name from that array.  The session has no
    defined result from there on; the lines after it play no part.  The
    line is one that fgets can deliver into the 256 bytes of [command], and
    the offset of the cluster one the file system accepts. *)
Theorem mkdir_without_name_reads_unwritten_array
    pf argv1 fd d image context bsi w (s t : nat) rest :
  bsi_in_range bsi ->
  malloc_fails pf (cluster_bytes bsi) = false ->
  w_fds w !! fd = Some d -> w_files w !! fd_path d = Some image ->
  readable (fd_mode d) = true ->
  cluster_offset bsi (currentCluster context) <= max_offset pf ->
  let data :=
    file_slice image (cluster_offset bsi (currentCluster context))
      (cluster_bytes bsi) in
  (t < Z.to_nat (cluster_bytes bsi / sizeof_DirEntry))%nat ->
  (exists b, data !! (40 * t)%nat = Some b /\ free_slot pf b = true) ->
  (forall j, (j < t)%nat ->
     exists b, data !! (40 * j)%nat = Some b /\ free_slot pf b = false) ->
  let line := bytes_of_string "mkdir " ++ replicate s x20 ++ [x0a] in
  (length line < 256)%nat ->
  exists w',
    main_loop pf argv1 fd context bsi (line :: rest) w = Undefined w' /\
    w_files w' = w_files w.
Proof.
  intros Hr Hmalloc Hd Hf Hrd Hmax data Ht Hfree Hbefore line _.
  pose proof Hr as (Hb & _).
  assert (Hcmd : chomp (c_str line)
                 = bytes_of_string "mkdir " ++ replicate s x20).
  { subst line. cbn [bytes_of_string]. cbn. by rewrite chomp_blank_line. }
  cbn [main_loop]. rewrite Hcmd.
  unfold printf at 1, emit. unfold mbind at 1, M_bind at 1, bind at 1.
  cbn [strcmp_eq bytes_of_string].
  change (strcmp_eq (bytes_of_string "mkdir " ++ replicate s x20)
            (bytes_of_string "exit")) with false.
  change (strcmp_eq (bytes_of_string "mkdir " ++ replicate s x20)
            (bytes_of_string "info")) with false.
  change (strncmp_str_eq (bytes_of_string "mkdir " ++ replicate s x20)
            (bytes_of_string "cd ") 3) with false.
  change (strcmp_eq (bytes_of_string "mkdir " ++ replicate s x20)
            (bytes_of_string "ls")) with false.
  change (strncmp_str_eq (bytes_of_string "mkdir " ++ replicate s x20)
            (bytes_of_string "mkdir ") 6) with true.
  cbv iota.
  change (drop 6 (bytes_of_string "mkdir " ++ replicate s x20))
    with (replicate s x20).
  unfold sscanf_s. rewrite skip_spaces_blanks. cbn [word take].
  eexists. split.
  - apply bind_Undefined.
    rewrite (createDirectory_read pf fd d image None context bsi)
      by done.
    rewrite entries_count by done.
    apply bind_Undefined.
    change 0 with (Z.of_nat 0).
    by apply (createDirectory_loop_unnamed pf _ _ _ t Hfree Hbefore t).
  - reflexivity.
Qed.

Lemma mkdir_without_name_reads_unwritten_array_witness :
  exists w',
    main_loop Examples.pf_signed "fat32.img" 3 Examples.contextC Examples.bsiC
      ((bytes_of_string "mkdir " ++ replicate 2 x20 ++ [x0a]) :: [])
      (Examples.world_with Examples.imageC O_RDONLY) = Undefined w' /\
    w_files w' = w_files (Examples.world_with Examples.imageC O_RDONLY).
Proof.
  apply (mkdir_without_name_reads_unwritten_array Examples.pf_signed "fat32.img" 3
           {| fd_path := "fat32.img"; fd_pos := 0; fd_mode := O_RDONLY |}
           Examples.imageC Examples.contextC Examples.bsiC
           (Examples.world_with Examples.imageC O_RDONLY) 2%nat 3%nat []).
  - unfold bsi_in_range. simpl. lia.
  - reflexivity.
  - reflexivity.
  - reflexivity.
  - reflexivity.
  - vm_compute. discriminate.
  - vm_compute. lia.
  - exists x00. split; vm_compute; reflexivity.
  - intros j Hj.
    destruct j as [|[|[|j]]]; [| | |lia];
      eexists; (split; [vm_compute; reflexivity|vm_compute; reflexivity]).
  - vm_compute. lia.
Defined.

(** * Sessions *)

Lemma bind_ext {A B} (m : M A) (k k' : A -> M B) w :
  (forall a w', k a w' = k' a w') -> (m ≫= k) w = (m ≫= k') w.
Proof.
  intros H. unfold mbind, M_bind, bind. destruct (m w) as [a w'|w']; [apply H|done].
Qed.

Lemma main_loop_stops_at_exit pf argv1 fd context bsi l rest :
  chomp (c_str l) = bytes_of_string "exit" ->
  forall pre w,
    main_loop pf argv1 fd context bsi (pre ++ l :: rest) w
    = main_loop pf argv1 fd context bsi (pre ++ [l]) w.
Proof.
  intros Hl. induction pre as [|a pre IH]; intros w.
  - cbn [app main_loop]. rewrite Hl. reflexivity.
  - cbn [app main_loop]. apply bind_ext. intros _ w1.
    destruct (strcmp_eq (chomp (c_str a)) (bytes_of_string "exit")); [done|].
    apply bind_ext. intros _ w2. apply IH.
Qed.

(** The command loop ends at the first line whose command is "exit": the
    lines after it are never looked at, so a session on the lines up to and
    including that one is the same session. *)
Theorem main_stops_at_exit pf argv pre l rest bsi w :
  chomp (c_str l) = bytes_of_string "exit" ->
  main pf argv (pre ++ l :: rest) bsi w = main pf argv (pre ++ [l]) bsi w.
Proof.
  intros Hl. unfold main.
  destruct (negb (Z.of_nat (length argv) =? 2)); [done|].
  apply bind_ext. intros fd w1.
  destruct (fd =? -1); [done|].
  unfold mbind, M_bind, bind. by rewrite main_loop_stops_at_exit.
Qed.

Lemma main_stops_at_exit_witness :
  main Examples.pf_signed ["./filesys"; "fat32.img"]%string
    ([bytes_of_string ("ls" ++ nl)] ++ bytes_of_string ("exit" ++ nl)
       :: [bytes_of_string ("mkdir A" ++ nl); bytes_of_string ("ls" ++ nl)])
    Examples.bsiC (Examples.world_closed Examples.imageC)
  = main Examples.pf_signed ["./filesys"; "fat32.img"]%string
      ([bytes_of_string ("ls" ++ nl)] ++ [bytes_of_string ("exit" ++ nl)])
      Examples.bsiC (Examples.world_closed Examples.imageC).
Proof.
  apply (main_stops_at_exit Examples.pf_signed). vm_compute. reflexivity.
Defined.

Lemma cd_prefix_not (command s : list byte) :
  take 3 command = bytes_of_string "cd " ->
  hd x00 s <> "c"%byte -> strcmp_eq command s = false.
Proof.
  intros Hcd Hs. destruct command as [|c command]; [done|].
  injection Hcd as -> _. destruct s as [|x s]; [done|].
  cbn [strcmp_eq]. cbn [hd] in Hs.
  destruct (Byte.eqb "c" x) eqn:E; [|done].
  apply Byte.byte_dec_bl in E. congruence.
Qed.

(** A command line that begins with "cd " changes nothing: the call of
    changeDirectory is commented out, so the loop goes on to the next line
    with the same directory context, the same descriptor table and the same
    files, having printed only its prompt.  Every later prompt, listing and
    mkdir is therefore that of the root directory context. *)
Theorem cd_command_does_nothing pf argv1 fd context bsi l rest w :
  take 3 (chomp (c_str l)) = bytes_of_string "cd " ->
  main_loop pf argv1 fd context bsi (l :: rest) w
  = main_loop pf argv1 fd context bsi rest (log (EvStdout (prompt context)) w).
Proof.
  intros Hcd. cbn [main_loop].
  rewrite !(cd_prefix_not _ _ Hcd) by (cbn; congruence).
  unfold strncmp_str_eq. rewrite Hcd.
  change (strcmp_eq (bytes_of_string "cd ") (take 3 (bytes_of_string "cd ")))
    with true.
  reflexivity.
Qed.

Lemma cd_command_does_nothing_witness :
  main_loop Examples.pf_signed "fat32.img" 3 Examples.contextC Examples.bsiC
    [bytes_of_string ("cd SUB" ++ nl); bytes_of_string ("ls" ++ nl)]
    (Examples.world_with Examples.imageC O_RDONLY)
  = main_loop Examples.pf_signed "fat32.img" 3 Examples.contextC Examples.bsiC
      [bytes_of_string ("ls" ++ nl)]
      (log (EvStdout (prompt Examples.contextC))
         (Examples.world_with Examples.imageC O_RDONLY)).
Proof.
  apply (cd_command_does_nothing Examples.pf_signed). vm_compute. reflexivity.
Defined.

(** ** The descriptor table *)

Lemma keeps_on_return_of_keeps I {A} (m : M A) : keeps I m -> keeps_on_return I m.
Proof. intros H w a w' Hw Hm. specialize (H w Hw). by rewrite Hm in H. Qed.

Lemma keeps_on_return_bind I {A B} (m : M A) (k : A -> M B) :
  keeps_on_return I m -> (forall a, keeps_on_return I (k a)) ->
  keeps_on_return I (m ≫= k).
Proof.
  intros Hm Hk w b w' Hw. unfold mbind, M_bind, bind.
  destruct (m w) as [a w1|w1] eqn:E; [|done].
  intros Hka. eapply Hk; [|exact Hka]. by eapply Hm.
Qed.

(** printBootSectorInfo closes the descriptor it opened on every path on
    which it returns *)
Lemma printBootSectorInfo_closes imagePath w w' :
  printBootSectorInfo imagePath w = Ret tt w' -> w_fds w' = w_fds w.
Proof.
  destruct (w_files w !! imagePath) as [data|] eqn:Hf.
  - rewrite (printBootSectorInfo_opened imagePath data w Hf).
    pose proof (lowest_free_fresh (w_fds w)) as Hfresh.
    destruct (negb _).
    + unfold perror, emit, log, mbind, M_bind, bind. cbn [w_files w_fds w_trace].
      rewrite close_restores by done. by intros [= <-].
    + destruct (bootSectorInfo_of _ _) as [info|]; [|done].
      erewrite bind_Ret by apply print_info_trace.
      unfold add_trace. cbn [w_files w_fds w_trace].
      rewrite close_restores by done. by intros [= <-].
  - unfold printBootSectorInfo, sys_open.
    unfold mbind at 1, M_bind, bind. rewrite Hf.
    change (-1 <? 0) with true. cbv iota.
    unfold perror, emit. by intros [= <-].
Qed.

Section Table.

Variables (fd : Z) (fds : gmap Z fdesc).

Local Notation "'Open'" := (image_open fd fds) (only parsing).

Lemma open_log e w : Open w -> Open (log e w).
Proof. intros [d Hd]. by exists d. Qed.

Lemma table_printf s : keeps_on_return Open (printf s).
Proof. intros w a w' Hw [= _ <-]. by apply open_log. Qed.

Lemma table_perror s : keeps_on_return Open (perror s).
Proof. intros w a w' Hw [= _ <-]. by apply open_log. Qed.

Lemma table_lseek pf off : keeps_on_return Open (sys_lseek pf fd off).
Proof.
  intros w a w' [d Hd]. unfold sys_lseek.
  destruct (w_fds w !! fd) as [d0|]; [|intros [= _ <-]; by exists d].
  destruct ((0 <=? off) && (off <=? max_offset pf)); [|intros [= _ <-]; by exists d].
  intros [= _ <-]. eexists. cbn [log w_fds]. rewrite Hd.
  by rewrite insert_insert_eq.
Qed.

Lemma table_read n : keeps_on_return Open (sys_read fd n).
Proof.
  intros w a w' [d Hd]. unfold sys_read.
  destruct (w_fds w !! fd) as [d0|]; [|intros [= _ <-]; by exists d].
  destruct (w_files w !! fd_path d0); [|intros [= _ <-]; by exists d].
  destruct (readable (fd_mode d0)); [|intros [= _ <-]; by exists d].
  intros [= _ <-]. eexists. cbn [log w_fds]. rewrite Hd.
  by rewrite insert_insert_eq.
Qed.

Lemma table_write bytes : keeps_on_return Open (sys_write fd bytes).
Proof.
  intros w a w' [d Hd]. unfold sys_write.
  destruct (w_fds w !! fd) as [d0|]; [|intros [= _ <-]; by exists d].
  destruct (w_files w !! fd_path d0); [|intros [= _ <-]; by exists d].
  destruct (writable (fd_mode d0)); [|intros [= _ <-]; by exists d].
  intros [= _ <-]. eexists. cbn [log w_fds]. rewrite Hd.
  by rewrite insert_insert_eq.
Qed.

Lemma table_readCluster pf cluster buffer bsi :
  keeps_on_return Open (readCluster pf fd cluster buffer bsi).
Proof.
  unfold readCluster.
  apply keeps_on_return_bind; [apply table_lseek|]. intros r.
  destruct (r <? 0).
  - apply keeps_on_return_bind; [apply table_perror|]. intros _.
    apply keeps_on_return_of_keeps, keeps_ret.
  - apply keeps_on_return_bind; [apply table_read|]. intros [k got].
    destruct (k <? 0).
    + apply keeps_on_return_bind; [apply table_perror|]. intros _.
      apply keeps_on_return_of_keeps, keeps_ret.
    + destruct (buf_fill buffer got);
        apply keeps_on_return_of_keeps; [apply keeps_ret|apply keeps_undefined].
Qed.

Lemma table_printBootSectorInfo imagePath :
  keeps_on_return Open (printBootSectorInfo imagePath).
Proof.
  intros w [] w' [d Hd] Hrun. exists d.
  by rewrite (printBootSectorInfo_closes _ _ _ Hrun).
Qed.

Lemma table_listDirectory_loop pf buffer k :
  forall i, keeps_on_return Open (listDirectory_loop pf buffer k i).
Proof.
  induction k as [|k IH]; intros i; cbn [listDirectory_loop].
  - apply keeps_on_return_of_keeps, keeps_ret.
  - apply keeps_on_return_bind; [apply keeps_on_return_of_keeps, keeps_load|].
    intros n0.
    destruct (name0_is pf n0 0); [apply keeps_on_return_of_keeps, keeps_ret|].
    destruct (name0_is pf n0 229); [apply IH|].
    apply keeps_on_return_bind; [apply keeps_on_return_of_keeps, keeps_read_str|].
    intros name.
    apply keeps_on_return_bind; [apply table_printf|]. intros _. apply IH.
Qed.

Lemma table_listDirectory pf context bsi :
  keeps_on_return Open (listDirectory pf fd context bsi).
Proof.
  unfold listDirectory.
  destruct (malloc_fails pf (cluster_bytes bsi)); [apply table_printf|].
  apply keeps_on_return_bind; [apply table_readCluster|]. intros [ok buffer].
  destruct (negb ok); [apply keeps_on_return_of_keeps, keeps_ret|].
  apply keeps_on_return_bind; [apply table_printf|]. intros _.
  apply table_listDirectory_loop.
Qed.

Lemma table_createDirectory_loop pf buffer dirName cur k :
  forall i, keeps_on_return Open (createDirectory_loop pf buffer dirName cur k i).
Proof.
  induction k as [|k IH]; intros i; cbn [createDirectory_loop].
  - apply keeps_on_return_of_keeps, keeps_ret.
  - apply keeps_on_return_bind; [apply keeps_on_return_of_keeps, keeps_load|].
    intros n0.
    destruct (name0_is pf n0 0 || name0_is pf n0 229); [|apply IH].
    destruct dirName as [name|]; [|apply keeps_on_return_of_keeps, keeps_undefined].
    apply keeps_on_return_of_keeps.
    apply keeps_bind; [|intros ?; apply keeps_ret].
    unfold fill_entry.
    apply keeps_bind; [apply keeps_store_bytes|]. intros b1.
    apply keeps_bind; [apply keeps_store|]. intros b2.
    apply keeps_bind; [apply keeps_store_bytes|]. intros b3.
    apply keeps_bind; [apply keeps_store_bytes|]. intros b4.
    apply keeps_store_bytes.
Qed.

Lemma table_createDirectory pf dirName context bsi :
  keeps_on_return Open (createDirectory pf fd dirName context bsi).
Proof.
  unfold createDirectory.
  destruct (malloc_fails pf (cluster_bytes bsi)); [apply table_printf|].
  apply keeps_on_return_bind; [apply table_readCluster|]. intros [ok buffer].
  destruct (negb ok); [apply keeps_on_return_of_keeps, keeps_ret|].
  apply keeps_on_return_bind; [apply table_createDirectory_loop|].
  intros [foundSpace buffer'].
  destruct (negb foundSpace); [apply table_printf|].
  apply keeps_on_return_bind; [apply table_lseek|]. intros _.
  destruct (all_bytes _) as [bytes|];
    [|apply keeps_on_return_of_keeps, keeps_undefined].
  apply keeps_on_return_bind; [apply table_write|]. intros _.
  apply keeps_on_return_of_keeps, keeps_ret.
Qed.

Lemma table_main_loop pf argv1 context bsi lines :
  keeps_on_return Open (main_loop pf argv1 fd context bsi lines).
Proof.
  induction lines as [|line rest IH]; cbn [main_loop].
  - apply table_printf.
  - apply keeps_on_return_bind; [apply table_printf|]. intros _.
    destruct (strcmp_eq _ (bytes_of_string "exit"));
      [apply keeps_on_return_of_keeps, keeps_ret|].
    apply keeps_on_return_bind; [|intros _; apply IH].
    destruct (strcmp_eq _ (bytes_of_string "info")).
    { apply table_printBootSectorInfo. }
    destruct (strncmp_str_eq _ (bytes_of_string "cd ") 3);
      [apply keeps_on_return_of_keeps, keeps_ret|].
    destruct (strcmp_eq _ (bytes_of_string "ls")).
    { apply table_listDirectory. }
    destruct (strncmp_str_eq _ (bytes_of_string "mkdir ") 6).
    { apply table_createDirectory. }
    apply table_printf.
Qed.

End Table.

(** Whenever [main] returns, the table of open descriptors is the one it
    started with: the descriptor of the image is closed at the end, the one
    [info] opens is closed on each of its paths, and no command opens
    another.  It returns 0 exactly when it was given one argument that names
    an existing file, and 1 otherwise. *)
Theorem main_leaves_no_descriptor_open pf argv lines bsi w r w' :
  main pf argv lines bsi w = Ret r w' ->
  w_fds w' = w_fds w /\
  r = (if bool_decide (length argv = 2%nat /\
                       is_Some (w_files w !! nth 1 argv ""%string))
       then 0 else 1).
Proof.
  unfold main.
  destruct (Z.eqb_spec (Z.of_nat (length argv)) 2) as [Hargc|Hargc]; cbn [negb].
  2:{ intros [= <- <-]. split; [done|].
      rewrite bool_decide_eq_false_2; [done|]. intros [? _]. lia. }
  set (argv1 := nth 1 argv ""%string).
  unfold mbind at 1, M_bind at 1, bind at 1. unfold sys_open.
  destruct (w_files w !! argv1) as [data|] eqn:Hf.
  2:{ change (-1 =? -1) with true. cbv iota.
      intros [= <- <-]. split; [done|].
      rewrite bool_decide_eq_false_2; [done|]. by intros [_ [? ?]]. }
  pose proof (lowest_free_fresh (w_fds w)) as Hfresh.
  pose proof (lowest_free_ge_3 (w_fds w)) as Hge.
  set (fd := lowest_free (w_fds w)) in *.
  destruct (Z.eqb_spec fd (-1)) as [?|_]; [lia|].
  set (w1 := log _ _).
  unfold mbind at 1, M_bind at 1, bind at 1.
  destruct (main_loop pf argv1 fd _ bsi lines w1) as [[] w2|w2] eqn:Hloop; [|done].
  assert (Hopen : image_open fd (w_fds w) w2).
  { eapply table_main_loop; [|exact Hloop]. subst w1. by eexists. }
  destruct Hopen as [d Hd].
  unfold sys_close, log, mbind, M_bind, bind, mret, M_ret, ret.
  cbn [w_files w_fds w_trace]. intros [= <- <-]. cbn [w_fds].
  split.
  - rewrite Hd. by apply delete_insert_id.
  - rewrite bool_decide_eq_true_2; [done|]. split; [lia|by eexists].
Qed.

Lemma main_leaves_no_descriptor_open_witness :
  let o := main Examples.pf_signed ["./filesys"; "fat32.img"]%string
             [bytes_of_string ("info" ++ nl); bytes_of_string ("ls" ++ nl)]
             Examples.bsiC (Examples.world_closed Examples.imageC) in
  w_fds (final_world o) = w_fds (Examples.world_closed Examples.imageC) /\
  0 = (if bool_decide
            (length ["./filesys"; "fat32.img"]%string = 2%nat /\
             is_Some (w_files (Examples.world_closed Examples.imageC)
                      !! nth 1 ["./filesys"; "fat32.img"]%string ""%string))
       then 0 else 1).
Proof.
  apply (main_leaves_no_descriptor_open Examples.pf_signed
           ["./filesys"; "fat32.img"]%string
           [bytes_of_string ("info" ++ nl); bytes_of_string ("ls" ++ nl)]
           Examples.bsiC (Examples.world_closed Examples.imageC) 0).
  vm_compute. reflexivity.
Defined.

(** * mkdir followed by cd *)







(** * What changeDirectory can do *)

Lemma lseek_keeps_files pf fd off F :
  keeps (fun w => w_files w = F) (sys_lseek pf fd off).
Proof.
  intros w Hw. unfold sys_lseek.
  destruct (w_fds w !! fd); [destruct ((0 <=? off) && (off <=? max_offset pf))|];
    done.
Qed.

Lemma read_keeps_files fd n F : keeps (fun w => w_files w = F) (sys_read fd n).
Proof.
  intros w Hw. unfold sys_read.
  destruct (w_fds w !! fd) as [d|]; [|done].
  destruct (w_files w !! fd_path d); [|done].
  destruct (readable (fd_mode d)); done.
Qed.

Lemma emit_keeps_files e F : keeps (fun w => w_files w = F) (emit e).
Proof. by intros w Hw. Qed.

Lemma readCluster_keeps_files pf fd c buffer bsi F :
  keeps (fun w => w_files w = F) (readCluster pf fd c buffer bsi).
Proof.
  unfold readCluster. apply keeps_bind; [apply lseek_keeps_files|]. intros r.
  destruct (r <? 0).
  - apply keeps_bind; [apply emit_keeps_files|]. intros _. apply keeps_ret.
  - apply keeps_bind; [apply read_keeps_files|]. intros [k got].
    destruct (k <? 0).
    + apply keeps_bind; [apply emit_keeps_files|]. intros _. apply keeps_ret.
    + destruct (buf_fill buffer got); [apply keeps_ret|apply keeps_undefined].
Qed.

Lemma changeDirectory_loop_keeps I pf buffer dirName context k :
  forall i found, keeps I (changeDirectory_loop pf buffer dirName k i found context).
Proof.
  induction k as [|k IH]; intros i found; cbn [changeDirectory_loop].
  - apply keeps_ret.
  - apply keeps_bind; [apply keeps_load|]. intros n0.
    destruct (name0_is pf n0 0); [apply keeps_ret|].
    destruct (name0_is pf n0 229); [apply IH|].
    apply keeps_bind.
    { destruct (strcmp_eq dirName _); [apply keeps_strncmp_eq|apply keeps_ret]. }
    intros c1. destruct c1; [apply IH|].
    apply keeps_bind; [apply keeps_load|]. intros attr.
    apply keeps_bind.
    { destruct (negb _); [apply keeps_strncmp_eq|apply keeps_ret]. }
    intros c2. destruct c2; [|apply IH].
    apply keeps_bind; [apply keeps_load16|]. intros hi.
    apply keeps_bind; [apply keeps_load16|]. intros lo.
    destruct (snprintf_self pf (path context) dirName);
      [apply keeps_ret|apply keeps_undefined].
Qed.

(** the context the loop of changeDirectory returns *)
Lemma changeDirectory_loop_context pf buffer dirName context k :
  forall i found w f c' w',
    changeDirectory_loop pf buffer dirName k i found context w = Ret (f, c') w' ->
    c' = context \/
    (f = true /\ 0 <= currentCluster c' < 2^32 /\
     snprintf_self pf (path context) dirName = Some (path c') /\
     imageName c' = imageName context).
Proof.
  induction k as [|k IH]; intros i found w f c' w'; cbn [changeDirectory_loop].
  - intros [= _ <- _]. by left.
  - unfold mbind at 1, M_bind at 1, bind at 1.
    destruct (load buffer _ w) as [n0 w1|w1]; [|done].
    destruct (name0_is pf n0 0); [intros [= _ <- _]; by left|].
    destruct (name0_is pf n0 229); [apply IH|].
    unfold mbind at 1, M_bind at 1, bind at 1.
    match goal with |- match ?m w1 with _ => _ end = _ -> _ =>
      destruct (m w1) as [c1 w2|w2] end; [|done].
    destruct c1; [apply IH|].
    unfold mbind at 1, M_bind at 1, bind at 1.
    destruct (load buffer _ w2) as [attr w3|w3]; [|done].
    unfold mbind at 1, M_bind at 1, bind at 1.
    match goal with |- match ?m w3 with _ => _ end = _ -> _ =>
      destruct (m w3) as [c2 w4|w4] end; [|done].
    destruct c2; [|apply IH].
    unfold mbind at 1, M_bind at 1, bind at 1.
    destruct (load16 buffer _ w4) as [hi w5|w5]; [|done].
    unfold mbind at 1, M_bind at 1, bind at 1.
    destruct (load16 buffer _ w5) as [lo w6|w6]; [|done].
    destruct (snprintf_self pf (path context) dirName) as [p|] eqn:Hp; [|done].
    intros [= <- <- _]. right. cbn [currentCluster path imageName].
    split; [done|]. split; [|done].
    unfold u32. apply Z.mod_pos_bound. lia.
Qed.

(** changeDirectory only reads.  Whatever the descriptor, the geometry and
    the cluster hold, it leaves every file as it was, also when it stops at
    undefined behaviour; and when it returns, the context is either the one
    it was given or one whose cluster is a 32-bit number and whose path is
    what the platform's snprintf, printing the path into itself, leaves
    there for the old path and the name; the image name is never
    touched. *)
Theorem changeDirectory_only_reads pf fd dirName context bsi w :
  let o := changeDirectory pf fd dirName context bsi w in
  w_files (final_world o) = w_files w /\
  forall c' w', o = Ret c' w' ->
    imageName c' = imageName context /\
    (c' = context \/
     (0 <= currentCluster c' < 2^32 /\
      snprintf_self pf (path context) dirName = Some (path c'))).
Proof.
  split.
  - assert (H : keeps (fun w0 => w_files w0 = w_files w)
                  (changeDirectory pf fd dirName context bsi)); [|by apply H].
    unfold changeDirectory.
    destruct (strcmp_eq dirName _); [apply keeps_ret|].
    destruct (malloc_fails pf (cluster_bytes bsi)).
    { apply keeps_bind; [apply emit_keeps_files|]. intros _. apply keeps_ret. }
    apply keeps_bind; [apply readCluster_keeps_files|]. intros [ok buffer].
    destruct (negb ok); [apply keeps_ret|].
    apply keeps_bind; [apply changeDirectory_loop_keeps|]. intros [found c'].
    apply keeps_bind; [|intros _; apply keeps_ret].
    destruct (negb found); [apply emit_keeps_files|apply keeps_ret].
  - intros c' w'. unfold changeDirectory.
    destruct (strcmp_eq dirName _); [intros [= <- _]; by split; [|left]|].
    destruct (malloc_fails pf (cluster_bytes bsi)).
    { intros [= <- _]. by split; [|left]. }
    unfold mbind at 1, M_bind at 1, bind at 1.
    destruct (readCluster _ _ _ _ _ w) as [[ok buffer] w1|w1]; [|done].
    destruct (negb ok); [intros [= <- _]; by split; [|left]|].
    unfold mbind at 1, M_bind at 1, bind at 1.
    destruct (changeDirectory_loop _ _ _ _ _ _ _ w1) as [[found c1] w2|w2] eqn:Hloop;
      [|done].
    apply changeDirectory_loop_context in Hloop.
    unfold mbind at 1, M_bind at 1, bind at 1.
    match goal with |- match ?m w2 with _ => _ end = _ -> _ =>
      destruct (m w2) as [[] w3|w3] end; [|done].
    intros [= <- _].
    destruct Hloop as [->|(_ & Hc & Hp & Hi)]; [by split; [|left]|].
    split; [done|]. right. by split.
Qed.
